(** * Persona store and generation lifecycle of the Chatterbox web UI

    A shallow embedding of [app.py]: the four functions
    [generate_audio], [get_persona_list], [save_persona] and
    [load_persona], over an explicit model of the Python values they
    handle, of [os.path], and of the part of the file system they touch;
    with them [refresh_personas], the statement that makes the root of
    the personas when the module is loaded, and the sliders the
    interface declares.

    Conventions.
    - A Python [str] is a Rocq [string]; one [ascii] stands for one
      character, so the model covers texts and file names over the first
      256 code points.
    - A Python [float] is a primitive binary64 [float].
    - Every function of the program is a computation in the monad [M],
      which threads a [world] (file system, event log, pending copy fault)
      and either returns a value or raises a Python exception.
    - What the program calls but does not contain -- the synthesis model,
      [torchaudio], [tempfile], the parser of [float(str)], the location
      of the module and the working directory -- is a variable of the
      sections below.

    The file has the definitions first (values, paths, file system,
    monad, the program, a concrete installation), then the properties,
    then the properties applied to the concrete installation. *)

From Stdlib Require Import String Ascii List ZArith Bool Lia Floats.
From Stdlib Require Import Sorting.Mergesort Sorting.Sorted Sorting.Permutation.
From Stdlib Require Import Structures.OrderedTypeEx.
Import ListNotations.

Set Warnings "-inexact-float,-register-all".
Local Open Scope list_scope.
Local Open Scope string_scope.

(* ================================================================= *)
(** ** Python values and exceptions *)

Module Py.

(** The values that reach the program: what the UI components deliver
    and what [json.load] produces. *)
Inductive pyval : Type :=
| PyNone
| PyBool (b : bool)
| PyInt (z : Z)
| PyFloat (f : float)
| PyStr (s : string)
| PyList (l : list pyval)
| PyDict (d : list (string * pyval)).

(** Exception classes that the program or its run-time can raise.
    [GrError] is [gr.Error]; all of them derive from [Exception]. *)
Inductive exn_class : Type :=
| GrError
| TypeError
| ValueError
| OverflowError
| AttributeError
| JSONDecodeError
| FileNotFoundError
| FileExistsError
| NotADirectoryError
| IsADirectoryError
| SameFileError
| OSError
| RuntimeError.

(** An exception instance: its class and the text [str(e)] gives. *)
Record exn : Type := mkExn { exn_cls : exn_class; exn_str : string }.

Inductive result (A : Type) : Type :=
| Ok (a : A)
| Raise (e : exn).
Arguments Ok {A} a.
Arguments Raise {A} e.

(** The class of the exception a run ended with, if it raised. *)
Definition exn_cls_of {A} (r : result A) : option exn_class :=
  match r with
  | Ok _ => None
  | Raise e => Some (exn_cls e)
  end.

(** [not s] for a value that is a [str] or [None]. *)
Definition falsy (s : option string) : bool :=
  match s with
  | None => true
  | Some "" => true
  | Some _ => false
  end.

(** [int.__float__]: the integer rounded to the nearest binary64 (ties
    to even); [OverflowError] when the rounded value is not finite. *)
Definition float_of_int (z : Z) : result float :=
  match binary_normalize 53 1024 z 0 false with
  | S754_infinity _ | S754_nan =>
      Raise (mkExn OverflowError "int too large to convert to float")
  | sf => Ok (SF2Prim sf)
  end.

Definition type_name (v : pyval) : string :=
  match v with
  | PyNone => "NoneType"
  | PyBool _ => "bool"
  | PyInt _ => "int"
  | PyFloat _ => "float"
  | PyStr _ => "str"
  | PyList _ => "list"
  | PyDict _ => "dict"
  end.

Section Float.
(** The decimal parser behind [float(str)] belongs to the interpreter;
    [None] stands for a text it rejects. *)
Variable float_of_str : string -> option float.

(** The builtin [float(v)]. *)
Definition py_float (v : pyval) : result float :=
  match v with
  | PyFloat f => Ok f
  | PyInt z => float_of_int z
  | PyBool b => Ok (if b then 1%float else 0%float)
  | PyStr s =>
      match float_of_str s with
      | Some f => Ok f
      | None =>
          Raise (mkExn ValueError
                   ("could not convert string to float: '" ++ s ++ "'"))
      end
  | _ =>
      Raise (mkExn TypeError
               ("float() argument must be a string or a real number, not '"
                  ++ type_name v ++ "'"))
  end.
End Float.

(** [d.get(key, default)] on a dict held as an association list (the
    first binding of a key is the live one). *)
Fixpoint dict_get (d : list (string * pyval)) (key : string)
         (default : pyval) : pyval :=
  match d with
  | [] => default
  | (k, v) :: d' => if String.eqb k key then v else dict_get d' key default
  end.

Fixpoint dict_has (d : list (string * pyval)) (key : string) : bool :=
  match d with
  | [] => false
  | (k, _) :: d' => String.eqb k key || dict_has d' key
  end.

End Py.
Import Py.

(* ================================================================= *)
(** ** [os.path] on POSIX *)

Module PosixPath.

Definition sep : ascii := "/"%char.
Definition extsep : ascii := "."%char.

(** Does character [c] occur in [s]? *)
Fixpoint mem_char (c : ascii) (s : string) : bool :=
  match s with
  | EmptyString => false
  | String a s' => Ascii.eqb a c || mem_char c s'
  end.

(** Cut [s] at the last occurrence of [c]: [Some (l, r)] with
    [s = l ++ c :: r] and no [c] in [r]; [None] when [c] does not occur
    (Python's [rfind] returning [-1]). *)
Fixpoint rsplit_char (c : ascii) (s : string) : option (string * string) :=
  match s with
  | EmptyString => None
  | String a s' =>
      match rsplit_char c s' with
      | Some (l, r) => Some (String a l, r)
      | None => if Ascii.eqb a c then Some (EmptyString, s') else None
      end
  end.

(** The leading run of [c] in [s], and what follows it. *)
Fixpoint span_char (c : ascii) (s : string) : string * string :=
  match s with
  | EmptyString => (EmptyString, EmptyString)
  | String a s' =>
      if Ascii.eqb a c
      then let (run, rest) := span_char c s' in (String a run, rest)
      else (EmptyString, s)
  end.

Fixpoint all_char (c : ascii) (s : string) : bool :=
  match s with
  | EmptyString => true
  | String a s' => Ascii.eqb a c && all_char c s'
  end.

(** [s.rstrip(c)]. *)
Fixpoint rstrip_char (c : ascii) (s : string) : string :=
  match s with
  | EmptyString => EmptyString
  | String a s' =>
      match rstrip_char c s' with
      | EmptyString => if Ascii.eqb a c then EmptyString else String a EmptyString
      | t => String a t
      end
  end.

Definition starts_with_sep (s : string) : bool :=
  match s with
  | String a _ => Ascii.eqb a sep
  | EmptyString => false
  end.

Fixpoint ends_with_sep (s : string) : bool :=
  match s with
  | EmptyString => false
  | String a EmptyString => Ascii.eqb a sep
  | String _ s' => ends_with_sep s'
  end.

(** [os.path.join(a, b)]: an absolute [b] replaces [a]; otherwise [b] is
    appended, with a separator unless [a] is empty or already ends
    with one. *)
Definition join (a b : string) : string :=
  if starts_with_sep b then b
  else if (String.eqb a "" || ends_with_sep a)%bool then a ++ b
  else a ++ String sep b.

(** [os.path.splitext(p)]: the extension starts at the last dot of the
    last path component, leading dots of that component not counting;
    it is empty when there is no such dot. *)
Definition splitext (p : string) : string * string :=
  let '(head, base) :=
    match rsplit_char sep p with
    | Some (l, r) => (l ++ String sep EmptyString, r)
    | None => (EmptyString, p)
    end in
  let '(dots, rest) := span_char extsep base in
  match rsplit_char extsep rest with
  | Some (l, r) => (head ++ dots ++ l, String extsep r)
  | None => (p, EmptyString)
  end.

(** [os.path.dirname(p)]: everything up to the last separator, with
    trailing separators removed unless nothing else is left. *)
Definition dirname (p : string) : string :=
  match rsplit_char sep p with
  | None => EmptyString
  | Some (l, _) =>
      if all_char sep l then l ++ String sep EmptyString
      else rstrip_char sep l
  end.

(** [os.path.basename(p)]: what follows the last separator. *)
Definition basename (p : string) : string :=
  match rsplit_char sep p with
  | None => p
  | Some (_, r) => r
  end.

(** The components of a path, cut at every separator. *)
Fixpoint split_from (acc : string) (s : string) : list string :=
  match s with
  | EmptyString => [acc]
  | String a s' =>
      if Ascii.eqb a sep then acc :: split_from EmptyString s'
      else split_from (acc ++ String a EmptyString) s'
  end.

Definition components (s : string) : list string := split_from EmptyString s.

(** One step of name resolution: empty and ["."] components stay put,
    [".."] goes to the parent, any other name goes down. *)
Definition step (at_ : list string) (c : string) : list string :=
  if (String.eqb c "" || String.eqb c ".")%bool then at_
  else if String.eqb c ".." then removelast at_
  else (at_ ++ [c])%list.

(** The location a path string denotes, as the list of names from the
    file-system root; relative paths start from [cwd].  There are no
    symbolic links in the model, and [".."] is resolved on the names. *)
Definition resolve (cwd : list string) (p : string) : list string :=
  fold_left step (components p)
            (if starts_with_sep p then [] else cwd).

(** A name a directory entry can have. *)
Definition valid_name (n : string) : bool :=
  negb (String.eqb n "") && negb (String.eqb n ".")
  && negb (String.eqb n "..") && negb (mem_char sep n).

End PosixPath.
Import PosixPath.

(* ================================================================= *)
(** ** The file system

    Directories and regular files under the names that lead to them.
    The model has no symbolic links, no permissions and no limits on
    names or space: an operation fails only for the reasons written out
    below (a missing entry, a file where a directory is needed or the
    other way round, a copy onto itself, an injected copy fault). *)

Module FS.

(** A location: the names leading to it from the root directory. *)
Definition key : Type := list string.

(** What a regular file holds.  [Json doc] is the text [json.dump]
    writes for [doc]; [json.load] reads it back as [doc], Python's codec
    being exact on the strings and floats the program stores (the text of
    a float is the shortest one that reads back as that float).  [Raw] is
    any other content, which [json.load] rejects. *)
Inductive content : Type :=
| Raw (bytes : string)
| Json (doc : pyval).

Inductive node : Type :=
| Dir
| File (c : content).

(** The entries, oldest first.  The first binding of a location is the
    live one; the order is what [os.listdir] happens to report. *)
Definition fs : Type := list (key * node).

Fixpoint key_eqb (a b : key) : bool :=
  match a, b with
  | [], [] => true
  | x :: a', y :: b' => String.eqb x y && key_eqb a' b'
  | _, _ => false
  end.

Fixpoint lookup (k : key) (s : fs) : option node :=
  match s with
  | [] => None
  | (k', n) :: s' => if key_eqb k' k then Some n else lookup k s'
  end.

(** The node at a location; the root directory always exists. *)
Definition node_at (s : fs) (k : key) : option node :=
  match k with
  | [] => Some Dir
  | _ => lookup k s
  end.

(** Bind [k] to [n]: in place when [k] is bound, as the newest entry
    otherwise. *)
Fixpoint store (k : key) (n : node) (s : fs) : fs :=
  match s with
  | [] => [(k, n)]
  | (k', n') :: s' =>
      if key_eqb k' k then (k', n) :: s' else (k', n') :: store k n s'
  end.

(** [child_of d k] is the name [n] when [k] is the entry [n] of
    directory [d]. *)
Fixpoint child_of (d k : key) : option string :=
  match d, k with
  | [], [n] => Some n
  | x :: d', y :: k' => if String.eqb x y then child_of d' k' else None
  | _, _ => None
  end.

Fixpoint child_names (d : key) (s : fs) : list string :=
  match s with
  | [] => []
  | (k, _) :: s' =>
      match child_of d k with
      | Some n => n :: child_names d s'
      | None => child_names d s'
      end
  end.

(** The names in directory [d], each once. *)
Definition entries (d : key) (s : fs) : list string :=
  nodup string_dec (child_names d s).

(** Every name used in the file system is one an entry can have. *)
Definition names_valid (s : fs) : Prop :=
  forall k n c, In (k, n) s -> In c k -> valid_name c = true.

(** The same, as a test. *)
Definition names_validb (s : fs) : bool :=
  forallb (fun e => forallb valid_name (fst e)) s.

(** Every directory on the way from [done] down along [todo] is there. *)
Fixpoint dirs_along (s : fs) (done : key) (todo : list string) : Prop :=
  match todo with
  | [] => True
  | n :: rest =>
      lookup (done ++ [n])%list s = Some Dir
      /\ dirs_along s (done ++ [n])%list rest
  end.

Definition is_dir (o : option node) : bool :=
  match o with
  | Some Dir => true
  | _ => false
  end.

Definition is_some {A} (o : option A) : bool :=
  match o with
  | Some _ => true
  | None => false
  end.

End FS.
Import FS.

(* ================================================================= *)
(** ** Worlds, events and the monad of the program *)

(** The six numbers handed to the synthesis model, after [float(...)]. *)
Record ParameterSet : Type := mkParameterSet {
  repetitionPenalty : float;
  minP : float;
  topP : float;
  exaggeration : float;
  cfgWeight : float;
  temperature : float
}.

(** The keyword arguments of one [model.generate] call. *)
Record gen_args : Type := mkGenArgs {
  ga_text : string;
  ga_params : ParameterSet;
  ga_audio_prompt_path : option string
}.

(** A waveform tensor: the device it lives on and its samples. *)
Record tensor : Type := mkTensor {
  on_accelerator : bool;
  samples : list float
}.

(** What the program does to its surroundings, in the order it does it. *)
Inductive event : Type :=
| EvPrint (line : string)
| EvExists (p : string)
| EvIsdir (p : string)
| EvListdir (p : string)
| EvMakedirs (p : string)
| EvCopy2 (src dst : string)
| EvOpenRead (p : string)
| EvOpenWrite (p : string)
| EvTempFile (p : string)
| EvTaSave (p : string)
| EvGenerate (a : gen_args).

(** The state the program runs in.  [w_copy_fault], when set, makes the
    next file copy break off with an I/O error, leaving the given content
    in the destination. *)
Record world : Type := mkWorld {
  w_fs : fs;
  w_log : list event;
  w_copy_fault : option content
}.

Definition M (A : Type) : Type := world -> result A * world.

Definition ret {A} (a : A) : M A := fun w => (Ok a, w).

Definition raise {A} (e : exn) : M A := fun w => (Raise e, w).

Definition bind {A B} (c : M A) (k : A -> M B) : M B :=
  fun w =>
    match c w with
    | (Ok a, w') => k a w'
    | (Raise e, w') => (Raise e, w')
    end.

(** [try: body except Exception as e: handler(e)]. *)
Definition try_except {A} (body : M A) (handler : exn -> M A) : M A :=
  fun w =>
    match body w with
    | (Ok a, w') => (Ok a, w')
    | (Raise e, w') => handler e w'
    end.

Definition lift {A} (r : result A) : M A := fun w => (r, w).

(** A computation keeps a property of the file system when the property
    holds after every run from a state where it held, whether the run
    returns or raises. *)
Definition keeps {A} (Q : fs -> Prop) (c : M A) : Prop :=
  forall w r w', c w = (r, w') -> Q (w_fs w) -> Q (w_fs w').

(** [s'] is [s], or [s] with a regular file written at [k] where no
    directory was. *)
Definition wrote_at (k : key) (s s' : fs) : Prop :=
  s' = s \/ exists c, node_at s k <> Some Dir /\ s' = store k (File c) s.

Definition emit (e : event) : M unit :=
  fun w => (Ok tt, mkWorld (w_fs w) (w_log w ++ [e])%list (w_copy_fault w)).

Definition get_fs : M fs := fun w => (Ok (w_fs w), w).

Definition put_fs (s : fs) : M unit :=
  fun w => (Ok tt, mkWorld s (w_log w) (w_copy_fault w)).

Definition take_copy_fault : M (option content) :=
  fun w => (Ok (w_copy_fault w), mkWorld (w_fs w) (w_log w) None).

Notation "x <- c ;; k" := (bind c (fun x => k))
  (at level 61, c at next level, right associativity).
Notation "c ;;; k" := (bind c (fun _ => k))
  (at level 61, right associativity).

Definition os_error (cls : exn_class) (errno_text p : string) : exn :=
  mkExn cls (errno_text ++ ": '" ++ p ++ "'").

Definition enoent (p : string) : exn :=
  os_error FileNotFoundError "[Errno 2] No such file or directory" p.
Definition eexist (p : string) : exn :=
  os_error FileExistsError "[Errno 17] File exists" p.
Definition enotdir (p : string) : exn :=
  os_error NotADirectoryError "[Errno 20] Not a directory" p.
Definition eisdir (p : string) : exn :=
  os_error IsADirectoryError "[Errno 21] Is a directory" p.

(** [sorted] on a list of [str]: ascending by code points. *)
Module StrOrder <: Orders.TotalLeBool.
Definition t : Type := string.
Definition leb : t -> t -> bool := String.leb.
Lemma leb_total (x y : t) : leb x y = true \/ leb y x = true.
Proof. apply String.leb_total. Qed.
End StrOrder.

Module StrSort := Sort StrOrder.

Definition sorted (l : list string) : list string := StrSort.sort l.

(** What [load_persona] hands back: seven "leave as it is" updates, or
    the audio path and the six stored values. *)
Inductive load_result : Type :=
| NoUpdates
| Loaded (audio_path : string)
         (repetition_penalty min_p top_p exaggeration cfg_weight
            temperature : pyval).

(** What [save_persona] hands back: the refreshed dropdown (its choices
    and selected value) and the status line. *)
Record save_result : Type := mkSaved {
  sv_choices : list string;
  sv_value : string;
  sv_message : string
}.

(** The six slider values as an event handler receives them. *)
Record sliders : Type := mkSliders {
  s_repetition_penalty : pyval;
  s_min_p : pyval;
  s_top_p : pyval;
  s_exaggeration : pyval;
  s_cfg_weight : pyval;
  s_temperature : pyval
}.

(** The six sliders when each already holds a [float]. *)
Definition as_sliders (P : ParameterSet) : sliders :=
  mkSliders (PyFloat (repetitionPenalty P)) (PyFloat (minP P))
            (PyFloat (topP P)) (PyFloat (exaggeration P))
            (PyFloat (cfgWeight P)) (PyFloat (temperature P)).

(** The extension [save_persona] stores the audio under: the source's,
    or [".wav"] when the source has none. *)
Definition kept_ext (audio_prompt : string) : string :=
  let ext := snd (splitext audio_prompt) in
  if String.eqb ext "" then ".wav" else ext.

(** The file name [f"reference{ext}"]. *)
Definition reference (ext : string) : string := "reference" ++ ext.

(** The [config] dict literal of [save_persona]. *)
Definition config (P : ParameterSet) (ext : string) : pyval :=
  PyDict [ ("repetition_penalty", PyFloat (repetitionPenalty P));
           ("min_p", PyFloat (minP P));
           ("top_p", PyFloat (topP P));
           ("exaggeration", PyFloat (exaggeration P));
           ("cfg_weight", PyFloat (cfgWeight P));
           ("temperature", PyFloat (temperature P));
           ("audio_filename", PyStr (reference ext)) ].

(** The answer of [load_persona] that carries the six numbers of [P]. *)
Definition loaded_params (audio_path : string) (P : ParameterSet)
  : load_result :=
  Loaded audio_path
         (PyFloat (repetitionPenalty P)) (PyFloat (minP P))
         (PyFloat (topP P)) (PyFloat (exaggeration P))
         (PyFloat (cfgWeight P)) (PyFloat (temperature P)).

(** The keys of a persona's [config.json]. *)
Definition config_keys : list string :=
  ["repetition_penalty"; "min_p"; "top_p"; "exaggeration"; "cfg_weight";
   "temperature"; "audio_filename"].

(** The world [w] after the events [es]. *)
Definition logged (w : world) (es : list event) : world :=
  mkWorld (w_fs w) (w_log w ++ es)%list (w_copy_fault w).

(** The [model.generate] calls recorded in a log, oldest first. *)
Fixpoint invocations (log : list event) : list gen_args :=
  match log with
  | [] => []
  | EvGenerate a :: log' => a :: invocations log'
  | _ :: log' => invocations log'
  end.

(** The paths opened for writing in a log. *)
Fixpoint writes_opened (log : list event) : list string :=
  match log with
  | [] => []
  | EvOpenWrite p :: log' => p :: writes_opened log'
  | _ :: log' => writes_opened log'
  end.

Section App.

(** ** What the program takes from its surroundings *)

(** The text parser of [float(str)]. *)
Variable float_of_str : string -> option float.
(** [__file__], the path the module was loaded from. *)
Variable app_file : string.
(** The working directory of the process. *)
Variable cwd : key.
(** [model.generate]: the synthesis model, which may read the file
    system (the audio prompt) and may fail. *)
Variable model_generate : fs -> gen_args -> result tensor.
(** [model.sr]. *)
Variable model_sr : Z.
(** The bytes [torchaudio.save] writes for given samples and rate. *)
Variable wav_encode : list float -> Z -> string.
(** The fresh name [tempfile] picks for a given suffix. *)
Variable temp_name : fs -> string -> string.

(** ** Run-time primitives *)

(** The node a path string leads to; the empty path leads nowhere. *)
Definition at_path (s : fs) (p : string) : option node :=
  if String.eqb p "" then None else node_at s (resolve cwd p).

Definition os_path_exists (p : string) : M bool :=
  emit (EvExists p) ;;;
  s <- get_fs ;;
  ret (is_some (at_path s p)).

Definition os_path_isdir (p : string) : M bool :=
  emit (EvIsdir p) ;;;
  s <- get_fs ;;
  ret (is_dir (at_path s p)).

Definition os_listdir (p : string) : M (list string) :=
  emit (EvListdir p) ;;;
  s <- get_fs ;;
  match at_path s p with
  | Some Dir => ret (entries (resolve cwd p) s)
  | Some (File _) => raise (enotdir p)
  | None => raise (enoent p)
  end.

(** Create the directories along [todo] below [done] that are missing. *)
Fixpoint mkdirs (p : string) (done : key) (todo : list string) (s : fs)
  : result fs :=
  match todo with
  | [] => Ok s
  | n :: rest =>
      let k := (done ++ [n])%list in
      match lookup k s with
      | Some Dir => mkdirs p k rest s
      | Some (File _) =>
          Raise (match rest with [] => eexist p | _ => enotdir p end)
      | None => mkdirs p k rest (store k Dir s)
      end
  end.

(** [os.makedirs(p, exist_ok=True)]. *)
Definition os_makedirs (p : string) : M unit :=
  emit (EvMakedirs p) ;;;
  s <- get_fs ;;
  if String.eqb p "" then raise (enoent p)
  else
    s' <- lift (mkdirs p [] (resolve cwd p) s) ;;
    put_fs s'.

(** Create or replace the regular file at [p] with content [c]. *)
Definition write_node (p : string) (c : content) : M unit :=
  s <- get_fs ;;
  if String.eqb p "" then raise (enoent p)
  else
    let k := resolve cwd p in
    match node_at s k with
    | Some Dir => raise (eisdir p)
    | _ =>
        match node_at s (removelast k) with
        | Some Dir => put_fs (store k (File c) s)
        | Some (File _) => raise (enotdir p)
        | None => raise (enoent p)
        end
    end.

Definition same_file (s : fs) (a b : string) : bool :=
  is_some (at_path s a) && is_some (at_path s b)
  && key_eqb (resolve cwd a) (resolve cwd b).

(** The destination [shutil.copy2] settles on: a directory receives the
    file under the source's base name. *)
Definition copy_target (s : fs) (src dst : string) : string :=
  if is_dir (at_path s dst) then join dst (basename src) else dst.

(** [shutil.copy2(src, dst)]: copying a file onto itself is refused;
    otherwise the content goes to the target. *)
Definition shutil_copy2 (src dst : string) : M string :=
  emit (EvCopy2 src dst) ;;;
  s <- get_fs ;;
  let dst' := copy_target s src dst in
  if same_file s src dst'
  then raise (mkExn SameFileError
                ("'" ++ src ++ "' and '" ++ dst' ++ "' are the same file"))
  else
    match at_path s src with
    | None => raise (enoent src)
    | Some Dir => raise (eisdir src)
    | Some (File c) =>
        fault <- take_copy_fault ;;
        match fault with
        | Some damaged =>
            write_node dst' damaged ;;;
            raise (mkExn OSError "[Errno 5] Input/output error")
        | None =>
            write_node dst' c ;;;
            ret dst'
        end
    end.

(** [with open(p, "r") as f: json.load(f)].  The text of the decoding
    error depends on the offending bytes and is left out. *)
Definition json_load_file (p : string) : M pyval :=
  emit (EvOpenRead p) ;;;
  s <- get_fs ;;
  match at_path s p with
  | None => raise (enoent p)
  | Some Dir => raise (eisdir p)
  | Some (File (Json doc)) => ret doc
  | Some (File (Raw _)) => raise (mkExn JSONDecodeError "")
  end.

(** [with open(p, "w") as f: json.dump(doc, f, indent=2)]. *)
Definition json_dump_file (p : string) (doc : pyval) : M unit :=
  emit (EvOpenWrite p) ;;;
  write_node p (Json doc).

(** [config.get(key, default)] on whatever [json.load] returned. *)
Definition config_get (config : pyval) (key : string) (default : pyval)
  : M pyval :=
  match config with
  | PyDict d => ret (dict_get d key default)
  | v => raise (mkExn AttributeError
                  ("'" ++ type_name v ++ "' object has no attribute 'get'"))
  end.

(** [os.path.join(a, v)] for a value [v] that ought to be a [str]. *)
Definition join_value (a : string) (v : pyval) : M string :=
  match v with
  | PyStr b => ret (join a b)
  | _ => raise (mkExn TypeError
                  ("join() argument must be str, bytes, or os.PathLike object, not '"
                     ++ type_name v ++ "'"))
  end.

(** [tempfile.NamedTemporaryFile(delete=False, suffix=...)]: an empty
    file under a fresh name. *)
Definition named_temporary_file (suffix : string) : M string :=
  s <- get_fs ;;
  let p := temp_name s suffix in
  emit (EvTempFile p) ;;;
  if is_some (at_path s p) then raise (eexist p)
  else write_node p (Raw "") ;;; ret p.

(** [wav.cpu()]. *)
Definition cpu (t : tensor) : tensor := mkTensor false (samples t).

(** [ta.save(p, t, sr)]. *)
Definition ta_save (p : string) (t : tensor) (sr : Z) : M unit :=
  emit (EvTaSave p) ;;;
  write_node p (Raw (wav_encode (samples t) sr)).

Definition call_model_generate (a : gen_args) : M tensor :=
  emit (EvGenerate a) ;;;
  s <- get_fs ;;
  lift (model_generate s a).

Definition float_ (v : pyval) : M float := lift (py_float float_of_str v).

(** The six [float(...)] coercions, in the order both handlers evaluate
    them. *)
Definition float_all (k : sliders) : M ParameterSet :=
  repetition_penalty <- float_ (s_repetition_penalty k) ;;
  min_p <- float_ (s_min_p k) ;;
  top_p <- float_ (s_top_p k) ;;
  exaggeration <- float_ (s_exaggeration k) ;;
  cfg_weight <- float_ (s_cfg_weight k) ;;
  temperature <- float_ (s_temperature k) ;;
  ret (mkParameterSet repetition_penalty min_p top_p exaggeration
                      cfg_weight temperature).

(** ** The program *)

Definition PERSONAS_DIR : string := join (dirname app_file) "personas".

(** The statement run when the module is loaded:
    [os.makedirs(PERSONAS_DIR, exist_ok=True)]. *)
Definition module_init : M unit := os_makedirs PERSONAS_DIR.

(** The handlers take the event's inputs in the order [text],
    [audio_prompt], then the six sliders bundled as [k]. *)

Definition generate_audio (text : option string) (audio_prompt : option string)
           (k : sliders) : M string :=
  match text with
  | None | Some "" => raise (mkExn GrError "Please enter text to generate.")
  | Some text =>
      emit (EvPrint ("Generating for text: " ++ substring 0 50 text ++ "...")) ;;;
      try_except
        (P <- float_all k ;;
         wav <- call_model_generate (mkGenArgs text P audio_prompt) ;;
         temp_path <- named_temporary_file ".wav" ;;
         ta_save temp_path (cpu wav) model_sr ;;;
         ret temp_path)
        (fun e => raise (mkExn GrError ("Generation failed: " ++ exn_str e)))
  end.

(** The loop of [get_persona_list]: [personas] grows by the names that
    are directories. *)
Fixpoint collect_dirs (names personas : list string) : M (list string) :=
  match names with
  | [] => ret personas
  | name :: rest =>
      d <- os_path_isdir (join PERSONAS_DIR name) ;;
      collect_dirs rest (if d then (personas ++ [name])%list else personas)
  end.

Definition get_persona_list : M (list string) :=
  e <- os_path_exists PERSONAS_DIR ;;
  if e then
    names <- os_listdir PERSONAS_DIR ;;
    personas <- collect_dirs names [] ;;
    ret (sorted personas)
  else ret (sorted []).

Definition save_persona (name audio_prompt : option string) (k : sliders)
  : M save_result :=
  match name with
  | None | Some "" =>
      raise (mkExn GrError "Please enter a name for the persona.")
  | Some name =>
      match audio_prompt with
      | None | Some "" =>
          raise (mkExn GrError "Audio prompt is required to save a persona.")
      | Some audio_prompt =>
          let persona_path := join PERSONAS_DIR name in
          os_makedirs persona_path ;;;
          let ext := kept_ext audio_prompt in
          let saved_audio_path := join persona_path (reference ext) in
          shutil_copy2 audio_prompt saved_audio_path ;;;
          P <- float_all k ;;
          json_dump_file (join persona_path "config.json") (config P ext) ;;;
          choices <- get_persona_list ;;
          ret (mkSaved choices name "Persona saved!")
      end
  end.

Definition load_persona (name : option string) : M load_result :=
  match name with
  | None | Some "" => ret NoUpdates
  | Some name =>
      let persona_path := join PERSONAS_DIR name in
      let config_path := join persona_path "config.json" in
      e <- os_path_exists config_path ;;
      if negb e
      then raise (mkExn GrError ("Config not found for persona: " ++ name))
      else
        config <- json_load_file config_path ;;
        audio_filename <- config_get config "audio_filename"
                                     (PyStr "reference.wav") ;;
        audio_path <- join_value persona_path audio_filename ;;
        repetition_penalty <- config_get config "repetition_penalty"
                                         (PyFloat 1.2) ;;
        min_p <- config_get config "min_p" (PyFloat 0.05) ;;
        top_p <- config_get config "top_p" (PyFloat 1.0) ;;
        exaggeration <- config_get config "exaggeration" (PyFloat 0.5) ;;
        cfg_weight <- config_get config "cfg_weight" (PyFloat 0.5) ;;
        temperature <- config_get config "temperature" (PyFloat 0.8) ;;
        ret (Loaded audio_path repetition_penalty min_p top_p exaggeration
                    cfg_weight temperature)
  end.

Definition refresh_personas : M (list string) := get_persona_list.

End App.

(* ================================================================= *)
(** ** The sliders of the interface *)

Module UI.

(** A [gr.Slider] as the interface declares it. *)
Record slider : Type := mkSlider {
  minimum : float;
  maximum : float;
  value : float;
  step : float;
  label : string
}.

Definition repetition_penalty : slider :=
  mkSlider 1.0 2.0 1.2 0.05 "Repetition Penalty".
Definition min_p : slider := mkSlider 0.0 1.0 0.05 0.01 "Min P".
Definition top_p : slider := mkSlider 0.0 1.0 1.0 0.01 "Top P".
Definition exaggeration : slider := mkSlider 0.0 1.0 0.5 0.05 "Exaggeration".
Definition cfg_weight : slider := mkSlider 0.0 1.0 0.5 0.05 "CFG Weight".
Definition temperature : slider := mkSlider 0.1 2.0 0.8 0.05 "Temperature".



End UI.

(* ================================================================= *)
(** * A concrete installation

    One environment and a few worlds on which the program runs by
    computation; the theorems below are exercised on them. *)

Module Demo.

(** [float(str)] is never reached with these inputs. *)
Definition float_of_str (s : string) : option float := None.

Definition app_file : string := "/srv/chatterbox/app.py".

Definition cwd : key := ["srv"; "chatterbox"].

(** A model that needs its audio prompt, when it is given one, to be a
    file on disk. *)
Definition model_generate (s : fs) (a : gen_args) : result tensor :=
  match ga_audio_prompt_path a with
  | Some p =>
      match at_path cwd s p with
      | Some (File _) => Ok (mkTensor true [0.25%float; 0.5%float])
      | _ => Raise (enoent p)
      end
  | None => Ok (mkTensor true [0.25%float; 0.5%float])
  end.

Definition model_sr : Z := 24000.

Definition wav_encode (samples : list float) (sr : Z) : string := "RIFF".

Definition temp_name (s : fs) (suffix : string) : string :=
  "/tmp/tmp8x3k2q" ++ suffix.

Definition generate := generate_audio float_of_str cwd model_generate model_sr
                                      wav_encode temp_name.
Definition save := save_persona float_of_str app_file cwd.
Definition load := load_persona app_file cwd.
Definition persona_list := get_persona_list app_file cwd.

Definition voice : content := Raw "RIFF-voice-one".
Definition voice2 : content := Raw "ID3-voice-two".

(** A fresh installation: the root of personas is there and empty, and
    three audio clips lie in [/tmp]. *)
Definition fs0 : fs :=
  [ (["srv"], Dir);
    (["srv"; "chatterbox"], Dir);
    (["srv"; "chatterbox"; "personas"], Dir);
    (["tmp"], Dir);
    (["tmp"; "voice.wav"], File voice);
    (["tmp"; "voice2.mp3"], File voice2);
    (["tmp"; "voice2.wav"], File voice2) ].

Definition w0 : world := mkWorld fs0 [] None.

Definition P1 : ParameterSet := mkParameterSet 1.2 0.05 1.0 0.5 0.5 0.8.
Definition P2 : ParameterSet := mkParameterSet 1.5 0.1 0.9 0.7 0.3 1.1.

(** The world after persona ["X"] has been saved with [P1]. *)
Definition w1 : world :=
  snd (save (Some "X") (Some "/tmp/voice.wav") (as_sliders P1) w0).

(** The same world on a device that breaks the next copy off after a
    few bytes. *)
Definition w1_faulty : world :=
  mkWorld (w_fs w1) (w_log w1) (Some (Raw "ID3")).

(** A config record of an older save: two of the numbers, nothing else. *)
Definition old_record : list (string * pyval) :=
  [ ("temperature", PyFloat 0.6); ("top_p", PyFloat 0.95) ].

(** An installation with that older persona and a stray note next to
    it in the root. *)
Definition w_old : world :=
  mkWorld (fs0 ++ [ (["srv"; "chatterbox"; "personas"; "notes.txt"],
                     File (Raw "remember the milk"));
                    (["srv"; "chatterbox"; "personas"; "Old"], Dir);
                    (["srv"; "chatterbox"; "personas"; "Old"; "config.json"],
                     File (Json (PyDict old_record))) ])%list
          [] None.


(** The sliders with one of them cleared: [float(None)] is a
    [TypeError]. *)
Definition cleared_sliders : sliders :=
  mkSliders (PyFloat 1.2) PyNone (PyFloat 1.0)
            (PyFloat 0.5) (PyFloat 0.5) (PyFloat 0.8).

(** An installation where a regular file has taken the place of the
    root of the personas. *)
Definition w_blocked : world :=
  mkWorld [ (["srv"], Dir);
            (["srv"; "chatterbox"], Dir);
            (["srv"; "chatterbox"; "personas"], File (Raw "not a directory"));
            (["tmp"], Dir);
            (["tmp"; "voice.wav"], File voice) ]
          [] None.

(** An installation with personas that no save has written: a bare
    directory, a [config.json] holding a list, one whose
    [audio_filename] is an absolute path, and one holding the empty
    object. *)
Definition w_odd : world :=
  mkWorld (fs0 ++
           [ (["srv"; "chatterbox"; "personas"; "Bare"], Dir);
             (["srv"; "chatterbox"; "personas"; "List"], Dir);
             (["srv"; "chatterbox"; "personas"; "List"; "config.json"],
              File (Json (PyList [])));
             (["srv"; "chatterbox"; "personas"; "Far"], Dir);
             (["srv"; "chatterbox"; "personas"; "Far"; "config.json"],
              File (Json (PyDict [("audio_filename", PyStr "/tmp/voice.wav")])));
             (["srv"; "chatterbox"; "personas"; "Blank"], Dir);
             (["srv"; "chatterbox"; "personas"; "Blank"; "config.json"],
              File (Json (PyDict []))) ])%list
          [] None.

(** A text of more than fifty characters. *)
Definition long_text : string :=
  "The quick brown fox jumps over the lazy dog, and then the dog gets up.".

End Demo.

(* ================================================================= *)
(** * Properties *)

(** ** Strings and paths *)

Lemma mem_char_app (c : ascii) (a b : string) :
  mem_char c (a ++ b) = mem_char c a || mem_char c b.
Proof.
  induction a as [|x a IH]; simpl.
  - reflexivity.
  - rewrite IH. now rewrite orb_assoc.
Qed.

Lemma rsplit_char_none (c : ascii) (s : string) :
  rsplit_char c s = None -> mem_char c s = false.
Proof.
  induction s as [|a s IH]; simpl; [reflexivity|].
  destruct (rsplit_char c s) as [[l r]|]; [discriminate|].
  destruct (Ascii.eqb a c); [discriminate|].
  intros _. now apply IH.
Qed.

Lemma rsplit_char_some (c : ascii) (s l r : string) :
  rsplit_char c s = Some (l, r) ->
  s = l ++ String c r /\ mem_char c r = false.
Proof.
  revert l r. induction s as [|a s IH]; intros l r; simpl.
  - discriminate.
  - destruct (rsplit_char c s) as [[l' r']|] eqn:E.
    + intros [= <- <-]. destruct (IH _ _ eq_refl) as [-> Hr]. now split.
    + destruct (Ascii.eqb a c) eqn:Ea; [|discriminate].
      intros [= <- <-]. apply Ascii.eqb_eq in Ea. subst a.
      split; [reflexivity | now apply rsplit_char_none].
Qed.

Lemma span_char_rest (c : ascii) (s run rest : string) :
  span_char c s = (run, rest) -> s = run ++ rest.
Proof.
  revert run rest. induction s as [|a s IH]; simpl; intros run rest.
  - now intros [= <- <-].
  - destruct (Ascii.eqb a c).
    + destruct (span_char c s) as [run' rest'].
      intros [= <- <-]. simpl. f_equal. now apply IH.
    + now intros [= <- <-].
Qed.

(** The last path component holds no separator. *)
Lemma basename_no_sep (p : string) : mem_char sep (basename p) = false.
Proof.
  unfold basename. destruct (rsplit_char sep p) as [[l r]|] eqn:E.
  - now apply rsplit_char_some in E.
  - now apply rsplit_char_none.
Qed.

(** An extension never reaches across a separator. *)
Lemma splitext_ext_no_sep (p : string) :
  mem_char sep (snd (splitext p)) = false.
Proof.
  unfold splitext.
  assert (Hb : mem_char sep (basename p) = false) by apply basename_no_sep.
  unfold basename in Hb.
  destruct (rsplit_char sep p) as [[l r]|];
    (destruct (span_char extsep _) as [dots rest] eqn:Es;
     apply span_char_rest in Es; subst;
     rewrite mem_char_app in Hb; apply orb_false_iff in Hb as [_ Hb];
     destruct (rsplit_char extsep rest) as [[l' r']|] eqn:Er; simpl;
     [ apply rsplit_char_some in Er as [-> _];
       rewrite mem_char_app in Hb; apply orb_false_iff in Hb as [_ Hb];
       simpl in Hb; exact Hb
     | reflexivity ]).
Qed.

Lemma valid_name_spec (n : string) :
  valid_name n = true <->
  n <> "" /\ n <> "." /\ n <> ".." /\ mem_char sep n = false.
Proof.
  unfold valid_name.
  rewrite !andb_true_iff, !negb_true_iff, !String.eqb_neq.
  tauto.
Qed.

(** The name [save_persona] stores the audio under is a proper entry
    name, whatever the source path. *)
Lemma reference_name_valid (ext : string) :
  mem_char sep ext = false -> valid_name (reference ext) = true.
Proof.
  intros H. apply valid_name_spec. repeat split; try discriminate.
  simpl. exact H.
Qed.

Lemma split_from_app_sep (a b acc : string) :
  split_from acc (a ++ String sep b) =
  (split_from acc a ++ split_from "" b)%list.
Proof.
  revert acc. induction a as [|x a IH]; intros acc; simpl.
  - reflexivity.
  - destruct (Ascii.eqb x sep); simpl; now rewrite IH.
Qed.

Lemma split_from_no_sep (b acc : string) :
  mem_char sep b = false -> split_from acc b = [acc ++ b].
Proof.
  revert acc. induction b as [|x b IH]; intros acc; simpl.
  - intros _. f_equal. clear. induction acc; simpl; congruence.
  - intros H. apply orb_false_iff in H as [Hx Hb]. rewrite Hx.
    rewrite IH by assumption. f_equal.
    clear. induction acc; simpl; congruence.
Qed.

Lemma ends_with_sep_inv (a : string) :
  ends_with_sep a = true -> exists a0, a = a0 ++ String sep "".
Proof.
  induction a as [|x a IH]; simpl; [discriminate|].
  destruct a as [|y a'].
  - intros H. apply Ascii.eqb_eq in H. subst x. now exists "".
  - intros H. destruct (IH H) as [a0 E]. exists (String x a0).
    simpl. now rewrite <- E.
Qed.

Lemma starts_with_sep_app (a b : string) :
  a <> "" -> starts_with_sep (a ++ b) = starts_with_sep a.
Proof. destruct a; [congruence | reflexivity]. Qed.

Lemma no_sep_not_absolute (b : string) :
  mem_char sep b = false -> starts_with_sep b = false.
Proof.
  destruct b as [|x b]; simpl; [reflexivity|].
  intros H. now apply orb_false_iff in H.
Qed.

Lemma join_nonempty (a b : string) : b <> "" -> join a b <> "".
Proof.
  unfold join. intros Hb.
  destruct (starts_with_sep b); [assumption|].
  destruct (String.eqb a "" || ends_with_sep a)%bool;
    destruct a; simpl; congruence.
Qed.

Lemma string_app_assoc (a b c : string) : (a ++ b) ++ c = a ++ (b ++ c).
Proof. induction a; simpl; congruence. Qed.

Section Paths.

Variable cwd : key.

(** Joining a separator-free name onto a path moves one [step] from where
    the path leads. *)
Lemma resolve_join (a b : string) :
  a <> "" -> mem_char sep b = false ->
  resolve cwd (join a b) = step (resolve cwd a) b.
Proof.
  intros Ha Hb. unfold join, resolve, components.
  rewrite (no_sep_not_absolute b Hb).
  apply String.eqb_neq in Ha as Ha'. rewrite Ha'. simpl orb.
  destruct (ends_with_sep a) eqn:Ee.
  - destruct (ends_with_sep_inv a Ee) as [a0 ->].
    assert (Hs : starts_with_sep (a0 ++ String sep b) =
                 starts_with_sep (a0 ++ String sep ""))
      by (destruct a0; reflexivity).
    rewrite string_app_assoc.
    change (String sep "" ++ b) with (String sep b). rewrite Hs.
    rewrite !split_from_app_sep, !fold_left_app.
    rewrite (split_from_no_sep b "" Hb). simpl.
    reflexivity.
  - rewrite starts_with_sep_app by assumption.
    rewrite split_from_app_sep, fold_left_app.
    rewrite (split_from_no_sep b "" Hb). reflexivity.
Qed.

Lemma step_valid_name (k : key) (n : string) :
  valid_name n = true -> step k n = (k ++ [n])%list.
Proof.
  intros H. apply valid_name_spec in H as (H1 & H2 & H3 & _).
  unfold step.
  apply String.eqb_neq in H1, H2, H3. now rewrite H1, H2, H3.
Qed.

Lemma resolve_join_name (a n : string) :
  a <> "" -> valid_name n = true ->
  resolve cwd (join a n) = (resolve cwd a ++ [n])%list.
Proof.
  intros Ha Hn. rewrite resolve_join; [now apply step_valid_name | assumption |].
  now apply valid_name_spec in Hn.
Qed.

End Paths.

(** ** The file system *)

Lemma key_eqb_eq (a b : key) : key_eqb a b = true <-> a = b.
Proof.
  revert b. induction a as [|x a IH]; intros [|y b]; simpl;
    try (split; congruence).
  rewrite andb_true_iff, String.eqb_eq, IH. split.
  - now intros [-> ->].
  - now intros [= -> ->].
Qed.

Lemma key_eqb_refl (a : key) : key_eqb a a = true.
Proof. now apply key_eqb_eq. Qed.

Lemma key_eqb_neq (a b : key) : key_eqb a b = false <-> a <> b.
Proof.
  rewrite <- key_eqb_eq. destruct (key_eqb a b); split; congruence.
Qed.

Lemma lookup_store_same (k : key) (n : node) (s : fs) :
  lookup k (store k n s) = Some n.
Proof.
  induction s as [|[k' n'] s IH]; simpl.
  - now rewrite key_eqb_refl.
  - destruct (key_eqb k' k) eqn:E; simpl; now rewrite E.
Qed.

Lemma lookup_store_other (k k0 : key) (n : node) (s : fs) :
  k <> k0 -> lookup k0 (store k n s) = lookup k0 s.
Proof.
  intros Hne. induction s as [|[k' n'] s IH]; simpl.
  - apply key_eqb_neq in Hne. now rewrite Hne.
  - destruct (key_eqb k' k) eqn:E; simpl.
    + apply key_eqb_eq in E. subst k'.
      apply key_eqb_neq in Hne. now rewrite Hne.
    + now rewrite IH.
Qed.

Lemma node_at_store_same (k : key) (c : content) (s : fs) :
  k <> [] -> node_at (store k (File c) s) k = Some (File c).
Proof.
  destruct k; [congruence|]. intros _. apply lookup_store_same.
Qed.

Lemma node_at_store_other (k k0 : key) (n : node) (s : fs) :
  k <> k0 -> node_at (store k n s) k0 = node_at s k0.
Proof.
  intros H. destruct k0; [reflexivity|]. now apply lookup_store_other.
Qed.

Lemma child_of_spec (d k : key) (n : string) :
  child_of d k = Some n <-> k = (d ++ [n])%list.
Proof.
  revert k. induction d as [|x d IH]; intros k; simpl.
  - destruct k as [|y [|z k]]; split; try congruence.
  - destruct k as [|y k]; [split; congruence|].
    destruct (String.eqb x y) eqn:E.
    + apply String.eqb_eq in E. subst y. rewrite IH. split; congruence.
    + apply String.eqb_neq in E. split; congruence.
Qed.

Lemma lookup_some_In (k : key) (s : fs) :
  lookup k s <> None <-> exists n, In (k, n) s.
Proof.
  induction s as [|[k' n'] s IH]; simpl.
  - split; [congruence | now intros [? []]].
  - destruct (key_eqb k' k) eqn:E.
    + apply key_eqb_eq in E. subst k'. split; [|congruence].
      intros _. exists n'. now left.
    + rewrite IH. apply key_eqb_neq in E.
      split; intros [n H]; exists n; [now right|].
      destruct H as [H|H]; [congruence | assumption].
Qed.

Lemma In_child_names (d : key) (s : fs) (n : string) :
  In n (child_names d s) <-> lookup (d ++ [n])%list s <> None.
Proof.
  rewrite lookup_some_In.
  induction s as [|[k nd] s IH]; simpl.
  - split; [tauto | now intros [? []]].
  - destruct (child_of d k) as [m|] eqn:E.
    + apply child_of_spec in E. subst k. simpl. rewrite IH. split.
      * intros [->|[x H]]; [exists nd; now left | exists x; now right].
      * intros [x [H|H]].
        -- left. injection H as H _. now apply app_inj_tail in H.
        -- right. now exists x.
    + rewrite IH. split; intros [x H]; exists x; [now right|].
      destruct H as [H|H]; [|assumption].
      injection H as H _. subst k.
      assert (child_of d (d ++ [n])%list = Some n) by now apply child_of_spec.
      congruence.
Qed.

(** [os.listdir] reports a name exactly when an entry of that name is in
    the directory, and reports it once. *)
Lemma In_entries (d : key) (s : fs) (n : string) :
  In n (entries d s) <-> lookup (d ++ [n])%list s <> None.
Proof. unfold entries. rewrite nodup_In. apply In_child_names. Qed.

Lemma names_validb_spec (s : fs) : names_validb s = true -> names_valid s.
Proof.
  unfold names_validb, names_valid. rewrite forallb_forall.
  intros H k n c Hin Hc. specialize (H _ Hin). simpl in H.
  rewrite forallb_forall in H. now apply H.
Qed.

Lemma NoDup_entries (d : key) (s : fs) : NoDup (entries d s).
Proof. apply NoDup_nodup. Qed.

Lemma entries_valid (d : key) (s : fs) (n : string) :
  names_valid s -> In n (entries d s) -> valid_name n = true.
Proof.
  intros Hv Hn. apply In_entries, lookup_some_In in Hn as [nd Hin].
  apply (Hv _ _ n Hin). apply in_or_app. right. now left.
Qed.

Section Mkdirs.

Variable cwd : key.
Variable p : string.

Lemma mkdirs_mono (todo : list string) :
  forall done s s', mkdirs p done todo s = Ok s' ->
  forall k, lookup k s' = lookup k s
            \/ (lookup k s = None /\ lookup k s' = Some Dir).
Proof.
  induction todo as [|n rest IH]; intros done s s'; simpl.
  - intros [= <-] k. now left.
  - destruct (lookup (done ++ [n])%list s) as [[|c]|] eqn:E.
    + apply IH.
    + discriminate.
    + intros H k. destruct (IH _ _ _ H k) as [H1|[H1 H2]].
      * destruct (list_eq_dec string_dec (done ++ [n])%list k) as [<-|Hne].
        -- right. rewrite H1, lookup_store_same. now split.
        -- left. now rewrite H1, lookup_store_other.
      * destruct (list_eq_dec string_dec (done ++ [n])%list k) as [<-|Hne].
        -- rewrite lookup_store_same in H1. discriminate.
        -- right. rewrite lookup_store_other in H1 by assumption. now split.
Qed.

Lemma mkdirs_keeps (todo : list string) (done : key) (s s' : fs)
      (k : key) (n : node) :
  mkdirs p done todo s = Ok s' -> lookup k s = Some n -> lookup k s' = Some n.
Proof.
  intros H Hk. destruct (mkdirs_mono _ _ _ _ H k) as [E|[E _]]; congruence.
Qed.

Lemma mkdirs_longer (todo : list string) :
  forall done s s' k, mkdirs p done todo s = Ok s' ->
  length (done ++ todo)%list < length k -> lookup k s' = lookup k s.
Proof.
  induction todo as [|n rest IH]; intros done s s' k; simpl.
  - now intros [= <-].
  - replace (done ++ n :: rest)%list with ((done ++ [n]) ++ rest)%list
      by now rewrite <- app_assoc.
    destruct (lookup (done ++ [n])%list s) as [[|c]|] eqn:E.
    + apply IH.
    + discriminate.
    + intros H Hlen. rewrite (IH _ _ _ _ H Hlen).
      apply lookup_store_other. intros <-.
      rewrite length_app in Hlen. lia.
Qed.

Lemma mkdirs_dirs_along (todo : list string) :
  forall done s s', mkdirs p done todo s = Ok s' -> dirs_along s' done todo.
Proof.
  induction todo as [|n rest IH]; intros done s s'; simpl.
  - trivial.
  - destruct (lookup (done ++ [n])%list s) as [[|c]|] eqn:E.
    + intros H. split; [|now apply IH in H].
      now apply (mkdirs_keeps _ _ _ _ _ _ H).
    + discriminate.
    + intros H. split; [|now apply IH in H].
      apply (mkdirs_keeps _ _ _ _ _ _ H), lookup_store_same.
Qed.

Lemma dirs_along_mkdirs (todo : list string) :
  forall done s, dirs_along s done todo -> mkdirs p done todo s = Ok s.
Proof.
  induction todo as [|n rest IH]; intros done s; simpl.
  - reflexivity.
  - intros [H1 H2]. rewrite H1. now apply IH.
Qed.

Lemma dirs_along_target (todo : list string) :
  forall done s, node_at s done = Some Dir -> dirs_along s done todo ->
  node_at s (done ++ todo)%list = Some Dir.
Proof.
  induction todo as [|n rest IH]; intros done s Hd; simpl.
  - now rewrite app_nil_r.
  - intros [H1 H2].
    replace (done ++ n :: rest)%list with ((done ++ [n]) ++ rest)%list
      by now rewrite <- app_assoc.
    apply IH; [|assumption].
    destruct done; exact H1.
Qed.

End Mkdirs.

(** ** Names stay valid

    Every location the program creates comes out of [resolve], so a file
    system whose names are valid stays so under every function of the
    program, whether it returns or raises. *)

Lemma split_from_components_no_sep (s : string) :
  forall acc, mem_char sep acc = false ->
  Forall (fun c => mem_char sep c = false) (split_from acc s).
Proof.
  induction s as [|a s IH]; intros acc Hacc; simpl.
  - now constructor.
  - destruct (Ascii.eqb a sep) eqn:Ea.
    + constructor; [assumption | now apply IH].
    + apply IH. rewrite mem_char_app. simpl. now rewrite Hacc, Ea.
Qed.

Lemma Forall_removelast {A} (Q : A -> Prop) (l : list A) :
  Forall Q l -> Forall Q (removelast l).
Proof.
  induction 1 as [|x l Hx Hl IH]; simpl; [constructor|].
  destruct l; [constructor | now constructor].
Qed.

Lemma step_names_valid (k : key) (c : string) :
  Forall (fun n => valid_name n = true) k ->
  mem_char sep c = false ->
  Forall (fun n => valid_name n = true) (step k c).
Proof.
  intros Hk Hc. unfold step.
  destruct (String.eqb c "") eqn:E1; [assumption|].
  destruct (String.eqb c ".") eqn:E2; [assumption|]. simpl.
  destruct (String.eqb c "..") eqn:E3; [now apply Forall_removelast|].
  apply Forall_app. split; [assumption|]. constructor; [|constructor].
  unfold valid_name. now rewrite E1, E2, E3, Hc.
Qed.

Lemma resolve_names_valid (cwd : key) (p : string) :
  Forall (fun n => valid_name n = true) cwd ->
  Forall (fun n => valid_name n = true) (resolve cwd p).
Proof.
  intros Hcwd. unfold resolve, components.
  assert (Hinit : Forall (fun n => valid_name n = true)
                         (if starts_with_sep p then [] else cwd))
    by (destruct (starts_with_sep p); [constructor | assumption]).
  pose proof (split_from_components_no_sep p "" eq_refl) as Hcs.
  revert Hinit. generalize (if starts_with_sep p then [] else cwd).
  induction Hcs as [|c cs Hc Hcs IH]; intros k Hk; simpl; [assumption|].
  apply IH. now apply step_names_valid.
Qed.

Lemma store_names_valid (k : key) (n : node) (s : fs) :
  Forall (fun c => valid_name c = true) k ->
  names_valid s -> names_valid (store k n s).
Proof.
  intros Hk Hs. induction s as [|[k0 n0] s IH]; simpl.
  - intros k' n' c [[= <- <-]|[]] Hc. rewrite Forall_forall in Hk. now apply Hk.
  - assert (Hs' : names_valid s).
    { intros k' n' c Hin. apply (Hs k' n' c). now right. }
    destruct (key_eqb k0 k).
    + intros k' n' c [[= <- <-]|Hin] Hc.
      * apply (Hs k0 n0 c); [now left | assumption].
      * apply (Hs k' n' c); [now right | assumption].
    + intros k' n' c [[= <- <-]|Hin] Hc.
      * apply (Hs k0 n0 c); [now left | assumption].
      * apply (IH Hs' k' n' c); assumption.
Qed.

Lemma mkdirs_names_valid (p : string) (todo : list string) :
  forall done s s',
  Forall (fun c => valid_name c = true) (done ++ todo) ->
  mkdirs p done todo s = Ok s' ->
  names_valid s -> names_valid s'.
Proof.
  induction todo as [|n rest IH]; intros done s s' Hk; simpl.
  - now intros [= <-].
  - assert (Hk' : Forall (fun c => valid_name c = true) ((done ++ [n]) ++ rest))
      by now rewrite <- app_assoc.
    assert (Hpre : Forall (fun c => valid_name c = true) (done ++ [n])%list).
    { apply Forall_app in Hk' as [H _]. exact H. }
    destruct (lookup (done ++ [n])%list s) as [[|c]|].
    + now apply IH.
    + discriminate.
    + intros Hmk Hs. apply (IH _ _ _ Hk' Hmk). now apply store_names_valid.
Qed.

(* ================================================================= *)
(** ** The program *)

Lemma invocations_app (l1 l2 : list event) :
  invocations (l1 ++ l2) = (invocations l1 ++ invocations l2)%list.
Proof.
  induction l1 as [|e l1 IH]; simpl; [reflexivity|].
  destruct e; simpl; now rewrite ?IH.
Qed.

Lemma writes_opened_app (l1 l2 : list event) :
  writes_opened (l1 ++ l2) = (writes_opened l1 ++ writes_opened l2)%list.
Proof.
  induction l1 as [|e l1 IH]; simpl; [reflexivity|].
  destruct e; simpl; now rewrite ?IH.
Qed.



Set Warnings "-notation-for-abbreviation".
Arguments join : simpl never.
Arguments resolve : simpl never.
Arguments at_path : simpl never.
Arguments substring : simpl never.
Arguments append : simpl never.

(** Case analysis on an innermost [match] scrutinee of the goal. *)
Ltac case_scrutinee :=
  match goal with
  | |- context [match ?x with _ => _ end] =>
      lazymatch x with
      | context [match _ with _ => _ end] => fail
      | _ => destruct x eqn:?; simpl
      end
  end.

Section Properties.

Variable float_of_str : string -> option float.
Variable app_file : string.
Variable cwd : key.
Variable model_generate : fs -> gen_args -> result tensor.
Variable model_sr : Z.
Variable wav_encode : list float -> Z -> string.
Variable temp_name : fs -> string -> string.

Local Notation ROOT := (PERSONAS_DIR app_file).
Local Notation persona_dir name := (join (PERSONAS_DIR app_file) name).
Local Notation config_json name :=
  (join (join (PERSONAS_DIR app_file) name) "config.json").
Local Notation load := (load_persona app_file cwd).
Local Notation save := (save_persona float_of_str app_file cwd).
Local Notation persona_list := (get_persona_list app_file cwd).
Local Notation generate :=
  (generate_audio float_of_str cwd model_generate model_sr wav_encode temp_name).
Local Notation node_of s p := (at_path cwd s p).

Lemma float_all_as_sliders (P : ParameterSet) (w : world) :
  float_all float_of_str (as_sliders P) w = (Ok P, w).
Proof. destruct P. reflexivity. Qed.

(** *** Loading *)

(** C8.  [load_persona] called without a selection ([None] or the empty
    name) returns the "no updates" answer and leaves the world as it was:
    nothing is looked up, nothing is logged, nothing is raised. *)
Theorem load_persona_no_selection (name : option string) (w : world) :
  falsy name = true ->
  load name w = (Ok NoUpdates, w).
Proof.
  destruct name as [[|a s]|]; simpl.
  - reflexivity.
  - discriminate.
  - reflexivity.
Qed.

Lemma os_path_exists_run (p : string) (w : world) :
  os_path_exists cwd p w =
  (Ok (is_some (node_of (w_fs w) p)), logged w [EvExists p]).
Proof. reflexivity. Qed.

Lemma load_persona_unfold (a : ascii) (n : string) (w : world) :
  let name := String a n in
  load (Some name) w =
  match node_of (w_fs w) (config_json name) with
  | None =>
      (Raise (mkExn GrError ("Config not found for persona: " ++ name)),
       logged w [EvExists (config_json name)])
  | Some nd =>
      let w' := logged w [EvExists (config_json name);
                          EvOpenRead (config_json name)] in
      match nd with
      | Dir => (Raise (eisdir (config_json name)), w')
      | File (Raw _) => (Raise (mkExn JSONDecodeError ""), w')
      | File (Json doc) =>
          (audio_filename <- config_get doc "audio_filename"
                                        (PyStr "reference.wav") ;;
           audio_path <- join_value (persona_dir name) audio_filename ;;
           repetition_penalty <- config_get doc "repetition_penalty"
                                            (PyFloat 1.2) ;;
           min_p <- config_get doc "min_p" (PyFloat 0.05) ;;
           top_p <- config_get doc "top_p" (PyFloat 1.0) ;;
           exaggeration <- config_get doc "exaggeration" (PyFloat 0.5) ;;
           cfg_weight <- config_get doc "cfg_weight" (PyFloat 0.5) ;;
           temperature <- config_get doc "temperature" (PyFloat 0.8) ;;
           ret (Loaded audio_path repetition_penalty min_p top_p exaggeration
                       cfg_weight temperature)) w'
      end
  end.
Proof.
  intros name. unfold load_persona. fold name.
  unfold name at 1. cbv iota. unfold bind at 1.
  rewrite os_path_exists_run.
  destruct (node_of (w_fs w) (config_json name)) as [nd|] eqn:E; simpl.
  - unfold bind at 1. unfold json_load_file, bind, emit, get_fs. simpl.
    unfold logged. simpl. rewrite <- app_assoc. simpl.
    rewrite E. destruct nd as [|[b|doc]]; reflexivity.
  - reflexivity.
Qed.



(** *** Generating *)

Lemma generate_audio_unfold (a : ascii) (t : string) (audio : option string)
      (P : ParameterSet) (w : world) :
  let text := String a t in
  let args := mkGenArgs text P audio in
  let w1 := logged w [EvPrint ("Generating for text: "
                                 ++ substring 0 50 text ++ "...");
                      EvGenerate args] in
  generate (Some text) audio (as_sliders P) w =
  match model_generate (w_fs w) args with
  | Raise e => (Raise (mkExn GrError ("Generation failed: " ++ exn_str e)), w1)
  | Ok wav =>
      try_except
        (temp_path <- named_temporary_file cwd temp_name ".wav" ;;
         ta_save cwd wav_encode temp_path (cpu wav) model_sr ;;;
         ret temp_path)
        (fun e => raise (mkExn GrError ("Generation failed: " ++ exn_str e)))
        w1
  end.
Proof.
  intros text args w1. subst text args w1. destruct P.
  unfold generate_audio, try_except, bind, float_all, float_, lift, emit,
    call_model_generate, get_fs, ret, raise, as_sliders, logged.
  simpl. rewrite <- !app_assoc. simpl.

  destruct (model_generate _ _) as [wav|e]; reflexivity.
Qed.



(** C6.  When [model.generate] raises [e], [generate_audio] raises a
    [gr.Error] whose text is "Generation failed: " followed by [str(e)].
    The model has been called once, with no second attempt, and the file
    system is untouched. *)
Theorem generate_audio_wraps_failure (text : string) (audio : option string)
        (P : ParameterSet) (e : exn) (w : world) :
  text <> "" ->
  model_generate (w_fs w) (mkGenArgs text P audio) = Raise e ->
  exists w',
    generate (Some text) audio (as_sliders P) w =
    (Raise (mkExn GrError ("Generation failed: " ++ exn_str e)), w')
    /\ invocations (w_log w') =
       (invocations (w_log w) ++ [mkGenArgs text P audio])%list
    /\ w_fs w' = w_fs w.
Proof.
  intros Ht He. destruct text as [|a t]; [congruence|].
  eexists. rewrite generate_audio_unfold. cbv zeta. rewrite He.
  split; [reflexivity|]. split; [|reflexivity].
  unfold logged; simpl. rewrite invocations_app. reflexivity.
Qed.


(** *** Listing *)

Lemma collect_dirs_run (names : list string) :
  forall (acc : list string) (w : world),
  collect_dirs app_file cwd names acc w =
  (Ok (acc ++ filter (fun n => is_dir (node_of (w_fs w) (join ROOT n))) names)%list,
   logged w (map (fun n => EvIsdir (join ROOT n)) names)).
Proof.
  induction names as [|n names IH]; intros acc w.
  - simpl. unfold ret, logged. rewrite !app_nil_r. now destruct w.
  - simpl collect_dirs. unfold bind at 1.
    unfold os_path_isdir, bind, emit, get_fs, ret. simpl.
    rewrite IH. simpl. unfold logged. simpl.
    rewrite <- !app_assoc. simpl.
    destruct (is_dir (node_of (w_fs w) (join ROOT n)));
      [rewrite <- app_assoc|]; reflexivity.
Qed.

(** What [get_persona_list] does, by the state of the root. *)
Lemma get_persona_list_run (w : world) :
  persona_list w =
  match node_of (w_fs w) ROOT with
  | None => (Ok [], logged w [EvExists ROOT])
  | Some (File _) =>
      (Raise (enotdir ROOT), logged w [EvExists ROOT; EvListdir ROOT])
  | Some Dir =>
      let names := entries (resolve cwd ROOT) (w_fs w) in
      (Ok (sorted (filter (fun n => is_dir (node_of (w_fs w) (join ROOT n)))
                          names)),
       logged w ([EvExists ROOT; EvListdir ROOT]
                   ++ map (fun n => EvIsdir (join ROOT n)) names))
  end.
Proof.
  unfold get_persona_list. unfold bind at 1. rewrite os_path_exists_run.
  destruct (node_of (w_fs w) ROOT) as [[|c]|] eqn:E; simpl is_some; cbv iota.
  - unfold bind at 1. unfold os_listdir, bind, emit, get_fs. simpl.
    rewrite E. unfold ret at 1. cbv iota.
    rewrite collect_dirs_run. simpl. unfold ret, logged. simpl.
    rewrite <- !app_assoc. reflexivity.
  - unfold bind at 1. unfold os_listdir, bind, emit, get_fs. simpl.
    rewrite E. unfold raise, logged. simpl. rewrite <- !app_assoc.
    reflexivity.
  - reflexivity.
Qed.

Lemma leb_trans (a b c : string) :
  String.leb a b = true -> String.leb b c = true -> String.leb a c = true.
Proof.
  unfold String.leb.
  destruct (String.compare a b) eqn:Eab; try discriminate;
    destruct (String.compare b c) eqn:Ebc; try discriminate; intros _ _.
  - apply String.compare_eq_iff in Eab. subst b. now rewrite Ebc.
  - apply String.compare_eq_iff in Eab. subst b. now rewrite Ebc.
  - apply String.compare_eq_iff in Ebc. subst c. now rewrite Eab.
  - apply String_as_OT.cmp_lt in Eab, Ebc.
    pose proof (String_as_OT.lt_trans _ _ _ Eab Ebc) as H.
    apply String_as_OT.cmp_lt in H. unfold String_as_OT.cmp in H.
    now rewrite H.
Qed.

(** A list that is ascending and repetition-free is determined by its
    elements. *)
Lemma ascending_unique (l1 : list string) :
  forall l2,
  StronglySorted (fun a b => String.leb a b = true) l1 ->
  StronglySorted (fun a b => String.leb a b = true) l2 ->
  NoDup l1 -> NoDup l2 ->
  (forall x, In x l1 <-> In x l2) ->
  l1 = l2.
Proof.
  induction l1 as [|x l1 IH]; intros [|y l2] S1 S2 N1 N2 Hin.
  - reflexivity.
  - exfalso. apply (proj2 (Hin y)). now left.
  - exfalso. apply (proj1 (Hin x)). now left.
  - inversion S1 as [|? ? S1' F1]; subst.
    inversion S2 as [|? ? S2' F2]; subst.
    inversion N1 as [|? ? Nx N1']; subst.
    inversion N2 as [|? ? Ny N2']; subst.
    rewrite Forall_forall in F1, F2.
    assert (x = y) as <-.
    { destruct (proj1 (Hin x) (or_introl eq_refl)) as [E|Hx]; [now symmetry|].
      destruct (proj2 (Hin y) (or_introl eq_refl)) as [E|Hy]; [assumption|].
      apply String.leb_antisym; [now apply F1 | now apply F2]. }
    f_equal. apply IH; try assumption.
    intros z. split; intros Hz.
    + destruct (proj1 (Hin z) (or_intror Hz)) as [E|H]; [congruence | assumption].
    + destruct (proj2 (Hin z) (or_intror Hz)) as [E|H]; [congruence | assumption].
Qed.

Lemma sorted_spec (l : list string) :
  StronglySorted (fun a b => String.leb a b = true) (sorted l)
  /\ Permutation l (sorted l).
Proof.
  split.
  - apply StrSort.StronglySorted_sort.
    intros a b c. unfold is_true, StrOrder.leb. apply leb_trans.
  - apply StrSort.Permuted_sort.
Qed.

Lemma PERSONAS_DIR_nonempty : ROOT <> "".
Proof. unfold PERSONAS_DIR. now apply join_nonempty. Qed.

Lemma persona_dir_nonempty (name : string) : name <> "" -> persona_dir name <> "".
Proof. apply join_nonempty. Qed.

(** An entry [n] of the root, reached through [os.path.join]. *)
Lemma node_of_root_entry (s : fs) (n : string) :
  valid_name n = true ->
  node_of s (join ROOT n) = lookup (resolve cwd ROOT ++ [n])%list s.
Proof.
  intros Hn. unfold at_path.
  assert (Hne : join ROOT n <> "").
  { apply join_nonempty. now apply valid_name_spec in Hn. }
  apply String.eqb_neq in Hne. rewrite Hne.
  rewrite resolve_join_name by (assumption || apply PERSONAS_DIR_nonempty).
  unfold node_at. now destruct (resolve cwd ROOT).
Qed.

(** The list [get_persona_list] computes over a directory root: its
    members, and its order. *)
Lemma listed_dirs_spec (s : fs) :
  names_valid s ->
  let l := sorted (filter (fun n => is_dir (node_of s (join ROOT n)))
                          (entries (resolve cwd ROOT) s)) in
  (forall n, In n l <-> lookup (resolve cwd ROOT ++ [n])%list s = Some Dir)
  /\ NoDup l
  /\ StronglySorted (fun a b => String.leb a b = true) l.
Proof.
  intros Hvalid l. subst l.
  set (names := entries (resolve cwd ROOT) s).
  set (dirs := filter _ names).
  destruct (sorted_spec dirs) as [Hsorted Hperm].
  assert (Hdirs : forall n, In n dirs <->
            lookup (resolve cwd ROOT ++ [n])%list s = Some Dir).
  { intros n. unfold dirs. rewrite filter_In. split.
    - intros [Hin Hd].
      rewrite node_of_root_entry in Hd
        by now apply (entries_valid _ _ _ Hvalid Hin).
      destruct (lookup _ _) as [[|?]|]; [reflexivity | discriminate..].
    - intros Hd.
      assert (Hin : In n names) by (apply In_entries; congruence).
      split; [assumption|].
      rewrite node_of_root_entry by now apply (entries_valid _ _ _ Hvalid Hin).
      now rewrite Hd. }
  split; [|split].
  - intros n. rewrite <- Hdirs. split; intros Hn.
    + now apply (Permutation_in _ (Permutation_sym Hperm)).
    + now apply (Permutation_in _ Hperm).
  - apply (Permutation_NoDup Hperm). apply NoDup_filter, NoDup_entries.
  - exact Hsorted.
Qed.

(** Roots holding the same directories are listed alike, whatever the
    order their entries were created in. *)
Lemma listed_dirs_same (s1 s2 : fs) :
  names_valid s1 -> names_valid s2 ->
  (forall n, lookup (resolve cwd ROOT ++ [n])%list s1 = Some Dir <->
             lookup (resolve cwd ROOT ++ [n])%list s2 = Some Dir) ->
  sorted (filter (fun n => is_dir (node_of s1 (join ROOT n)))
                 (entries (resolve cwd ROOT) s1)) =
  sorted (filter (fun n => is_dir (node_of s2 (join ROOT n)))
                 (entries (resolve cwd ROOT) s2)).
Proof.
  intros V1 V2 Hsame.
  destruct (listed_dirs_spec s1 V1) as (M1 & N1 & S1).
  destruct (listed_dirs_spec s2 V2) as (M2 & N2 & S2).
  apply ascending_unique; try assumption.
  intros x. now rewrite M1, M2.
Qed.

(** C3.  In a file system whose root of personas is a directory or is
    missing, [get_persona_list] returns without raising and without
    changing any file; the list holds exactly the entries of the root
    that are directories, each once, in ascending order; it is empty when
    the root is missing or has no entry; and any other state of the root
    with the same directories, in whatever order they were created,
    gives the same list. *)
Theorem get_persona_list_spec (w : world) :
  names_valid (w_fs w) ->
  (forall c, node_of (w_fs w) ROOT <> Some (File c)) ->
  exists l w',
    persona_list w = (Ok l, w')
    /\ w_fs w' = w_fs w
    /\ (forall n, In n l <->
                  node_of (w_fs w) ROOT = Some Dir
                  /\ lookup (resolve cwd ROOT ++ [n])%list (w_fs w) = Some Dir)
    /\ NoDup l
    /\ StronglySorted (fun a b => String.leb a b = true) l
    /\ (node_of (w_fs w) ROOT = None
        \/ entries (resolve cwd ROOT) (w_fs w) = [] -> l = [])
    /\ (forall w2,
          names_valid (w_fs w2) ->
          node_of (w_fs w2) ROOT = node_of (w_fs w) ROOT ->
          (forall n,
              lookup (resolve cwd ROOT ++ [n])%list (w_fs w2) = Some Dir <->
              lookup (resolve cwd ROOT ++ [n])%list (w_fs w) = Some Dir) ->
          fst (persona_list w2) = Ok l).
Proof.
  intros Hvalid Hroot. rewrite get_persona_list_run.
  destruct (node_of (w_fs w) ROOT) as [[|c]|] eqn:E.
  - cbv zeta.
    destruct (listed_dirs_spec (w_fs w) Hvalid) as (Hmem & Hnodup & Hsorted).
    eexists _, _. split; [reflexivity|]. split; [reflexivity|].
    split; [|split; [|split; [|split]]].
    + intros n. rewrite Hmem. split.
      * intros H. split; [reflexivity | exact H].
      * intros [_ H]. exact H.
    + exact Hnodup.
    + exact Hsorted.
    + intros [Habs|Hempty]; [discriminate|]. rewrite Hempty. reflexivity.
    + intros w2 V2 R2 Hsame. rewrite get_persona_list_run, R2. cbv zeta.
      simpl. f_equal. now apply listed_dirs_same.
  - now destruct (Hroot c).
  - eexists _, _. split; [reflexivity|]. split; [reflexivity|].
    split; [|split; [|split; [|split]]].
    + intros n. split; [intros [] | intros [H _]; discriminate].
    + constructor.
    + constructor.
    + reflexivity.
    + intros w2 V2 R2 _. rewrite get_persona_list_run, R2. reflexivity.
Qed.

(** *** Saving: the run-time primitives *)

Lemma node_of_nonempty (s : fs) (p : string) :
  p <> "" -> node_of s p = node_at s (resolve cwd p).
Proof. intros H. unfold at_path. apply String.eqb_neq in H. now rewrite H. Qed.

Lemma node_of_some_nonempty (s : fs) (p : string) (n : node) :
  node_of s p = Some n -> p <> "".
Proof. unfold at_path. intros H ->. discriminate. Qed.

Lemma os_makedirs_run (p : string) (w : world) :
  p <> "" ->
  os_makedirs cwd p w =
  match mkdirs p [] (resolve cwd p) (w_fs w) with
  | Ok s1 => (Ok tt, mkWorld s1 (w_log w ++ [EvMakedirs p]) (w_copy_fault w))
  | Raise e => (Raise e, logged w [EvMakedirs p])
  end.
Proof.
  intros H. apply String.eqb_neq in H.
  unfold os_makedirs, bind, emit, get_fs, lift, put_fs. simpl. rewrite H.
  destruct (mkdirs _ _ _ _); reflexivity.
Qed.

(** [write_node] either stores the file, under the conditions [open]
    checks, or raises and leaves the world alone. *)
Lemma write_node_run (p : string) (c : content) (w : world) :
  let k := resolve cwd p in
  (p <> "" /\ node_at (w_fs w) k <> Some Dir
   /\ node_at (w_fs w) (removelast k) = Some Dir
   /\ write_node cwd p c w =
      (Ok tt, mkWorld (store k (File c) (w_fs w)) (w_log w) (w_copy_fault w)))
  \/ ((p = "" \/ node_at (w_fs w) k = Some Dir
       \/ node_at (w_fs w) (removelast k) <> Some Dir)
      /\ exists e, write_node cwd p c w = (Raise e, w)).
Proof.
  intros k. unfold write_node, bind, get_fs, put_fs, raise. simpl.
  destruct (String.eqb p "") eqn:Ep.
  - right. apply String.eqb_eq in Ep. split; [now left | eauto].
  - apply String.eqb_neq in Ep. fold k.
    destruct (node_at (w_fs w) k) as [[|c0]|] eqn:Ek;
      [right; split; [tauto | eauto] | |];
      (destruct (node_at (w_fs w) (removelast k)) as [[|c1]|] eqn:Epar;
       [ left; repeat split; congruence
       | right; split; [right; right; congruence | eauto]
       | right; split; [right; right; congruence | eauto] ]).
Qed.

Lemma write_node_ok (p : string) (c : content) (w : world) :
  p <> "" ->
  node_at (w_fs w) (resolve cwd p) <> Some Dir ->
  node_at (w_fs w) (removelast (resolve cwd p)) = Some Dir ->
  write_node cwd p c w =
  (Ok tt, mkWorld (store (resolve cwd p) (File c) (w_fs w))
                  (w_log w) (w_copy_fault w)).
Proof.
  intros H1 H2 H3.
  destruct (write_node_run p c w) as [(_ & _ & _ & E)|[[H|[H|H]] _]];
    [assumption | contradiction..].
Qed.

Lemma float_all_pure (k : sliders) (w : world) :
  exists r, forall w', float_all float_of_str k w' = (r, w').
Proof.
  unfold float_all, float_, bind, lift, ret.
  destruct (py_float float_of_str (s_repetition_penalty k));
    [|eexists; intros; reflexivity].
  destruct (py_float float_of_str (s_min_p k));
    [|eexists; intros; reflexivity].
  destruct (py_float float_of_str (s_top_p k));
    [|eexists; intros; reflexivity].
  destruct (py_float float_of_str (s_exaggeration k));
    [|eexists; intros; reflexivity].
  destruct (py_float float_of_str (s_cfg_weight k));
    [|eexists; intros; reflexivity].
  destruct (py_float float_of_str (s_temperature k));
    eexists; intros; reflexivity.
Qed.

Lemma shutil_copy2_unfold (src dst : string) (w : world) :
  shutil_copy2 cwd src dst w =
  let s := w_fs w in
  let t := copy_target cwd s src dst in
  let w0 := logged w [EvCopy2 src dst] in
  if same_file cwd s src t
  then (Raise (mkExn SameFileError
                 ("'" ++ src ++ "' and '" ++ t ++ "' are the same file")), w0)
  else
    match node_of s src with
    | None => (Raise (enoent src), w0)
    | Some Dir => (Raise (eisdir src), w0)
    | Some (File c) =>
        let w1 := mkWorld s (w_log w ++ [EvCopy2 src dst]) None in
        match w_copy_fault w with
        | Some damaged =>
            match write_node cwd t damaged w1 with
            | (Ok _, w2) =>
                (Raise (mkExn OSError "[Errno 5] Input/output error"), w2)
            | (Raise e, w2) => (Raise e, w2)
            end
        | None =>
            match write_node cwd t c w1 with
            | (Ok _, w2) => (Ok t, w2)
            | (Raise e, w2) => (Raise e, w2)
            end
        end
    end.
Proof.
  unfold shutil_copy2, take_copy_fault, emit, get_fs, ret, raise, logged, bind.
  simpl.
  destruct (same_file cwd (w_fs w) src _); [reflexivity|].
  destruct (node_of (w_fs w) src) as [[|c]|]; try reflexivity.
  destruct (w_copy_fault w) as [d|]; cbn [w_fs w_log w_copy_fault];
    destruct (write_node cwd _ _ _) as [[[]|e] w2]; reflexivity.
Qed.

Lemma shutil_copy2_ok (src dst : string) (c : content) (w : world) :
  node_of (w_fs w) src = Some (File c) ->
  node_of (w_fs w) dst <> Some Dir ->
  dst <> "" ->
  resolve cwd src <> resolve cwd dst ->
  node_at (w_fs w) (removelast (resolve cwd dst)) = Some Dir ->
  w_copy_fault w = None ->
  shutil_copy2 cwd src dst w =
  (Ok dst, mkWorld (store (resolve cwd dst) (File c) (w_fs w))
                   (w_log w ++ [EvCopy2 src dst]) None).
Proof.
  intros Hsrc Hdst Hne Hdiff Hpar Hfault.
  rewrite shutil_copy2_unfold. cbv zeta.
  assert (Hd : is_dir (node_of (w_fs w) dst) = false).
  { destruct (node_of (w_fs w) dst) as [[|?]|]; simpl; congruence. }
  unfold copy_target. rewrite Hd.
  assert (Hs : same_file cwd (w_fs w) src dst = false).
  { unfold same_file. apply key_eqb_neq in Hdiff. rewrite Hdiff.
    now rewrite andb_false_r. }
  rewrite Hs, Hsrc, Hfault.
  rewrite write_node_ok; simpl; try assumption.
  - reflexivity.
  - rewrite <- node_of_nonempty by assumption. exact Hdst.
Qed.

(** A copy that raises leaves the file system as it was, or with a file
    changed at the copy's destination; either way the copy is logged and
    nothing else is. *)
Lemma shutil_copy2_raise (src dst : string) (e : exn) (w w' : world) :
  shutil_copy2 cwd src dst w = (Raise e, w') ->
  w_log w' = (w_log w ++ [EvCopy2 src dst])%list
  /\ (w_fs w' = w_fs w
      \/ exists d, w_fs w' =
           store (resolve cwd (copy_target cwd (w_fs w) src dst)) (File d) (w_fs w)).
Proof.
  rewrite shutil_copy2_unfold. cbv zeta.
  set (t := copy_target cwd (w_fs w) src dst).
  destruct (same_file cwd (w_fs w) src t).
  { intros [= _ <-]. split; [reflexivity | now left]. }
  destruct (node_of (w_fs w) src) as [[|c]|].
  1, 3: intros [= _ <-]; split; [reflexivity | now left].
  destruct (w_copy_fault w) as [d|].
  - match goal with |- context [write_node cwd t d ?w0] =>
      destruct (write_node_run t d w0) as [(_ & _ & _ & E)|[_ [e0 E]]];
        rewrite E end.
    + intros [= _ <-]. simpl. split; [reflexivity | right; now exists d].
    + intros [= _ <-]. simpl. split; [reflexivity | now left].
  - match goal with |- context [write_node cwd t c ?w0] =>
      destruct (write_node_run t c w0) as [(_ & _ & _ & E)|[_ [e0 E]]];
        rewrite E end.
    + discriminate.
    + intros [= _ <-]. simpl. split; [reflexivity | now left].
Qed.

(** A copy that returns has stored the source's content at the target. *)
Lemma shutil_copy2_ok_inv (src dst r : string) (w w' : world) :
  shutil_copy2 cwd src dst w = (Ok r, w') ->
  let t := copy_target cwd (w_fs w) src dst in
  exists c,
    node_of (w_fs w) src = Some (File c)
    /\ r = t
    /\ same_file cwd (w_fs w) src t = false
    /\ t <> ""
    /\ node_at (w_fs w) (resolve cwd t) <> Some Dir
    /\ node_at (w_fs w) (removelast (resolve cwd t)) = Some Dir
    /\ w' = mkWorld (store (resolve cwd t) (File c) (w_fs w))
                    (w_log w ++ [EvCopy2 src dst]) None.
Proof.
  intros H t. rewrite shutil_copy2_unfold in H. cbv zeta in H.
  fold t in H. revert H.
  destruct (same_file cwd (w_fs w) src t) eqn:Hsame; [discriminate|].
  destruct (node_of (w_fs w) src) as [[|c]|]; [discriminate| |discriminate].
  destruct (w_copy_fault w) as [d|].
  - match goal with |- context [write_node cwd t d ?w0] =>
      destruct (write_node_run t d w0) as [(_ & _ & _ & E)|[_ [e0 E]]];
        rewrite E end; discriminate.
  - match goal with |- context [write_node cwd t c ?w0] =>
      destruct (write_node_run t c w0) as [(H1 & H2 & H3 & E)|[_ [e0 E]]];
        rewrite E end; [|discriminate].
    intros [= <- <-]. exists c. simpl in *. repeat split; assumption.
Qed.

Lemma json_dump_file_run (p : string) (doc : pyval) (w : world) :
  json_dump_file cwd p doc w =
  write_node cwd p (Json doc) (logged w [EvOpenWrite p]).
Proof. reflexivity. Qed.


(** *** Saving: where the files go *)

Local Notation reference_of name audio :=
  (join (join (PERSONAS_DIR app_file) name) (reference (kept_ext audio))).

Lemma kept_ext_no_sep (audio : string) : mem_char sep (kept_ext audio) = false.
Proof.
  unfold kept_ext. cbv zeta.
  destruct (String.eqb (snd (splitext audio)) "");
    [reflexivity | apply splitext_ext_no_sep].
Qed.

Lemma reference_key (name audio : string) :
  name <> "" ->
  resolve cwd (reference_of name audio) =
  (resolve cwd (persona_dir name) ++ [reference (kept_ext audio)])%list.
Proof.
  intros H. apply resolve_join_name.
  - now apply persona_dir_nonempty.
  - apply reference_name_valid, kept_ext_no_sep.
Qed.

Lemma config_key (name : string) :
  name <> "" ->
  resolve cwd (config_json name) =
  (resolve cwd (persona_dir name) ++ ["config.json"])%list.
Proof.
  intros H. apply resolve_join_name; [now apply persona_dir_nonempty | reflexivity].
Qed.

Lemma root_key : exists base, resolve cwd ROOT = (base ++ ["personas"])%list.
Proof.
  unfold PERSONAS_DIR.
  destruct (String.eqb (dirname app_file) "") eqn:E.
  - apply String.eqb_eq in E. rewrite E. exists cwd. reflexivity.
  - apply String.eqb_neq in E. exists (resolve cwd (dirname app_file)).
    now apply resolve_join_name.
Qed.

Lemma reference_neq_config (k1 k2 : key) (ext : string) :
  (k1 ++ [reference ext])%list <> (k2 ++ ["config.json"])%list.
Proof.
  intros H. apply app_inj_tail in H as [_ H]. unfold reference, append in H. discriminate.
Qed.

Lemma root_neq_reference (k : key) (ext : string) :
  resolve cwd ROOT <> (k ++ [reference ext])%list.
Proof.
  destruct root_key as [base ->]. intros H.
  apply app_inj_tail in H as [_ H]. unfold reference, append in H. discriminate.
Qed.

Lemma root_neq_config (k : key) :
  resolve cwd ROOT <> (k ++ ["config.json"])%list.
Proof.
  destruct root_key as [base ->]. intros H.
  apply app_inj_tail in H as [_ H]. discriminate.
Qed.

Lemma key_neq_longer (k : key) (l : list string) :
  l <> [] -> k <> (k ++ l)%list.
Proof.
  intros Hl H. apply (f_equal (@length string)) in H.
  rewrite length_app in H. destruct l; [congruence | simpl in H; lia].
Qed.

Lemma step_cases (k : key) (c : string) :
  step k c = k \/ step k c = removelast k \/ step k c = (k ++ [c])%list.
Proof.
  unfold step.
  destruct (String.eqb c "" || String.eqb c ".")%bool; [now left|].
  destruct (String.eqb c ".."); [right; now left | right; now right].
Qed.

(** Wherever the copy ends up, it is not on the persona's [config.json]. *)
Lemma copy_target_not_config (s : fs) (name audio : string) :
  name <> "" ->
  resolve cwd (copy_target cwd s audio (reference_of name audio))
  <> resolve cwd (config_json name).
Proof.
  intros Hname. rewrite config_key by assumption.
  unfold copy_target. destruct (is_dir _).
  - rewrite resolve_join;
      [| apply join_nonempty; unfold reference, append; discriminate
       | apply basename_no_sep].
    rewrite reference_key by assumption.
    destruct (step_cases (resolve cwd (persona_dir name)
                            ++ [reference (kept_ext audio)])%list
                         (basename audio)) as [E|[E|E]]; rewrite E.
    + apply reference_neq_config.
    + rewrite removelast_last. apply key_neq_longer. discriminate.
    + rewrite <- app_assoc. intros H. apply app_inv_head in H. discriminate.
  - rewrite reference_key by assumption. apply reference_neq_config.
Qed.

Section MkdirsNodes.

Variables (p : string) (todo : list string) (s s1 : fs).
Hypothesis Hmk : mkdirs p [] todo s = Ok s1.

Lemma mkdirs_node_keeps (k : key) (n : node) :
  node_at s k = Some n -> node_at s1 k = Some n.
Proof.
  destruct k; [trivial|]. simpl. apply (mkdirs_keeps _ _ _ _ _ _ _ Hmk).
Qed.

Lemma mkdirs_node_longer (k : key) :
  length todo < length k -> node_at s1 k = node_at s k.
Proof.
  destruct k; [reflexivity|]. intros H.
  apply (mkdirs_longer _ _ _ _ _ _ Hmk). exact H.
Qed.

Lemma mkdirs_node_mono (k : key) :
  node_at s1 k = node_at s k \/ node_at s1 k = Some Dir.
Proof.
  destruct k; [now left|]. simpl.
  destruct (mkdirs_mono _ _ _ _ _ Hmk (s0 :: k)) as [H|[_ H]]; auto.
Qed.

Lemma mkdirs_node_target : node_at s1 todo = Some Dir.
Proof.
  apply (dirs_along_target todo [] s1); [reflexivity|].
  apply (mkdirs_dirs_along _ _ _ _ _ Hmk).
Qed.

End MkdirsNodes.

(** Once the module has been loaded the root of personas is a
    directory. *)
Lemma module_init_root (w w' : world) :
  module_init app_file cwd w = (Ok tt, w') ->
  node_of (w_fs w') ROOT = Some Dir.
Proof.
  unfold module_init. rewrite os_makedirs_run by apply PERSONAS_DIR_nonempty.
  destruct (mkdirs _ _ _ _) as [s1|e] eqn:Hmk; [|discriminate].
  intros [= <-]. simpl.
  rewrite node_of_nonempty by apply PERSONAS_DIR_nonempty.
  apply (mkdirs_node_target _ _ _ _ Hmk).
Qed.

Lemma dirs_along_store (todo : list string) (k : key) (n : node) :
  forall done s,
  node_at s k <> Some Dir ->
  dirs_along s done todo -> dirs_along (store k n s) done todo.
Proof.
  induction todo as [|x rest IH]; intros done s Hk; simpl.
  - trivial.
  - intros [H1 H2]. split; [|now apply IH].
    rewrite lookup_store_other; [assumption|].
    intros ->. apply Hk. destruct done; exact H1.
Qed.

(** *** Saving: the whole run *)

Lemma save_persona_steps (name audio : string) (k : sliders) (w : world) :
  name <> "" -> audio <> "" ->
  save (Some name) (Some audio) k w =
  (os_makedirs cwd (persona_dir name) ;;;
   shutil_copy2 cwd audio (reference_of name audio) ;;;
   P <- float_all float_of_str k ;;
   json_dump_file cwd (config_json name) (config P (kept_ext audio)) ;;;
   choices <- persona_list ;;
   ret (mkSaved choices name "Persona saved!")) w.
Proof.
  destruct name; [congruence|]. destruct audio; [congruence|]. reflexivity.
Qed.

Lemma save_persona_needs_inputs (name audio : option string) (k : sliders)
      (r : save_result) (w w' : world) :
  save name audio k w = (Ok r, w') ->
  exists n a, name = Some n /\ audio = Some a /\ n <> "" /\ a <> "".
Proof.
  destruct name as [[|c n]|]; try discriminate.
  destruct audio as [[|d a]|]; try discriminate.
  intros _. eexists _, _. repeat split; discriminate.
Qed.

(** The run of a save whose file operations all go through. *)
Lemma save_persona_ok (name audio : string) (k : sliders) (P : ParameterSet)
      (c : content) (s1 : fs) (w : world) :
  name <> "" ->
  mkdirs (persona_dir name) [] (resolve cwd (persona_dir name)) (w_fs w) = Ok s1 ->
  node_of (w_fs w) audio = Some (File c) ->
  node_of (w_fs w) (reference_of name audio) <> Some Dir ->
  resolve cwd audio <> resolve cwd (reference_of name audio) ->
  node_of (w_fs w) (config_json name) <> Some Dir ->
  w_copy_fault w = None ->
  (forall c', node_of (w_fs w) ROOT <> Some (File c')) ->
  (forall w0, float_all float_of_str k w0 = (Ok P, w0)) ->
  exists choices w',
    save (Some name) (Some audio) k w =
    (Ok (mkSaved choices name "Persona saved!"), w')
    /\ w_fs w' =
       store (resolve cwd (config_json name))
             (File (Json (config P (kept_ext audio))))
             (store (resolve cwd (reference_of name audio)) (File c) s1)
    /\ w_copy_fault w' = None.
Proof.
  intros Hname Hmk Hsrc Hdst Hdiff Hcfg Hfault Hroot Hfloat.
  assert (Haudio : audio <> "") by now apply (node_of_some_nonempty _ _ _ Hsrc).
  assert (Hpp : persona_dir name <> "") by now apply persona_dir_nonempty.
  assert (Hdne : reference_of name audio <> "").
  { apply join_nonempty. unfold reference, append. discriminate. }
  assert (Hcne : config_json name <> "") by (apply join_nonempty; discriminate).
  set (pk := resolve cwd (persona_dir name)) in *.
  pose proof (reference_key name audio Hname) as Hdk. fold pk in Hdk.
  pose proof (config_key name Hname) as Hck. fold pk in Hck.
  rewrite node_of_nonempty in Hsrc, Hdst, Hcfg by assumption.
  (* the state after [os.makedirs] *)
  assert (Hsrc1 : node_at s1 (resolve cwd audio) = Some (File c))
    by now apply (mkdirs_node_keeps _ _ _ _ Hmk).
  assert (Hdst1 : node_at s1 (resolve cwd (reference_of name audio)) <> Some Dir).
  { rewrite (mkdirs_node_longer _ _ _ _ Hmk); [assumption|].
    rewrite Hdk, length_app. simpl. lia. }
  assert (Hcfg1 : node_at s1 (resolve cwd (config_json name)) <> Some Dir).
  { rewrite (mkdirs_node_longer _ _ _ _ Hmk); [assumption|].
    rewrite Hck, length_app. simpl. lia. }
  assert (Hpk1 : node_at s1 pk = Some Dir)
    by apply (mkdirs_node_target _ _ _ _ Hmk).
  assert (Hroot1 : forall c', node_at s1 (resolve cwd ROOT) <> Some (File c')).
  { intros c'. specialize (Hroot c').
    rewrite node_of_nonempty in Hroot by apply PERSONAS_DIR_nonempty.
    destruct (mkdirs_node_mono _ _ _ _ Hmk (resolve cwd ROOT)) as [E|E];
      rewrite E; [assumption | discriminate]. }
  (* run the five steps *)
  rewrite save_persona_steps by assumption.
  unfold bind at 1. rewrite os_makedirs_run by assumption.
  fold pk. rewrite Hmk.
  unfold bind at 1.
  rewrite (shutil_copy2_ok audio (reference_of name audio) c); simpl;
    try assumption; try (rewrite node_of_nonempty by assumption; assumption).
  2: { rewrite Hdk, removelast_last. exact Hpk1. }
  unfold bind at 1. rewrite Hfloat.
  unfold bind at 1. rewrite json_dump_file_run.
  rewrite write_node_ok; simpl; try assumption.
  2: { rewrite node_at_store_other; [assumption|].
       rewrite Hdk, Hck. apply reference_neq_config. }
  2: { rewrite Hck, removelast_last, node_at_store_other; [assumption|].
       rewrite Hdk. intros E. symmetry in E. revert E.
       apply key_neq_longer. discriminate. }
  unfold bind at 1. rewrite get_persona_list_run. simpl w_fs.
  assert (Hroot3 : forall c',
            node_of (store (resolve cwd (config_json name))
                           (File (Json (config P (kept_ext audio))))
                           (store (resolve cwd (reference_of name audio))
                                  (File c) s1)) ROOT <> Some (File c')).
  { intros c'. rewrite node_of_nonempty by apply PERSONAS_DIR_nonempty.
    rewrite !node_at_store_other; [apply Hroot1 | |].
    - rewrite Hdk. intros E. symmetry in E. revert E. apply root_neq_reference.
    - rewrite Hck. intros E. symmetry in E. revert E. apply root_neq_config. }
  match goal with
  | |- context [match node_of ?s ROOT with _ => _ end] =>
      destruct (node_of s ROOT) as [[|c']|] eqn:Eroot
  end.
  - cbv zeta. unfold ret. eexists _, _. split; [reflexivity|]. now split.
  - now destruct (Hroot3 c').
  - unfold ret. eexists _, _. split; [reflexivity|]. now split.
Qed.


Lemma float_all_ok_inv (k : sliders) (P : ParameterSet) (w w' : world) :
  float_all float_of_str k w = (Ok P, w') ->
  py_float float_of_str (s_repetition_penalty k) = Ok (repetitionPenalty P)
  /\ py_float float_of_str (s_min_p k) = Ok (minP P)
  /\ py_float float_of_str (s_top_p k) = Ok (topP P)
  /\ py_float float_of_str (s_exaggeration k) = Ok (exaggeration P)
  /\ py_float float_of_str (s_cfg_weight k) = Ok (cfgWeight P)
  /\ py_float float_of_str (s_temperature k) = Ok (temperature P).
Proof.
  unfold float_all, float_, bind, lift, ret.
  destruct (py_float float_of_str (s_repetition_penalty k)); [|discriminate].
  destruct (py_float float_of_str (s_min_p k)); [|discriminate].
  destruct (py_float float_of_str (s_top_p k)); [|discriminate].
  destruct (py_float float_of_str (s_exaggeration k)); [|discriminate].
  destruct (py_float float_of_str (s_cfg_weight k)); [|discriminate].
  destruct (py_float float_of_str (s_temperature k)); [|discriminate].
  intros [= <- _]. simpl. repeat split.
Qed.

(** Everything a save that returns has gone through: the directories
    made, the copy to its target, the coercions, the record written and
    the listing. *)
Lemma save_persona_inv (name audio : string) (k : sliders)
      (r : save_result) (w w' : world) :
  save (Some name) (Some audio) k w = (Ok r, w') ->
  exists s1 c P,
    let t := copy_target cwd s1 audio (reference_of name audio) in
    mkdirs (persona_dir name) [] (resolve cwd (persona_dir name)) (w_fs w)
    = Ok s1
    /\ node_of s1 audio = Some (File c)
    /\ same_file cwd s1 audio t = false
    /\ t <> ""
    /\ node_at s1 (resolve cwd t) <> Some Dir
    /\ node_at s1 (removelast (resolve cwd t)) = Some Dir
    /\ (forall w0, float_all float_of_str k w0 = (Ok P, w0))
    /\ node_at (store (resolve cwd t) (File c) s1)
               (resolve cwd (config_json name)) <> Some Dir
    /\ w_fs w' =
       store (resolve cwd (config_json name))
             (File (Json (config P (kept_ext audio))))
             (store (resolve cwd t) (File c) s1)
    /\ w_copy_fault w' = None
    /\ (forall c', node_of (w_fs w') ROOT <> Some (File c'))
    /\ sv_value r = name /\ sv_message r = "Persona saved!".
Proof.
  intros Hsave.
  destruct (save_persona_needs_inputs _ _ _ _ _ _ Hsave)
    as (n & a & [= <-] & [= <-] & Hname & Haudio).
  assert (Hpp : persona_dir name <> "") by now apply persona_dir_nonempty.
  rewrite save_persona_steps in Hsave by assumption.
  unfold bind at 1 in Hsave. rewrite os_makedirs_run in Hsave by assumption.
  destruct (mkdirs _ _ _ _) as [s1|e] eqn:Hmk; [|discriminate].
  unfold bind at 1 in Hsave.
  destruct (shutil_copy2 _ _ _ _) as [[t|e] w2] eqn:Hcopy; [|discriminate].
  apply shutil_copy2_ok_inv in Hcopy. cbv zeta in Hcopy. simpl w_fs in Hcopy.
  destruct Hcopy as (c & Hsrc & _ & Hsame & Htne & Htk & Hpar & ->).
  unfold bind at 1 in Hsave.
  destruct (float_all_pure k w) as [rP HP]. rewrite HP in Hsave.
  destruct rP as [P|e]; [|discriminate].
  unfold bind at 1 in Hsave. rewrite json_dump_file_run in Hsave.
  match type of Hsave with
  | context [write_node cwd ?p ?d ?w0] =>
      destruct (write_node_run p d w0) as [(_ & Hck & _ & E)|[_ [e E]]];
        rewrite E in Hsave; [|discriminate]
  end.
  simpl in Hck.
  unfold bind at 1 in Hsave. rewrite get_persona_list_run in Hsave.
  simpl w_fs in Hsave.
  set (s3 := store (resolve cwd (config_json name)) _ _) in *.
  exists s1, c, P. cbv zeta.
  split; [reflexivity|].
  do 7 (split; [assumption|]).
  destruct (node_of s3 ROOT) as [[|c']|] eqn:Eroot;
    [cbv zeta in Hsave | discriminate |];
    unfold ret in Hsave; injection Hsave as <- <-; simpl;
    (split; [reflexivity|]); (split; [reflexivity|]);
    (split; [|split; reflexivity]);
    intros c'; fold s3; rewrite Eroot; discriminate.
Qed.

(** What is known of the world a successful save leaves behind. *)
Lemma save_persona_post (name audio : string) (k : sliders)
      (r : save_result) (w w' : world) :
  save (Some name) (Some audio) k w = (Ok r, w') ->
  name <> "" /\ audio <> ""
  /\ exists P,
       (forall w0, float_all float_of_str k w0 = (Ok P, w0))
       /\ dirs_along (w_fs w') [] (resolve cwd (persona_dir name))
       /\ node_of (w_fs w') (config_json name) =
          Some (File (Json (config P (kept_ext audio))))
       /\ w_copy_fault w' = None
       /\ (forall c', node_of (w_fs w') ROOT <> Some (File c')).
Proof.
  intros Hsave.
  destruct (save_persona_needs_inputs _ _ _ _ _ _ Hsave)
    as (n & a & [= <-] & [= <-] & Hname & Haudio).
  split; [assumption|]. split; [assumption|].
  destruct (save_persona_inv _ _ _ _ _ _ Hsave)
    as (s1 & c & P & Hmk & _ & _ & _ & Htk & _ & HP & Hck & Hfs & Hfault
        & Hroot & _).
  exists P. split; [exact HP|]. rewrite Hfs in *.
  repeat split; try assumption.
  - apply dirs_along_store; [assumption|].
    apply dirs_along_store; [assumption|].
    apply (mkdirs_dirs_along _ _ _ _ _ Hmk).
  - rewrite node_of_nonempty by (apply join_nonempty; discriminate).
    apply node_at_store_same. rewrite config_key by assumption.
    intros E0. symmetry in E0. now apply app_cons_not_nil in E0.
Qed.

(** Loading a persona whose [config.json] is the record a save writes. *)
Lemma load_persona_saved (name ext : string) (P : ParameterSet) (w : world) :
  name <> "" ->
  node_of (w_fs w) (config_json name) = Some (File (Json (config P ext))) ->
  load (Some name) w =
  (Ok (loaded_params (join (persona_dir name) (reference ext)) P),
   logged w [EvExists (config_json name); EvOpenRead (config_json name)]).
Proof.
  intros Hname Hcfg. destruct name as [|a n]; [congruence|].
  rewrite load_persona_unfold. cbv zeta. rewrite Hcfg. reflexivity.
Qed.

(** A save whose file operations go through, followed by a load. *)
Lemma save_then_load (name audio : string) (P : ParameterSet)
      (c : content) (s1 : fs) (w : world) :
  name <> "" ->
  mkdirs (persona_dir name) [] (resolve cwd (persona_dir name)) (w_fs w) = Ok s1 ->
  node_of (w_fs w) audio = Some (File c) ->
  node_of (w_fs w) (reference_of name audio) <> Some Dir ->
  resolve cwd audio <> resolve cwd (reference_of name audio) ->
  node_of (w_fs w) (config_json name) <> Some Dir ->
  w_copy_fault w = None ->
  (forall c', node_of (w_fs w) ROOT <> Some (File c')) ->
  exists r w' w'',
    save (Some name) (Some audio) (as_sliders P) w = (Ok r, w')
    /\ load (Some name) w' =
       (Ok (loaded_params (reference_of name audio) P), w'')
    /\ node_of (w_fs w') (reference_of name audio) = Some (File c)
    /\ node_of (w_fs w') (config_json name) =
       Some (File (Json (config P (kept_ext audio)))).
Proof.
  intros Hname Hmk Hsrc Hdst Hdiff Hcfg Hfault Hroot.
  destruct (save_persona_ok name audio (as_sliders P) P c s1 w)
    as (choices & w' & Hsave & Hfs & _);
    try assumption; [apply float_all_as_sliders|].
  assert (Hcne : config_json name <> "") by (apply join_nonempty; discriminate).
  assert (Hdne : reference_of name audio <> "").
  { apply join_nonempty. unfold reference, append. discriminate. }
  assert (Hc' : node_of (w_fs w') (config_json name) =
                Some (File (Json (config P (kept_ext audio))))).
  { rewrite node_of_nonempty, Hfs by assumption.
    apply node_at_store_same. rewrite config_key by assumption.
    intros E. symmetry in E. now apply app_cons_not_nil in E. }
  eexists _, w', _. split; [exact Hsave|]. split; [|split].
  - now apply load_persona_saved.
  - rewrite node_of_nonempty, Hfs by assumption.
    rewrite node_at_store_other.
    + apply node_at_store_same. rewrite reference_key by assumption.
      intros E. symmetry in E. now apply app_cons_not_nil in E.
    + rewrite config_key, reference_key by assumption.
      intros E. symmetry in E. revert E. apply reference_neq_config.
  - exact Hc'.
Qed.

(** C1 (as amended).  A save under a non-empty name, from an audio file
    that exists, in a world where the file operations of the save go
    through -- the persona's directory can be made, the place of
    [reference<ext>] in it holds neither a directory nor the source file
    itself, [config.json] is not a directory, the copy is not cut short
    and the root is not a regular file -- succeeds, and a load by the same
    name then returns the six numbers that were saved together with the
    path of [reference<ext>] inside the persona's directory, where a file
    with the content of the source now is. *)
Theorem save_then_load_roundtrip (name audio : string) (P : ParameterSet)
        (c : content) (w : world) :
  name <> "" ->
  node_of (w_fs w) audio = Some (File c) ->
  fst (os_makedirs cwd (persona_dir name) w) = Ok tt ->
  node_of (w_fs w) (reference_of name audio) <> Some Dir ->
  resolve cwd audio <> resolve cwd (reference_of name audio) ->
  node_of (w_fs w) (config_json name) <> Some Dir ->
  w_copy_fault w = None ->
  (forall c', node_of (w_fs w) ROOT <> Some (File c')) ->
  exists r w' w'',
    save (Some name) (Some audio) (as_sliders P) w = (Ok r, w')
    /\ load (Some name) w' =
       (Ok (loaded_params (reference_of name audio) P), w'')
    /\ node_of (w_fs w') (reference_of name audio) = Some (File c)
    /\ resolve cwd (reference_of name audio) =
       (resolve cwd (persona_dir name) ++ [reference (kept_ext audio)])%list.
Proof.
  intros Hname Hsrc Hmk Hdst Hdiff Hcfg Hfault Hroot.
  rewrite os_makedirs_run in Hmk by now apply persona_dir_nonempty.
  destruct (mkdirs _ _ _ _) as [s1|e] eqn:Emk; [|discriminate].
  destruct (save_then_load name audio P c s1 w)
    as (r & w' & w'' & Hsave & Hload & Hfile & _); try assumption.
  exists r, w', w''. repeat split; try assumption.
  now apply reference_key.
Qed.

(** The run of a save, from the state [s1] the file system is in once the
    persona's directory has been made: the copy and the two writes go
    through when the places they touch allow it. *)
Lemma save_persona_run_ok (name audio : string) (k : sliders)
      (P : ParameterSet) (c : content) (s1 : fs) (w : world) :
  let t := copy_target cwd s1 audio (reference_of name audio) in
  name <> "" -> audio <> "" ->
  mkdirs (persona_dir name) [] (resolve cwd (persona_dir name)) (w_fs w) = Ok s1 ->
  node_of s1 audio = Some (File c) ->
  same_file cwd s1 audio t = false ->
  t <> "" ->
  node_at s1 (resolve cwd t) <> Some Dir ->
  node_at s1 (removelast (resolve cwd t)) = Some Dir ->
  node_at s1 (resolve cwd (config_json name)) <> Some Dir ->
  w_copy_fault w = None ->
  (forall c', node_at s1 (resolve cwd ROOT) <> Some (File c')) ->
  resolve cwd ROOT <> resolve cwd t ->
  (forall w0, float_all float_of_str k w0 = (Ok P, w0)) ->
  exists choices w',
    save (Some name) (Some audio) k w =
    (Ok (mkSaved choices name "Persona saved!"), w')
    /\ w_fs w' =
       store (resolve cwd (config_json name))
             (File (Json (config P (kept_ext audio))))
             (store (resolve cwd t) (File c) s1)
    /\ w_copy_fault w' = None.
Proof.
  intros t Hname Haudio Hmk Hsrc Hsame Htne Htk Hpar Hck Hfault Hroot Hrt Hfloat.
  assert (Hpp : persona_dir name <> "") by now apply persona_dir_nonempty.
  assert (Hcne : config_json name <> "") by (apply join_nonempty; discriminate).
  assert (Hpk : node_at s1 (resolve cwd (persona_dir name)) = Some Dir)
    by apply (mkdirs_node_target _ _ _ _ Hmk).
  assert (Htc : resolve cwd t <> resolve cwd (config_json name))
    by now apply copy_target_not_config.
  rewrite save_persona_steps by assumption.
  unfold bind at 1. rewrite os_makedirs_run by assumption. rewrite Hmk.
  unfold bind at 1. rewrite shutil_copy2_unfold. cbv zeta. simpl w_fs.
  fold t. rewrite Hsame, Hsrc. simpl w_copy_fault. rewrite Hfault.
  rewrite write_node_ok by (simpl; assumption). simpl w_fs.
  unfold bind at 1. rewrite Hfloat.
  unfold bind at 1. rewrite json_dump_file_run.
  rewrite write_node_ok; simpl; try assumption.
  2: { now rewrite node_at_store_other. }
  2: { rewrite config_key, removelast_last by assumption.
       rewrite node_at_store_other; [assumption|].
       intros E. apply Htk. now rewrite E. }
  unfold bind at 1. rewrite get_persona_list_run. simpl w_fs.
  match goal with
  | |- context [match node_of ?s ROOT with _ => _ end] =>
      assert (Hroot3 : forall c', node_of s ROOT <> Some (File c'));
        [| destruct (node_of s ROOT) as [[|c']|] eqn:Eroot ]
  end.
  - intros c'. rewrite node_of_nonempty by apply PERSONAS_DIR_nonempty.
    rewrite !node_at_store_other; [apply Hroot | |].
    + intros E. apply Hrt. now symmetry.
    + intros E. symmetry in E. revert E. rewrite config_key by assumption.
      apply root_neq_config.
  - cbv zeta. unfold ret. eexists _, _. split; [reflexivity|]. now split.
  - now destruct (Hroot3 c').
  - unfold ret. eexists _, _. split; [reflexivity|]. now split.
Qed.



Lemma os_makedirs_log (p : string) (r : result unit) (w w1 : world) :
  p <> "" ->
  os_makedirs cwd p w = (r, w1) ->
  w_log w1 = (w_log w ++ [EvMakedirs p])%list.
Proof.
  intros Hp. rewrite os_makedirs_run by assumption.
  destruct (mkdirs _ _ _ _); now intros [= _ <-].
Qed.

(** C9.  Let a save reach the copy of the audio file.  When the copy
    raises, [save_persona] raises the same exception at that point: the
    node at [config.json] is what it was before the save began, and no
    file has been opened for writing.  And whatever way a save ends, if a
    file was opened for writing during it then the copy had returned
    before. *)
Theorem save_persona_copy_failure (name audio : string) (k : sliders)
        (w : world) :
  name <> "" -> audio <> "" ->
  (forall e w1 w2,
      os_makedirs cwd (persona_dir name) w = (Ok tt, w1) ->
      shutil_copy2 cwd audio (reference_of name audio) w1 = (Raise e, w2) ->
      save (Some name) (Some audio) k w = (Raise e, w2)
      /\ node_of (w_fs w2) (config_json name) =
         node_of (w_fs w) (config_json name)
      /\ writes_opened (w_log w2) = writes_opened (w_log w))
  /\
  (forall r w',
      save (Some name) (Some audio) k w = (r, w') ->
      writes_opened (w_log w') <> writes_opened (w_log w) ->
      exists w1 t w2,
        os_makedirs cwd (persona_dir name) w = (Ok tt, w1)
        /\ shutil_copy2 cwd audio (reference_of name audio) w1 = (Ok t, w2)).
Proof.
  intros Hname Haudio.
  assert (Hpp : persona_dir name <> "") by now apply persona_dir_nonempty.
  assert (Hcne : config_json name <> "") by (apply join_nonempty; discriminate).
  assert (Hlog : forall e w1 w2,
            os_makedirs cwd (persona_dir name) w = (Ok tt, w1) ->
            shutil_copy2 cwd audio (reference_of name audio) w1 = (Raise e, w2) ->
            writes_opened (w_log w2) = writes_opened (w_log w)).
  { intros e w1 w2 Hmk Hcopy.
    destruct (shutil_copy2_raise _ _ _ _ _ Hcopy) as [-> _].
    rewrite (os_makedirs_log _ _ _ _ Hpp Hmk).
    rewrite !writes_opened_app. simpl. now rewrite !app_nil_r. }
  split.
  - intros e w1 w2 Hmk Hcopy. split; [|split].
    + rewrite save_persona_steps by assumption.
      unfold bind at 1. rewrite Hmk. unfold bind at 1. now rewrite Hcopy.
    + rewrite os_makedirs_run in Hmk by assumption.
      destruct (mkdirs _ _ _ _) as [s1|e1] eqn:Emk; [|discriminate].
      injection Hmk as <-.
      assert (H1 : node_at s1 (resolve cwd (config_json name)) =
                   node_at (w_fs w) (resolve cwd (config_json name))).
      { apply (mkdirs_node_longer _ _ _ _ Emk).
        rewrite config_key, length_app by assumption. simpl. lia. }
      rewrite !node_of_nonempty by assumption. rewrite <- H1.
      destruct (shutil_copy2_raise _ _ _ _ _ Hcopy) as [_ [Hfs|[d Hfs]]];
        simpl in Hfs; rewrite Hfs; [reflexivity|].
      apply node_at_store_other. now apply copy_target_not_config.
    + now apply (Hlog e w1 w2).
  - intros r w' Hsave Hwrites.
    rewrite save_persona_steps in Hsave by assumption.
    unfold bind at 1 in Hsave.
    destruct (os_makedirs cwd (persona_dir name) w) as [[[]|e] w1] eqn:Hmk.
    + unfold bind at 1 in Hsave.
      destruct (shutil_copy2 cwd audio (reference_of name audio) w1)
        as [[t|e] w2] eqn:Hcopy.
      * now exists w1, t, w2.
      * injection Hsave as _ <-. exfalso. apply Hwrites.
        now apply (Hlog e w1 w2).
    + injection Hsave as _ <-. exfalso. apply Hwrites.
      rewrite (os_makedirs_log _ _ _ _ Hpp Hmk).
      rewrite writes_opened_app. simpl. now rewrite app_nil_r.
Qed.

(** C10.  Whenever [save_persona] returns, the persona's [config.json]
    holds the record of exactly the seven keys, the six numbers being the
    [float(...)] of the six inputs and [audio_filename] being "reference"
    followed by the source's extension, or by ".wav" when it has none.
    On that record no default of [load_persona] is used: each key is
    found, and the load returns the stored values. *)
Theorem save_persona_writes_full_config (name audio : option string)
        (k : sliders) (r : save_result) (w w' : world) :
  save name audio k w = (Ok r, w') ->
  exists n a P d,
    name = Some n /\ audio = Some a
    /\ py_float float_of_str (s_repetition_penalty k) = Ok (repetitionPenalty P)
    /\ py_float float_of_str (s_min_p k) = Ok (minP P)
    /\ py_float float_of_str (s_top_p k) = Ok (topP P)
    /\ py_float float_of_str (s_exaggeration k) = Ok (exaggeration P)
    /\ py_float float_of_str (s_cfg_weight k) = Ok (cfgWeight P)
    /\ py_float float_of_str (s_temperature k) = Ok (temperature P)
    /\ node_of (w_fs w') (config_json n) = Some (File (Json (PyDict d)))
    /\ PyDict d = config P (kept_ext a)
    /\ map fst d = config_keys
    /\ dict_get d "audio_filename" PyNone = PyStr (reference (kept_ext a))
    /\ (snd (splitext a) = "" -> kept_ext a = ".wav")
    /\ (snd (splitext a) <> "" -> kept_ext a = snd (splitext a))
    /\ (forall key, In key config_keys ->
          dict_has d key = true
          /\ forall dflt dflt', dict_get d key dflt = dict_get d key dflt')
    /\ load (Some n) w' =
       (Ok (loaded_params (join (persona_dir n) (reference (kept_ext a))) P),
        logged w' [EvExists (config_json n); EvOpenRead (config_json n)]).
Proof.
  intros Hsave.
  destruct (save_persona_needs_inputs _ _ _ _ _ _ Hsave)
    as (n & a & -> & -> & Hname & Haudio).
  destruct (save_persona_post _ _ _ _ _ _ Hsave)
    as (_ & _ & P & Hfloat & _ & Hcfg & _).
  destruct (float_all_ok_inv k P w w (Hfloat w))
    as (F1 & F2 & F3 & F4 & F5 & F6).
  exists n, a, P. eexists.
  split; [reflexivity|]. split; [reflexivity|].
  do 6 (split; [assumption|]).
  split; [exact Hcfg|]. split; [reflexivity|]. split; [reflexivity|].
  split; [reflexivity|]. split; [|split; [|split]].
  - intros E. unfold kept_ext. cbv zeta. now rewrite E.
  - intros E. unfold kept_ext. cbv zeta.
    apply String.eqb_neq in E. now rewrite E.
  - intros key Hkey. unfold config_keys in Hkey. simpl in Hkey.
    repeat (destruct Hkey as [<-|Hkey]; [split; [reflexivity | intros; reflexivity]|]).
    contradiction.
  - now apply load_persona_saved.
Qed.

(** *** The invariant along the program *)

Hypothesis cwd_valid : Forall (fun n => valid_name n = true) cwd.

Lemma keeps_ret {A} (Q : fs -> Prop) (a : A) : keeps Q (ret a).
Proof. intros w r w' [= _ <-]. trivial. Qed.

Lemma keeps_raise {A} (Q : fs -> Prop) (e : exn) : keeps Q (@raise A e).
Proof. intros w r w' [= _ <-]. trivial. Qed.

Lemma keeps_lift {A} (Q : fs -> Prop) (x : result A) : keeps Q (lift x).
Proof. intros w r w' [= _ <-]. trivial. Qed.

Lemma keeps_emit (Q : fs -> Prop) (e : event) : keeps Q (emit e).
Proof. intros w r w' [= _ <-]. trivial. Qed.

Lemma keeps_get_fs (Q : fs -> Prop) : keeps Q get_fs.
Proof. intros w r w' [= _ <-]. trivial. Qed.

Lemma keeps_take_copy_fault (Q : fs -> Prop) : keeps Q take_copy_fault.
Proof. intros w r w' [= _ <-]. trivial. Qed.

Lemma keeps_bind {A B} (Q : fs -> Prop) (c : M A) (k : A -> M B) :
  keeps Q c -> (forall a, keeps Q (k a)) -> keeps Q (bind c k).
Proof.
  intros Hc Hk w r w'. unfold bind.
  destruct (c w) as [[a|e] w1] eqn:E.
  - intros H HQ. apply (Hk a w1 r w' H). now apply (Hc w _ _ E).
  - intros [= _ <-] HQ. now apply (Hc w _ _ E).
Qed.

Lemma keeps_try_except {A} (Q : fs -> Prop) (c : M A) (h : exn -> M A) :
  keeps Q c -> (forall e, keeps Q (h e)) -> keeps Q (try_except c h).
Proof.
  intros Hc Hh w r w'. unfold try_except.
  destruct (c w) as [[a|e] w1] eqn:E.
  - intros [= _ <-] HQ. now apply (Hc w _ _ E).
  - intros H HQ. apply (Hh e w1 r w' H). now apply (Hc w _ _ E).
Qed.

Lemma keeps_write_node (p : string) (c : content) :
  keeps names_valid (write_node cwd p c).
Proof.
  intros w r w' H Hs.
  destruct (write_node_run p c w) as [(_ & _ & _ & E)|[_ [e E]]];
    rewrite E in H; injection H as _ <-; [|assumption].
  simpl. apply store_names_valid; [|assumption].
  now apply resolve_names_valid.
Qed.

Lemma keeps_os_makedirs (p : string) : keeps names_valid (os_makedirs cwd p).
Proof.
  intros w r w'. unfold os_makedirs, bind, emit, get_fs, lift, put_fs, raise.
  simpl. destruct (String.eqb p ""); [now intros [= _ <-]|].
  destruct (mkdirs p [] (resolve cwd p) (w_fs w)) as [s1|e] eqn:E;
    intros [= _ <-] Hs; simpl; [|assumption].
  apply (mkdirs_names_valid p (resolve cwd p) [] (w_fs w) s1);
    [simpl; now apply resolve_names_valid | exact E | exact Hs].
Qed.

Lemma keeps_shutil_copy2 (src dst : string) :
  keeps names_valid (shutil_copy2 cwd src dst).
Proof.
  unfold shutil_copy2.
  apply keeps_bind; [apply keeps_emit | intros _].
  apply keeps_bind; [apply keeps_get_fs | intros s]. cbv zeta.
  destruct (same_file cwd s src _); [apply keeps_raise|].
  destruct (at_path cwd s src) as [[|c]|]; try apply keeps_raise.
  apply keeps_bind; [apply keeps_take_copy_fault | intros [d|]];
    (apply keeps_bind; [apply keeps_write_node | intros _]);
    [apply keeps_raise | apply keeps_ret].
Qed.

Lemma keeps_get_persona_list : keeps names_valid persona_list.
Proof.
  intros w r w'. rewrite get_persona_list_run.
  destruct (node_of (w_fs w) ROOT) as [[|c]|]; now intros [= _ <-].
Qed.

(** Saving, loading, listing and generating keep the names of the file
    system valid. *)
Lemma program_keeps_names_valid :
  (forall name audio k, keeps names_valid (save name audio k))
  /\ (forall name, keeps names_valid (load name))
  /\ keeps names_valid persona_list
  /\ (forall text audio k, keeps names_valid (generate text audio k)).
Proof.
  split; [|split; [|split]].
  - intros [[|a n]|] audio k; try apply keeps_raise.
    destruct audio as [[|b m]|]; try apply keeps_raise.
    unfold save_persona.
    apply keeps_bind; [apply keeps_os_makedirs | intros _].
    apply keeps_bind; [apply keeps_shutil_copy2 | intros _].
    apply keeps_bind.
    { intros w r w' H. destruct (float_all_pure k w) as [x Hx].
      rewrite Hx in H. now injection H as _ <-. }
    intros P.
    apply keeps_bind.
    { unfold json_dump_file. apply keeps_bind;
        [apply keeps_emit | intros _; apply keeps_write_node]. }
    intros _.
    apply keeps_bind; [apply keeps_get_persona_list | intros l; apply keeps_ret].
  - intros [[|a n]|]; try apply keeps_ret.
    intros w r w'. rewrite load_persona_unfold. cbv zeta.
    destruct (node_of (w_fs w) _) as [[|[b|doc]]|];
      try (now intros [= _ <-]).
    unfold bind, config_get, join_value, ret, raise.
    repeat case_scrutinee; now intros [= _ <-].
  - apply keeps_get_persona_list.
  - intros [[|a t]|] audio k; try apply keeps_raise.
    unfold generate_audio.
    apply keeps_bind; [apply keeps_emit | intros _].
    apply keeps_try_except; [|intros e; apply keeps_raise].
    apply keeps_bind.
    { intros w r w' H. destruct (float_all_pure k w) as [x Hx].
      rewrite Hx in H. now injection H as _ <-. }
    intros P.
    apply keeps_bind.
    { unfold call_model_generate.
      apply keeps_bind; [apply keeps_emit | intros _].
      apply keeps_bind; [apply keeps_get_fs | intros s; apply keeps_lift]. }
    intros wav.
    apply keeps_bind.
    { unfold named_temporary_file.
      apply keeps_bind; [apply keeps_get_fs | intros s]. cbv zeta.
      apply keeps_bind; [apply keeps_emit | intros _].
      destruct (is_some _); [apply keeps_raise|].
      apply keeps_bind; [apply keeps_write_node | intros _; apply keeps_ret]. }
    intros p.
    apply keeps_bind; [|intros _; apply keeps_ret].
    unfold ta_save.
    apply keeps_bind; [apply keeps_emit | intros _; apply keeps_write_node].
Qed.


(* ================================================================= *)
(** ** Beyond the lifecycle: what the handlers write, keep and refuse *)

(** *** Steps of a run *)

Lemma bind_ok_inv {A B} (c : M A) (k : A -> M B) (b : B) (w w' : world) :
  bind c k w = (Ok b, w') ->
  exists a w1, c w = (Ok a, w1) /\ k a w1 = (Ok b, w').
Proof.
  unfold bind. destruct (c w) as [[a|e] w1]; [|discriminate].
  intros H. now exists a, w1.
Qed.

Lemma wrote_at_other (k q : key) (s s' : fs) :
  wrote_at k s s' -> q <> k -> node_at s' q = node_at s q.
Proof.
  intros [->|(c & _ & ->)] Hq; [reflexivity|].
  apply node_at_store_other. congruence.
Qed.

Lemma wrote_at_dir (k q : key) (s s' : fs) :
  wrote_at k s s' -> node_at s q = Some Dir -> node_at s' q = Some Dir.
Proof.
  intros [->|(c & Hk & ->)] Hq; [assumption|].
  rewrite node_at_store_other; [assumption|]. intros ->. contradiction.
Qed.

Lemma wrote_at_stays (k q : key) (s s' : fs) :
  wrote_at k s s' -> node_at s q <> None -> node_at s' q <> None.
Proof.
  intros [->|(c & Hk & ->)] Hq; [assumption|].
  destruct (list_eq_dec string_dec k q) as [<-|Hne].
  - rewrite node_at_store_same; [discriminate|]. intros ->. now apply Hk.
  - now rewrite node_at_store_other.
Qed.

(** However [write_node] ends, it has written at most the one file. *)
Lemma write_node_wrote (p : string) (c : content) (r : result unit)
      (w w' : world) :
  write_node cwd p c w = (r, w') ->
  wrote_at (resolve cwd p) (w_fs w) (w_fs w')
  /\ w_log w' = w_log w /\ w_copy_fault w' = w_copy_fault w.
Proof.
  intros H.
  destruct (write_node_run p c w) as [(_ & Hk & _ & E)|[_ [e E]]];
    rewrite E in H; injection H as _ <-; simpl.
  - split; [right; now exists c | now split].
  - split; [now left | now split].
Qed.

(** However [shutil.copy2] ends, it has written at most its target. *)
Lemma shutil_copy2_wrote (src dst : string) (r : result string)
      (w w' : world) :
  shutil_copy2 cwd src dst w = (r, w') ->
  wrote_at (resolve cwd (copy_target cwd (w_fs w) src dst)) (w_fs w) (w_fs w')
  /\ w_log w' = (w_log w ++ [EvCopy2 src dst])%list.
Proof.
  rewrite shutil_copy2_unfold. cbv zeta.
  set (t := copy_target cwd (w_fs w) src dst).
  destruct (same_file cwd (w_fs w) src t).
  { intros [= _ <-]. split; [now left | reflexivity]. }
  destruct (node_of (w_fs w) src) as [[|c]|].
  1, 3: intros [= _ <-]; split; [now left | reflexivity].
  destruct (w_copy_fault w) as [d|].
  - destruct (write_node cwd t d _) as [[[]|e] w2] eqn:E;
      apply write_node_wrote in E as (Hw & Hl & _);
      intros [= _ <-]; now split.
  - destruct (write_node cwd t c _) as [[[]|e] w2] eqn:E;
      apply write_node_wrote in E as (Hw & Hl & _);
      intros [= _ <-]; now split.
Qed.

(** [os.makedirs] only adds directories, and none below its target. *)
Lemma mkdirs_node_grows (p : string) (todo : list string) (s s1 : fs)
      (q : key) :
  mkdirs p [] todo s = Ok s1 ->
  node_at s1 q = node_at s q
  \/ (node_at s q = None /\ node_at s1 q = Some Dir
      /\ length q <= length todo).
Proof.
  intros Hmk. destruct q as [|x q]; [now left|].
  destruct (Nat.le_gt_cases (length (x :: q)) (length todo)) as [Hle|Hgt].
  - destruct (mkdirs_mono _ _ _ _ _ Hmk (x :: q)) as [H|[H1 H2]];
      [now left | right; auto].
  - left. apply (mkdirs_node_longer _ _ _ _ Hmk). exact Hgt.
Qed.

Lemma reference_of_nonempty (name audio : string) :
  reference_of name audio <> "".
Proof. apply join_nonempty. unfold reference, append. discriminate. Qed.

Lemma config_json_nonempty (name : string) : config_json name <> "".
Proof. apply join_nonempty. discriminate. Qed.

Lemma copy_target_after_mkdirs (name audio : string) (s s1 : fs) :
  name <> "" ->
  mkdirs (persona_dir name) [] (resolve cwd (persona_dir name)) s = Ok s1 ->
  copy_target cwd s1 audio (reference_of name audio) =
  copy_target cwd s audio (reference_of name audio).
Proof.
  intros Hname Hmk. unfold copy_target.
  rewrite !(node_of_nonempty _ _ (reference_of_nonempty name audio)).
  rewrite (mkdirs_node_longer _ _ _ _ Hmk); [reflexivity|].
  rewrite reference_key, length_app by assumption. simpl. lia.
Qed.

(** Where the copy of a save can end up: at [reference<ext>] in the
    persona's directory, or, when a directory is in that place, inside or
    next to it. *)
Lemma copy_target_key (s : fs) (name audio : string) :
  name <> "" ->
  let pk := resolve cwd (persona_dir name) in
  let rk := (pk ++ [reference (kept_ext audio)])%list in
  let tk := resolve cwd (copy_target cwd s audio (reference_of name audio)) in
  tk = rk \/ tk = pk \/ tk = (rk ++ [basename audio])%list.
Proof.
  intros Hname pk rk tk. subst pk rk tk. unfold copy_target.
  destruct (is_dir _).
  - rewrite resolve_join;
      [| apply reference_of_nonempty | apply basename_no_sep].
    rewrite reference_key by assumption.
    destruct (step_cases (resolve cwd (persona_dir name)
                            ++ [reference (kept_ext audio)])%list
                         (basename audio)) as [E|[E|E]]; rewrite E.
    + now left.
    + right; left. apply removelast_last.
    + right; now right.
  - left. now apply reference_key.
Qed.

(** The three stages of a save, however it ends: the directories made,
    then at most the copy written, then at most [config.json] written. *)
Lemma save_persona_writes (name audio : string) (k : sliders)
      (r : result save_result) (w w' : world) :
  name <> "" -> audio <> "" ->
  save (Some name) (Some audio) k w = (r, w') ->
  exists s1 s2,
    ((s1 = w_fs w
      /\ exists e,
           mkdirs (persona_dir name) [] (resolve cwd (persona_dir name))
                  (w_fs w) = Raise e
           /\ r = Raise e)
     \/ mkdirs (persona_dir name) [] (resolve cwd (persona_dir name)) (w_fs w)
        = Ok s1)
    /\ wrote_at (resolve cwd (copy_target cwd (w_fs w) audio
                                          (reference_of name audio))) s1 s2
    /\ wrote_at (resolve cwd (config_json name)) s2 (w_fs w').
Proof.
  intros Hname Haudio Hsave.
  assert (Hpp : persona_dir name <> "") by now apply persona_dir_nonempty.
  rewrite save_persona_steps in Hsave by assumption.
  unfold bind at 1 in Hsave. rewrite os_makedirs_run in Hsave by assumption.
  destruct (mkdirs (persona_dir name) [] (resolve cwd (persona_dir name))
                   (w_fs w)) as [s1|e0] eqn:Hmk.
  2: { injection Hsave as <- <-. exists (w_fs w), (w_fs w). simpl.
       split; [left; split; [reflexivity | now exists e0]|].
       split; now left. }
  rewrite <- (copy_target_after_mkdirs name audio (w_fs w) s1 Hname Hmk).
  unfold bind at 1 in Hsave.
  destruct (shutil_copy2 cwd audio (reference_of name audio) _)
    as [[t|e1] w2] eqn:Hcopy;
    apply shutil_copy2_wrote in Hcopy as [Hw2 _]; cbn [w_fs] in Hw2.
  2: { injection Hsave as _ <-. exists s1, (w_fs w2).
       split; [now right|]. split; [assumption | now left]. }
  unfold bind at 1 in Hsave.
  destruct (float_all_pure k w2) as [x Hx]. rewrite Hx in Hsave.
  destruct x as [P|e2].
  2: { injection Hsave as _ <-. exists s1, (w_fs w2).
       split; [now right|]. split; [assumption | now left]. }
  unfold bind at 1 in Hsave.
  destruct (json_dump_file cwd (config_json name) _ w2)
    as [[[]|e3] w3] eqn:Hdump;
    rewrite json_dump_file_run in Hdump;
    apply write_node_wrote in Hdump as (Hw3 & _ & _); cbn [w_fs logged] in Hw3.
  2: { injection Hsave as _ <-. exists s1, (w_fs w2).
       split; [now right|]. now split. }
  assert (Hfs : w_fs w' = w_fs w3).
  { unfold bind in Hsave. rewrite get_persona_list_run in Hsave.
    destruct (node_of (w_fs w3) ROOT) as [[|c']|]; cbv zeta in Hsave;
      unfold ret in Hsave; injection Hsave as _ <-; reflexivity. }
  exists s1, (w_fs w2). rewrite Hfs.
  split; [now right|]. now split.
Qed.

(** Away from the copy and from [config.json], a save leaves every
    location as it was, or with a directory it had to make. *)
Lemma save_persona_frame (name audio : string) (k : sliders)
      (r : result save_result) (w w' : world) (q : key) :
  name <> "" -> audio <> "" ->
  save (Some name) (Some audio) k w = (r, w') ->
  q <> resolve cwd (copy_target cwd (w_fs w) audio (reference_of name audio)) ->
  q <> resolve cwd (config_json name) ->
  node_at (w_fs w') q = node_at (w_fs w) q
  \/ (node_at (w_fs w) q = None /\ node_at (w_fs w') q = Some Dir
      /\ length q <= length (resolve cwd (persona_dir name))).
Proof.
  intros Hname Haudio Hsave Hq1 Hq2.
  destruct (save_persona_writes _ _ _ _ _ _ Hname Haudio Hsave)
    as (s1 & s2 & Hs1 & H12 & H23).
  rewrite (wrote_at_other _ _ _ _ H23 Hq2), (wrote_at_other _ _ _ _ H12 Hq1).
  destruct Hs1 as [[-> _]|Hmk]; [now left|].
  apply (mkdirs_node_grows _ _ _ _ _ Hmk).
Qed.

(** *** Saving: the checks, and what a save leaves alone *)

(** [save_persona] checks the name first and the audio prompt second;
    when either is missing ([None] or empty) it raises its [gr.Error] at
    once: nothing is looked up, created or logged. *)
Theorem save_persona_requires_inputs (name audio : option string)
        (k : sliders) (w : world) :
  (falsy name = true ->
   save name audio k w =
   (Raise (mkExn GrError "Please enter a name for the persona."), w))
  /\ (falsy name = false -> falsy audio = true ->
      save name audio k w =
      (Raise (mkExn GrError "Audio prompt is required to save a persona."),
       w)).
Proof.
  split.
  - destruct name as [[|a n]|]; simpl; intros H;
      [reflexivity | discriminate | reflexivity].
  - destruct name as [[|a n]|]; simpl; try discriminate. intros _.
    destruct audio as [[|b m]|]; simpl; intros H;
      [reflexivity | discriminate | reflexivity].
Qed.

(** A save whose directories and copy went through but whose numbers
    [float] rejects: the exception of [float] leaves [save_persona] as it
    is, after the persona's directory has been made and the audio copied,
    and before [config.json] is touched.  A persona that had no
    [config.json] is left without one, so loading it reports the config
    as missing. *)
Theorem save_persona_bad_number (name audio t : string) (k : sliders)
        (e : exn) (w w1 w2 : world) :
  name <> "" -> audio <> "" ->
  os_makedirs cwd (persona_dir name) w = (Ok tt, w1) ->
  shutil_copy2 cwd audio (reference_of name audio) w1 = (Ok t, w2) ->
  fst (float_all float_of_str k w2) = Raise e ->
  save (Some name) (Some audio) k w = (Raise e, w2)
  /\ node_of (w_fs w2) (persona_dir name) = Some Dir
  /\ (exists c, node_of (w_fs w) audio = Some (File c)
                /\ node_of (w_fs w2) t = Some (File c))
  /\ node_of (w_fs w2) (config_json name) = node_of (w_fs w) (config_json name)
  /\ writes_opened (w_log w2) = writes_opened (w_log w)
  /\ (node_of (w_fs w) (config_json name) = None ->
      fst (load (Some name) w2) =
      Raise (mkExn GrError ("Config not found for persona: " ++ name))).
Proof.
  intros Hname Haudio Hmk Hcopy Hfloat.
  assert (Hpp : persona_dir name <> "") by now apply persona_dir_nonempty.
  pose proof (config_json_nonempty name) as Hcne.
  destruct (float_all_pure k w2) as [x Hx].
  rewrite Hx in Hfloat. simpl in Hfloat. subst x.
  assert (Hsave : save (Some name) (Some audio) k w = (Raise e, w2)).
  { rewrite save_persona_steps by assumption.
    unfold bind at 1. rewrite Hmk. unfold bind at 1. rewrite Hcopy.
    unfold bind at 1. now rewrite Hx. }
  pose proof (os_makedirs_log _ _ _ _ Hpp Hmk) as Hlog1.
  destruct (shutil_copy2_wrote _ _ _ _ _ Hcopy) as [_ Hlog2].
  rewrite os_makedirs_run in Hmk by assumption.
  destruct (mkdirs (persona_dir name) [] (resolve cwd (persona_dir name))
                   (w_fs w)) as [s1|e1] eqn:Emk; [|discriminate].
  injection Hmk as <-.
  apply shutil_copy2_ok_inv in Hcopy. cbv zeta in Hcopy. cbn [w_fs] in Hcopy.
  destruct Hcopy as (c & Hsrc & -> & Hsame & Htne & Htk & Hpar & Hw2).
  remember (resolve cwd (copy_target cwd s1 audio (reference_of name audio)))
    as tk eqn:Etk in *.
  assert (Hfs : w_fs w2 = store tk (File c) s1) by now rewrite Hw2.
  assert (Hpk : node_at s1 (resolve cwd (persona_dir name)) = Some Dir)
    by apply (mkdirs_node_target _ _ _ _ Emk).
  assert (Hcfg : node_of (w_fs w2) (config_json name) =
                 node_of (w_fs w) (config_json name)).
  { rewrite !node_of_nonempty by assumption. rewrite Hfs.
    rewrite node_at_store_other
      by (rewrite Etk; now apply copy_target_not_config).
    apply (mkdirs_node_longer _ _ _ _ Emk).
    rewrite config_key, length_app by assumption. simpl. lia. }
  split; [exact Hsave|]. split; [|split; [|split; [|split]]].
  - rewrite node_of_nonempty, Hfs by assumption.
    rewrite node_at_store_other; [assumption|].
    intros E. apply Htk. now rewrite E.
  - exists c. split.
    + rewrite node_of_nonempty in * by assumption.
      destruct (mkdirs_node_grows _ _ _ _ (resolve cwd audio) Emk)
        as [E|(_ & E & _)]; rewrite E in Hsrc; [assumption | discriminate].
    + rewrite node_of_nonempty, Hfs by assumption. rewrite <- Etk.
      apply node_at_store_same. intros E. apply Htk. now rewrite E.
  - exact Hcfg.
  - rewrite Hlog2. cbn [w_log]. rewrite !writes_opened_app. simpl.
    now rewrite !app_nil_r.
  - intros Hnone. rewrite <- Hcfg in Hnone.
    destruct name as [|a n]; [congruence|].
    rewrite load_persona_unfold. cbv zeta. now rewrite Hnone.
Qed.

(** Whatever way a save ends, nothing that was in the file system is
    gone: every directory is still a directory, every location that held
    something still holds something, and every file other than the copy's
    target and the persona's [config.json] has its content. *)
Theorem save_persona_keeps_other_files (name audio : string) (k : sliders)
        (r : result save_result) (w w' : world) :
  name <> "" -> audio <> "" ->
  save (Some name) (Some audio) k w = (r, w') ->
  (forall q, node_at (w_fs w) q = Some Dir -> node_at (w_fs w') q = Some Dir)
  /\ (forall q, node_at (w_fs w) q <> None -> node_at (w_fs w') q <> None)
  /\ (forall q c,
        node_at (w_fs w) q = Some (File c) ->
        q <> resolve cwd (copy_target cwd (w_fs w) audio
                                      (reference_of name audio)) ->
        q <> resolve cwd (config_json name) ->
        node_at (w_fs w') q = Some (File c)).
Proof.
  intros Hname Haudio Hsave.
  destruct (save_persona_writes _ _ _ _ _ _ Hname Haudio Hsave)
    as (s1 & s2 & Hs1 & H12 & H23).
  split; [|split].
  - intros q Hq. apply (wrote_at_dir _ _ _ _ H23), (wrote_at_dir _ _ _ _ H12).
    destruct Hs1 as [[-> _]|Hmk]; [assumption|].
    now apply (mkdirs_node_keeps _ _ _ _ Hmk).
  - intros q Hq. apply (wrote_at_stays _ _ _ _ H23), (wrote_at_stays _ _ _ _ H12).
    destruct Hs1 as [[-> _]|Hmk]; [assumption|].
    destruct (node_at (w_fs w) q) as [n|] eqn:E; [|congruence].
    now rewrite (mkdirs_node_keeps _ _ _ _ Hmk _ _ E).
  - intros q c Hq Hq1 Hq2.
    rewrite (wrote_at_other _ _ _ _ H23 Hq2), (wrote_at_other _ _ _ _ H12 Hq1).
    destruct Hs1 as [[-> _]|Hmk]; [assumption|].
    now apply (mkdirs_node_keeps _ _ _ _ Hmk).
Qed.

(** What [load_persona] answers depends on the file system only through
    the persona's [config.json]. *)
Lemma load_persona_reads_config (name : string) (w1 w2 : world) :
  node_of (w_fs w1) (config_json name) = node_of (w_fs w2) (config_json name) ->
  fst (load (Some name) w1) = fst (load (Some name) w2).
Proof.
  intros H. destruct name as [|a n]; [reflexivity|].
  rewrite !load_persona_unfold. cbv zeta. rewrite H.
  destruct (node_of (w_fs w2) _) as [[|[b|doc]]|]; try reflexivity.
  unfold bind, config_get, join_value, ret, raise.
  destruct doc; try reflexivity.
  repeat case_scrutinee; reflexivity.
Qed.

(** Saving a persona, however the save ends, changes nothing for a
    persona of another name: its [config.json] is what it was and a load
    gives the same answer as before. *)
Theorem save_persona_leaves_others (name other audio : string) (k : sliders)
        (r : result save_result) (w w' : world) :
  valid_name name = true -> valid_name other = true -> other <> name ->
  audio <> "" ->
  save (Some name) (Some audio) k w = (r, w') ->
  node_of (w_fs w') (config_json other) = node_of (w_fs w) (config_json other)
  /\ fst (load (Some other) w') = fst (load (Some other) w).
Proof.
  intros Hn Ho Hne Haudio Hsave.
  destruct (proj1 (valid_name_spec _) Hn) as (Hname & _).
  destruct (proj1 (valid_name_spec _) Ho) as (Hother & _).
  set (R := resolve cwd ROOT).
  assert (Hpk : resolve cwd (persona_dir name) = (R ++ [name])%list)
    by (apply resolve_join_name; [apply PERSONAS_DIR_nonempty | assumption]).
  assert (Hck : resolve cwd (config_json other) =
                ((R ++ [other]) ++ ["config.json"])%list).
  { rewrite config_key by assumption. f_equal.
    apply resolve_join_name; [apply PERSONAS_DIR_nonempty | assumption]. }
  assert (Hnode : node_at (w_fs w') (resolve cwd (config_json other)) =
                  node_at (w_fs w) (resolve cwd (config_json other))).
  { destruct (save_persona_frame name audio k r w w'
                (resolve cwd (config_json other)) Hname Haudio Hsave)
      as [H|(_ & _ & Hlen)].
    - destruct (copy_target_key (w_fs w) name audio Hname) as [E|[E|E]];
        rewrite E, Hck, Hpk; intros H.
      + apply app_inj_tail in H as [_ H].
        unfold reference, append in H. discriminate.
      + apply (f_equal (@length string)) in H.
        rewrite !length_app in H. simpl in H. lia.
      + apply (f_equal (@length string)) in H.
        rewrite !length_app in H. simpl in H. lia.
    - rewrite Hck, config_key, Hpk by assumption. intros H.
      apply app_inj_tail in H as [H _]. apply app_inj_tail in H as [_ H].
      congruence.
    - exact H.
    - rewrite Hck, Hpk, !length_app in Hlen. simpl in Hlen. lia. }
  assert (Hcfg : node_of (w_fs w') (config_json other) =
                 node_of (w_fs w) (config_json other)).
  { rewrite !node_of_nonempty by apply config_json_nonempty. exact Hnode. }
  split; [exact Hcfg | now apply load_persona_reads_config].
Qed.

(** A save stores the audio under [reference<ext>] and removes nothing:
    a reference file with another extension, left by an earlier save of
    the same persona, stays in the persona's directory with its
    content. *)
Theorem save_persona_leaves_old_reference (name audio ext1 : string)
        (c1 : content) (k : sliders) (r : result save_result) (w w' : world) :
  name <> "" -> audio <> "" ->
  mem_char sep ext1 = false -> ext1 <> kept_ext audio ->
  node_of (w_fs w) (join (persona_dir name) (reference ext1))
  = Some (File c1) ->
  save (Some name) (Some audio) k w = (r, w') ->
  node_of (w_fs w') (join (persona_dir name) (reference ext1))
  = Some (File c1).
Proof.
  intros Hname Haudio Hsep Hext Hold Hsave.
  assert (Hne : join (persona_dir name) (reference ext1) <> "").
  { apply join_nonempty. unfold reference, append. discriminate. }
  assert (Hk : resolve cwd (join (persona_dir name) (reference ext1)) =
               (resolve cwd (persona_dir name) ++ [reference ext1])%list).
  { apply resolve_join_name; [now apply persona_dir_nonempty|].
    now apply reference_name_valid. }
  rewrite node_of_nonempty in * by assumption.
  destruct (save_persona_frame name audio k r w w'
              (resolve cwd (join (persona_dir name) (reference ext1)))
              Hname Haudio Hsave)
    as [H|(H & _)]; [| |now rewrite H|congruence].
  - destruct (copy_target_key (w_fs w) name audio Hname) as [E|[E|E]];
      rewrite E, Hk; intros H.
    + apply app_inj_tail in H as [_ H]. apply Hext.
      unfold reference in H. cbv [append] in H. now injection H.
    + apply (f_equal (@length string)) in H.
      rewrite !length_app in H. simpl in H. lia.
    + apply (f_equal (@length string)) in H.
      rewrite !length_app in H. simpl in H. lia.
  - rewrite Hk, config_key by assumption. apply reference_neq_config.
Qed.

(** A save that returns had a regular file as its source and has stored
    that file's content at the copy's target, which is [reference<ext>]
    in the persona's directory unless a directory is in that place.  The
    source is copied, not moved: it still holds its content (unless the
    source was the persona's own [config.json], which the save has
    rewritten). *)
Theorem save_persona_stores_copy (name audio : string) (k : sliders)
        (r : save_result) (w w' : world) :
  save (Some name) (Some audio) k w = (Ok r, w') ->
  let t := copy_target cwd (w_fs w) audio (reference_of name audio) in
  exists c,
    node_of (w_fs w) audio = Some (File c)
    /\ node_of (w_fs w') t = Some (File c)
    /\ (node_of (w_fs w) (reference_of name audio) <> Some Dir ->
        t = reference_of name audio)
    /\ (resolve cwd audio <> resolve cwd (config_json name) ->
        node_of (w_fs w') audio = Some (File c)).
Proof.
  intros Hsave t.
  destruct (save_persona_needs_inputs _ _ _ _ _ _ Hsave)
    as (n & a & [= <-] & [= <-] & Hname & Haudio).
  destruct (save_persona_inv _ _ _ _ _ _ Hsave)
    as (s1 & c & P & Hmk & Hsrc & Hsame & Htne & Htk & Hpar & _ & Hck & Hfs
        & _).
  cbv zeta in *.
  rewrite (copy_target_after_mkdirs name audio (w_fs w) s1 Hname Hmk) in *.
  fold t in Hsame, Htne, Htk, Hpar, Hck, Hfs.
  assert (Htc : resolve cwd t <> resolve cwd (config_json name))
    by now apply copy_target_not_config.
  assert (Hat : resolve cwd audio <> resolve cwd t).
  { intros E. unfold same_file in Hsame.
    rewrite Hsrc, (node_of_nonempty s1 t Htne) in Hsame.
    rewrite <- E in Hsame.
    rewrite <- (node_of_nonempty s1 audio Haudio), Hsrc in Hsame.
    rewrite key_eqb_refl in Hsame. discriminate. }
  exists c. split; [|split; [|split]].
  - rewrite node_of_nonempty in * by assumption.
    destruct (mkdirs_node_grows _ _ _ _ (resolve cwd audio) Hmk)
      as [E|(_ & E & _)]; rewrite E in Hsrc; [assumption | discriminate].
  - rewrite node_of_nonempty, Hfs by assumption.
    rewrite node_at_store_other by (intros E; now apply Htc).
    apply node_at_store_same. intros E. apply Htk. now rewrite E.
  - intros Hnd. unfold t, copy_target.
    destruct (node_of (w_fs w) (reference_of name audio)) as [[|?]|];
      [congruence | reflexivity | reflexivity].
  - intros Hac. rewrite node_of_nonempty, Hfs by assumption.
    rewrite !node_at_store_other by (intros E; congruence).
    now rewrite <- node_of_nonempty.
Qed.

(** The persona's name is joined onto the root as it is: a name that is
    an absolute path replaces the root, so the save makes its directory
    and writes its [config.json] at that path. *)
Theorem save_persona_absolute_name (name audio : string) (k : sliders)
        (r : save_result) (w w' : world) :
  starts_with_sep name = true ->
  save (Some name) (Some audio) k w = (Ok r, w') ->
  persona_dir name = name
  /\ node_of (w_fs w') name = Some Dir
  /\ exists P,
       node_of (w_fs w') (join name "config.json") =
       Some (File (Json (config P (kept_ext audio)))).
Proof.
  intros Habs Hsave.
  assert (Hjoin : persona_dir name = name) by (unfold join; now rewrite Habs).
  destruct (save_persona_post _ _ _ _ _ _ Hsave)
    as (Hname & _ & P & _ & Hdirs & Hcfg & _).
  rewrite Hjoin in *.
  split; [reflexivity|]. split; [|now exists P].
  rewrite node_of_nonempty by assumption.
  apply (dirs_along_target (resolve cwd name) [] (w_fs w') eq_refl Hdirs).
Qed.

(** *** Generating: what is wrapped, what is written *)

Lemma generate_audio_steps (a : ascii) (t : string) (audio : option string)
      (k : sliders) (w : world) :
  let text := String a t in
  generate (Some text) audio k w =
  try_except
    (P <- float_all float_of_str k ;;
     wav <- call_model_generate model_generate (mkGenArgs text P audio) ;;
     temp_path <- named_temporary_file cwd temp_name ".wav" ;;
     ta_save cwd wav_encode temp_path (cpu wav) model_sr ;;;
     ret temp_path)
    (fun e => raise (mkExn GrError ("Generation failed: " ++ exn_str e)))
    (logged w [EvPrint ("Generating for text: "
                          ++ substring 0 50 text ++ "...")]).
Proof. reflexivity. Qed.

(** Writing the result out touches the temporary file and nothing else,
    and does not call the model. *)
Lemma write_out_wrote (wav : tensor) (w1 : world) :
  let '(r, w') :=
    (temp_path <- named_temporary_file cwd temp_name ".wav" ;;
     ta_save cwd wav_encode temp_path (cpu wav) model_sr ;;;
     ret temp_path) w1 in
  (forall q, q <> resolve cwd (temp_name (w_fs w1) ".wav") ->
             node_at (w_fs w') q = node_at (w_fs w1) q)
  /\ invocations (w_log w') = invocations (w_log w1)
  /\ w_copy_fault w' = w_copy_fault w1
  /\ exists more, w_log w' = (w_log w1 ++ more)%list.
Proof.
  unfold named_temporary_file, ta_save, write_node,
    emit, get_fs, put_fs, ret, raise, bind.
  simpl.
  repeat case_scrutinee;
    (split;
     [ intros q Hq; rewrite ?node_at_store_other by congruence; reflexivity
     | split;
       [ rewrite ?invocations_app; simpl; rewrite ?app_nil_r; reflexivity
       | split;
         [ reflexivity
         | eexists; rewrite <- ?app_assoc; reflexivity ] ] ]).
Qed.

Lemma call_model_generate_run (a : gen_args) (w : world) :
  call_model_generate model_generate a w =
  (model_generate (w_fs w) a, logged w [EvGenerate a]).
Proof. reflexivity. Qed.

(** The body of the [try] of [generate_audio], from the world after the
    [print]. *)
Lemma generate_body_run (text : string) (audio : option string)
      (k : sliders) (w1 : world) :
  let '(r, w') :=
    try_except
      (P <- float_all float_of_str k ;;
       wav <- call_model_generate model_generate (mkGenArgs text P audio) ;;
       temp_path <- named_temporary_file cwd temp_name ".wav" ;;
       ta_save cwd wav_encode temp_path (cpu wav) model_sr ;;;
       ret temp_path)
      (fun e => raise (mkExn GrError ("Generation failed: " ++ exn_str e)))
      w1 in
  (forall q, q <> resolve cwd (temp_name (w_fs w1) ".wav") ->
             node_at (w_fs w') q = node_at (w_fs w1) q)
  /\ (invocations (w_log w') = invocations (w_log w1)
      \/ exists P, invocations (w_log w') =
                   (invocations (w_log w1) ++ [mkGenArgs text P audio])%list)
  /\ w_copy_fault w' = w_copy_fault w1
  /\ (forall e, r = Raise e ->
        exists e0, e = mkExn GrError ("Generation failed: " ++ exn_str e0))
  /\ exists more, w_log w' = (w_log w1 ++ more)%list.
Proof.
  unfold try_except. unfold bind at 1.
  destruct (float_all_pure k w1) as [x Hx]. rewrite Hx.
  destruct x as [P|e1].
  2: { unfold raise. split; [reflexivity|]. split; [now left|].
       split; [reflexivity|]. split; [intros e [= <-]; now exists e1|].
       exists []. now rewrite app_nil_r. }
  unfold bind at 1. rewrite call_model_generate_run.
  destruct (model_generate (w_fs w1) (mkGenArgs text P audio)) as [wav|e2].
  2: { unfold raise. cbn [w_fs w_log w_copy_fault logged].
       split; [reflexivity|]. split.
       - right. exists P. now rewrite invocations_app.
       - split; [reflexivity|]. split; [intros e [= <-]; now exists e2|].
         now eexists. }
  match goal with
  | |- context [bind (named_temporary_file _ _ _) ?f ?w2] =>
      pose proof (write_out_wrote wav w2) as Hout;
        destruct (bind (named_temporary_file cwd temp_name ".wav") f w2)
        as [[p|e3] w3]
  end; cbn [w_fs w_log w_copy_fault logged] in Hout;
    destruct Hout as (Hfs & Hinv & Hfault & more & Hlog).
  - split; [exact Hfs|]. split.
    + right. exists P. rewrite Hinv, invocations_app. reflexivity.
    + split; [exact Hfault|]. split; [intros e; discriminate|].
      eexists. rewrite Hlog, <- app_assoc. reflexivity.
  - unfold raise. split; [exact Hfs|]. split.
    + right. exists P. rewrite Hinv, invocations_app. reflexivity.
    + split; [exact Hfault|]. split; [intros e [= <-]; now exists e3|].
      eexists. cbn [w_log]. rewrite Hlog, <- app_assoc. reflexivity.
Qed.

(** A slider value that [float] rejects, although it comes up before the
    model is reached, is reported like a failure of the model: the
    [gr.Error] carries ["Generation failed: "] and the text of the
    exception of [float].  The model is not called and no file is
    written; the [print] is all that has happened. *)
Theorem generate_audio_bad_number (text : string) (audio : option string)
        (k : sliders) (e : exn) (w : world) :
  text <> "" ->
  fst (float_all float_of_str k w) = Raise e ->
  generate (Some text) audio k w =
  (Raise (mkExn GrError ("Generation failed: " ++ exn_str e)),
   logged w [EvPrint ("Generating for text: "
                        ++ substring 0 50 text ++ "...")]).
Proof.
  intros Ht Hfloat. destruct text as [|a t]; [congruence|].
  rewrite generate_audio_steps. cbv zeta.
  destruct (float_all_pure k w) as [x Hx].
  rewrite Hx in Hfloat. simpl in Hfloat. subst x.
  unfold try_except. unfold bind at 1. now rewrite Hx.
Qed.

Lemma write_node_stores (p : string) (c : content) (w : world) :
  p <> "" ->
  node_at (w_fs w) (resolve cwd p) <> Some Dir ->
  node_at (w_fs w) (removelast (resolve cwd p)) = Some Dir ->
  write_node cwd p c w =
  (Ok tt, mkWorld (store (resolve cwd p) (File c) (w_fs w))
                  (w_log w) (w_copy_fault w)).
Proof.
  intros H1 H2 H3. unfold write_node, bind, get_fs, put_fs.
  apply String.eqb_neq in H1. rewrite H1, H3.
  destruct (node_at (w_fs w) (resolve cwd p)) as [[|c0]|];
    [congruence | reflexivity | reflexivity].
Qed.

(** When the model answers and the temporary name is free in an existing
    directory, [generate_audio] returns that name, and the file of that
    name holds the encoding of the samples at the model's rate, whatever
    device the tensor was on.  The run has printed, called the model,
    made the temporary file and saved, in that order. *)
Theorem generate_audio_writes_wav (text : string) (audio : option string)
        (P : ParameterSet) (wav : tensor) (w : world) :
  let p := temp_name (w_fs w) ".wav" in
  let args := mkGenArgs text P audio in
  text <> "" ->
  model_generate (w_fs w) args = Ok wav ->
  p <> "" ->
  node_of (w_fs w) p = None ->
  node_at (w_fs w) (removelast (resolve cwd p)) = Some Dir ->
  exists w',
    generate (Some text) audio (as_sliders P) w = (Ok p, w')
    /\ node_of (w_fs w') p =
       Some (File (Raw (wav_encode (samples wav) model_sr)))
    /\ w_log w' =
       (w_log w ++ [EvPrint ("Generating for text: "
                               ++ substring 0 50 text ++ "...");
                    EvGenerate args; EvTempFile p; EvTaSave p])%list
    /\ w_copy_fault w' = w_copy_fault w.
Proof.
  intros p args Ht Hgen Hp Hnone Hpar. subst args.
  destruct text as [|a t]; [congruence|].
  rewrite generate_audio_unfold. cbv zeta. rewrite Hgen.
  set (k := resolve cwd p) in *.
  assert (Hk : node_at (w_fs w) k = None)
    by (unfold k; now rewrite <- node_of_nonempty).
  assert (Hknil : k <> []) by (intros E; rewrite E in Hk; discriminate).
  assert (Hkpar : k <> removelast k).
  { intros E. rewrite <- E in Hpar. congruence. }
  unfold try_except. unfold bind at 1.
  unfold named_temporary_file, get_fs, emit, bind.
  cbn [w_fs w_log w_copy_fault logged]. fold p. rewrite Hnone.
  cbn [is_some].
  rewrite write_node_stores; cbn [w_fs w_log w_copy_fault]; fold k;
    [| assumption | congruence | assumption ].
  unfold ret at 1. unfold ta_save, bind, emit.
  cbn [w_fs w_log w_copy_fault].
  rewrite write_node_stores; cbn [w_fs w_log w_copy_fault]; fold k;
    [| assumption
     | rewrite node_at_store_same by assumption; discriminate
     | rewrite node_at_store_other by assumption; assumption ].
  unfold ret. eexists. split; [reflexivity|]. cbn [w_fs w_log w_copy_fault].
  split; [|split; [|reflexivity]].
  - rewrite node_of_nonempty by assumption. fold k.
    now apply node_at_store_same.
  - rewrite <- !app_assoc. reflexivity.
Qed.

(** [generate_audio] raises nothing but [gr.Error]: the request for a
    text, when there is none, and otherwise the report of a failed
    generation, which wraps whatever exception came up. *)
Theorem generate_audio_raises_gr_error (text audio : option string)
        (k : sliders) (e : exn) (w w' : world) :
  generate text audio k w = (Raise e, w') ->
  exn_cls e = GrError
  /\ ((falsy text = true /\ w' = w
       /\ e = mkExn GrError "Please enter text to generate.")
      \/ (falsy text = false
          /\ exists e0,
               e = mkExn GrError ("Generation failed: " ++ exn_str e0))).
Proof.
  intros H. destruct text as [[|a t]|].
  1, 3: injection H as <- <-; split; [reflexivity | left; now repeat split].
  rewrite generate_audio_steps in H. cbv zeta in H.
  match type of H with
  | try_except ?b ?h ?w1 = _ =>
      pose proof (generate_body_run (String a t) audio k w1) as Hrun;
        rewrite H in Hrun
  end.
  destruct Hrun as (_ & _ & _ & He & _).
  destruct (He e eq_refl) as [e0 ->].
  split; [reflexivity|]. right. split; [reflexivity | now exists e0].
Qed.

(** Whatever way [generate_audio] ends, the only location of the file
    system it can have changed is the temporary file: the personas are
    as they were.  It has called the model at most once, and only after a
    text was given. *)
Theorem generate_audio_touches_temp_only (text audio : option string)
        (k : sliders) (r : result string) (w w' : world) :
  generate text audio k w = (r, w') ->
  (forall q, q <> resolve cwd (temp_name (w_fs w) ".wav") ->
             node_at (w_fs w') q = node_at (w_fs w) q)
  /\ (invocations (w_log w') = invocations (w_log w)
      \/ exists t P, text = Some t /\ t <> ""
           /\ invocations (w_log w') =
              (invocations (w_log w) ++ [mkGenArgs t P audio])%list)
  /\ w_copy_fault w' = w_copy_fault w.
Proof.
  intros H. destruct text as [[|a t]|].
  1, 3: injection H as _ <-; split; [reflexivity | split; [now left | reflexivity]].
  rewrite generate_audio_steps in H. cbv zeta in H.
  match type of H with
  | try_except ?b ?h ?w1 = _ =>
      pose proof (generate_body_run (String a t) audio k w1) as Hrun;
        rewrite H in Hrun
  end.
  cbn [w_fs w_log w_copy_fault logged] in Hrun.
  destruct Hrun as (Hfs & Hinv & Hfault & _ & _).
  rewrite invocations_app in Hinv. simpl in Hinv. rewrite app_nil_r in Hinv.
  split; [exact Hfs|]. split; [|exact Hfault].
  destruct Hinv as [Hinv|[P Hinv]]; [now left|].
  right. exists (String a t), P. split; [reflexivity|].
  split; [discriminate | exact Hinv].
Qed.

(** *** Loading: what it reads, and how it fails *)

(** [load_persona] only reads: whatever the name and however the load
    ends, the file system is as before, no file has been opened for
    writing and the model has not been called. *)
Theorem load_persona_read_only (name : option string) (w : world) :
  let w' := snd (load name w) in
  w_fs w' = w_fs w
  /\ w_copy_fault w' = w_copy_fault w
  /\ writes_opened (w_log w') = writes_opened (w_log w)
  /\ invocations (w_log w') = invocations (w_log w).
Proof.
  destruct name as [[|a n]|]; cbv zeta.
  1, 3: simpl; now repeat split.
  rewrite load_persona_unfold. cbv zeta.
  destruct (node_of (w_fs w) _) as [[|[b|doc]]|];
    unfold bind, config_get, join_value, ret, raise;
    repeat case_scrutinee; cbn [snd w_fs w_log w_copy_fault logged];
    rewrite ?writes_opened_app, ?invocations_app; simpl;
    rewrite ?app_nil_r; now repeat split.
Qed.



(** *** Saving again, and the dropdown *)

Lemma store_same (k : key) (n : node) (s : fs) :
  lookup k s = Some n -> store k n s = s.
Proof.
  induction s as [|[k' n'] s IH]; simpl; [discriminate|].
  destruct (key_eqb k' k).
  - now intros [= ->].
  - intros H. now rewrite IH.
Qed.

Lemma node_at_store_same_fs (k : key) (n : node) (s : fs) :
  k <> [] -> node_at s k = Some n -> store k n s = s.
Proof. destruct k; [congruence|]. intros _. apply store_same. Qed.

Lemma get_persona_list_fs (w : world) : w_fs (snd (persona_list w)) = w_fs w.
Proof.
  rewrite get_persona_list_run.
  destruct (node_of (w_fs w) ROOT) as [[|c]|]; reflexivity.
Qed.

(** The listing is a function of the file system. *)
Lemma get_persona_list_fst (wa wb : world) :
  w_fs wa = w_fs wb -> fst (persona_list wa) = fst (persona_list wb).
Proof.
  intros H. rewrite !get_persona_list_run, H.
  destruct (node_of (w_fs wb) ROOT) as [[|c]|]; reflexivity.
Qed.

(** The choices a save returns are the listing of the file system it
    leaves. *)
Lemma save_persona_choices_run (name audio : string) (k : sliders)
      (r : save_result) (w w' : world) :
  save (Some name) (Some audio) k w = (Ok r, w') ->
  fst (persona_list w') = Ok (sv_choices r).
Proof.
  intros Hsave.
  destruct (save_persona_needs_inputs _ _ _ _ _ _ Hsave)
    as (n & a & [= <-] & [= <-] & Hname & Haudio).
  rewrite save_persona_steps in Hsave by assumption.
  apply bind_ok_inv in Hsave as (? & wa & _ & Hsave).
  apply bind_ok_inv in Hsave as (? & wb & _ & Hsave).
  apply bind_ok_inv in Hsave as (P & wc & _ & Hsave).
  apply bind_ok_inv in Hsave as (? & wd & _ & Hsave).
  apply bind_ok_inv in Hsave as (ch & we & Hlist & Hret).
  injection Hret as <- <-. simpl.
  pose proof (get_persona_list_fs wd) as Hfs. rewrite Hlist in Hfs.
  simpl in Hfs. rewrite (get_persona_list_fst we wd Hfs). now rewrite Hlist.
Qed.

(** A second save of a persona from the same audio path: it goes
    through, and what it writes is known from the state the first save
    left. *)
Lemma save_persona_again_fs (name audio : string) (k1 k2 : sliders)
      (P2 : ParameterSet) (r1 : save_result) (w0 w1 : world) :
  save (Some name) (Some audio) k1 w0 = (Ok r1, w1) ->
  (forall w, float_all float_of_str k2 w = (Ok P2, w)) ->
  let tk := resolve cwd (copy_target cwd (w_fs w1) audio
                                     (reference_of name audio)) in
  let ck := resolve cwd (config_json name) in
  exists c c' choices w2,
    save (Some name) (Some audio) k2 w1 =
    (Ok (mkSaved choices name "Persona saved!"), w2)
    /\ w_fs w2 = store ck (File (Json (config P2 (kept_ext audio))))
                       (store tk (File c') (w_fs w1))
    /\ tk <> [] /\ ck <> []
    /\ node_at (w_fs w1) tk = Some (File c)
    /\ node_of (w_fs w1) audio = Some (File c')
    /\ (resolve cwd audio <> ck -> c' = c).
Proof.
  intros Hfirst Hfloat2 tk0 ck0.
  destruct (save_persona_post _ _ _ _ _ _ Hfirst)
    as (Hname & Haudio & _ & _ & Hdirs & _).
  destruct (save_persona_inv _ _ _ _ _ _ Hfirst)
    as (s1 & c & P1 & _ & Hsrc & Hsame & Htne & Htk & Hpar & _ & Hck & Hfs
        & Hfault & Hroot & _).
  set (dst := reference_of name audio) in *.
  set (t := copy_target cwd s1 audio dst) in *.
  set (tk := resolve cwd t) in *.
  set (ck := resolve cwd (config_json name)) in *.
  set (s2 := store tk (File c) s1) in *.
  pose proof (config_json_nonempty name) as Hcne.
  pose proof (reference_of_nonempty name audio) as Hdne. fold dst in Hdne.
  assert (Htc : tk <> ck) by now apply copy_target_not_config.
  assert (Htnil : tk <> []) by (intros E; apply Htk; now rewrite E).
  assert (Hcnil : ck <> []).
  { unfold ck. rewrite config_key by assumption.
    intros E. symmetry in E. now apply app_cons_not_nil in E. }
  assert (Hat : resolve cwd audio <> tk).
  { intros E. unfold same_file in Hsame.
    rewrite Hsrc in Hsame. rewrite (node_of_nonempty s1 t Htne) in Hsame.
    fold tk in Hsame. rewrite <- E in Hsame.
    rewrite <- (node_of_nonempty s1 audio Haudio), Hsrc in Hsame.
    rewrite key_eqb_refl in Hsame. discriminate. }
  assert (Htk3 : node_at (w_fs w1) tk = Some (File c)).
  { rewrite Hfs, node_at_store_other by (intros E; now apply Htc).
    now apply node_at_store_same. }
  assert (Hck3 : exists j, node_at (w_fs w1) ck = Some (File j)).
  { eexists. rewrite Hfs. now apply node_at_store_same. }
  assert (Hsrc3 : exists c', node_of (w_fs w1) audio = Some (File c')
                             /\ (resolve cwd audio <> ck -> c' = c)).
  { rewrite node_of_nonempty by assumption.
    destruct (list_eq_dec string_dec (resolve cwd audio) ck) as [E|E].
    - rewrite E. destruct Hck3 as [j Hj]. exists j.
      split; [exact Hj | congruence].
    - exists c. split; [|reflexivity]. rewrite Hfs.
      rewrite node_at_store_other by (intros E'; apply E; now symmetry).
      unfold s2.
      rewrite node_at_store_other by (intros E'; apply Hat; now symmetry).
      now rewrite <- node_of_nonempty. }
  assert (Hpar3 : node_at (w_fs w1) (removelast tk) = Some Dir).
  { assert (Hp2 : node_at s2 (removelast tk) = Some Dir).
    { unfold s2. rewrite node_at_store_other; [assumption|].
      intros E. apply Htk. now rewrite E. }
    rewrite Hfs, node_at_store_other; [assumption|].
    intros E. apply Hck. now rewrite E. }
  assert (Htarget : copy_target cwd (w_fs w1) audio dst = t).
  { unfold t, copy_target.
    rewrite !(node_of_nonempty _ dst Hdne).
    assert (Hdc : ck <> resolve cwd dst).
    { unfold ck, dst. rewrite config_key, reference_key by assumption.
      intros E. symmetry in E. revert E. apply reference_neq_config. }
    rewrite Hfs, node_at_store_other by assumption.
    destruct (is_dir (node_at s1 (resolve cwd dst))) eqn:Hd.
    - assert (Hne : tk <> resolve cwd dst).
      { intros E. apply Htk. rewrite E.
        destruct (node_at s1 (resolve cwd dst)) as [[|?]|]; easy. }
      unfold s2. rewrite node_at_store_other by assumption. now rewrite Hd.
    - assert (E : tk = resolve cwd dst).
      { unfold tk, t, copy_target.
        now rewrite (node_of_nonempty _ dst Hdne), Hd. }
      unfold s2. rewrite E, node_at_store_same; [reflexivity|].
      now rewrite <- E. }
  assert (Etk0 : tk0 = tk) by (unfold tk0, tk; now rewrite Htarget).
  destruct Hsrc3 as (c' & Hsrc3 & Hcc).
  destruct (save_persona_run_ok name audio k2 P2 c' (w_fs w1) w1)
    as (choices & w2 & Hsave & Hfs2 & _); try assumption.
  - now apply dirs_along_mkdirs.
  - fold dst. rewrite Htarget. unfold same_file.
    apply key_eqb_neq in Hat. fold tk. rewrite Hat. now rewrite andb_false_r.
  - fold dst. now rewrite Htarget.
  - fold dst. rewrite Htarget. fold tk. rewrite Htk3. discriminate.
  - fold dst. rewrite Htarget. exact Hpar3.
  - fold ck. destruct Hck3 as [j ->]. discriminate.
  - intros c''. rewrite <- node_of_nonempty by apply PERSONAS_DIR_nonempty.
    apply Hroot.
  - fold dst. rewrite Htarget. fold tk. intros E.
    specialize (Hroot c).
    rewrite node_of_nonempty in Hroot by apply PERSONAS_DIR_nonempty.
    apply Hroot. now rewrite E.
  - exists c, c', choices, w2. rewrite Etk0.
    split; [exact Hsave|]. split.
    + rewrite Hfs2. fold dst. now rewrite Htarget.
    + repeat split; assumption.
Qed.

(** Saving a persona a second time with the same inputs changes nothing:
    the second save returns what the first returned and leaves the file
    system as the first left it.  (The source must not be the persona's
    own [config.json], which the first save has rewritten.) *)
Theorem save_persona_twice (name audio : string) (k : sliders)
        (r1 : save_result) (w0 w1 : world) :
  save (Some name) (Some audio) k w0 = (Ok r1, w1) ->
  resolve cwd audio <> resolve cwd (config_json name) ->
  exists w2,
    save (Some name) (Some audio) k w1 = (Ok r1, w2)
    /\ w_fs w2 = w_fs w1.
Proof.
  intros Hfirst Hac.
  destruct (save_persona_post _ _ _ _ _ _ Hfirst)
    as (Hname & Haudio & P & HP & _ & Hcfg & _).
  destruct (save_persona_inv _ _ _ _ _ _ Hfirst)
    as (_ & _ & _ & _ & _ & _ & _ & _ & _ & _ & _ & _ & _ & _ & Hval & Hmsg).
  destruct (save_persona_again_fs name audio k k P r1 w0 w1 Hfirst HP)
    as (c & c' & choices & w2 & Hsave & Hfs & Htnil & Hcnil & Htk & _ & Hcc).
  rewrite (Hcc Hac) in Hfs.
  rewrite node_of_nonempty in Hcfg by apply config_json_nonempty.
  rewrite (node_at_store_same_fs _ _ _ Htnil Htk) in Hfs.
  rewrite (node_at_store_same_fs _ _ _ Hcnil Hcfg) in Hfs.
  exists w2. split; [|exact Hfs].
  rewrite Hsave. f_equal. f_equal.
  pose proof (save_persona_choices_run _ _ _ _ _ _ Hfirst) as H1.
  pose proof (save_persona_choices_run _ _ _ _ _ _ Hsave) as H2.
  rewrite (get_persona_list_fst w2 w1 Hfs), H1 in H2.
  injection H2 as H2. simpl in H2.
  destruct r1 as [ch v m]. simpl in *. now subst.
Qed.

Lemma dirs_along_app (a b : list string) :
  forall done s, dirs_along s done (a ++ b) -> dirs_along s done a.
Proof.
  induction a as [|x a IH]; intros done s; simpl; [trivial|].
  intros [H1 H2]. split; [assumption | now apply IH].
Qed.

Lemma node_at_snoc (s : fs) (k : key) (n : string) :
  node_at s (k ++ [n])%list = lookup (k ++ [n])%list s.
Proof. unfold node_at. now destruct k. Qed.

(** The dropdown a save returns: its value is the name that was saved,
    and its choices are the listing of the root, ascending and without
    repetition, the same a refresh gives next.  The saved name is among
    the choices exactly when it is a plain entry name: a name with a
    separator in it, or ["."] or [".."], is saved somewhere else than in
    an entry of that name, and the dropdown is then given a value that is
    not one of its choices. *)
Theorem save_persona_choices (name audio : string) (k : sliders)
        (r : save_result) (w w' : world) :
  names_valid (w_fs w) ->
  save (Some name) (Some audio) k w = (Ok r, w') ->
  sv_value r = name
  /\ sv_message r = "Persona saved!"
  /\ (In name (sv_choices r) <-> valid_name name = true)
  /\ NoDup (sv_choices r)
  /\ StronglySorted (fun a b => String.leb a b = true) (sv_choices r)
  /\ fst (refresh_personas app_file cwd w') = Ok (sv_choices r).
Proof.
  intros Hvalid Hsave.
  pose proof (proj1 program_keeps_names_valid (Some name) (Some audio) k
                    w (Ok r) w' Hsave Hvalid) as Hvalid'.
  pose proof (save_persona_choices_run _ _ _ _ _ _ Hsave) as Hch.
  destruct (save_persona_post _ _ _ _ _ _ Hsave)
    as (Hname & _ & _ & _ & Hdirs & _ & _ & Hroot).
  destruct (save_persona_inv _ _ _ _ _ _ Hsave)
    as (_ & _ & _ & _ & _ & _ & _ & _ & _ & _ & _ & _ & _ & _ & Hval & Hmsg).
  split; [exact Hval|]. split; [exact Hmsg|].
  set (R := resolve cwd ROOT).
  assert (Hin : valid_name name = true ->
                node_of (w_fs w') ROOT = Some Dir
                /\ lookup (R ++ [name])%list (w_fs w') = Some Dir).
  { intros Hv.
    rewrite (resolve_join_name cwd ROOT name PERSONAS_DIR_nonempty Hv) in Hdirs.
    fold R in Hdirs. split.
    - rewrite node_of_nonempty by apply PERSONAS_DIR_nonempty.
      apply (dirs_along_target R [] (w_fs w') eq_refl).
      now apply dirs_along_app in Hdirs.
    - rewrite <- node_at_snoc.
      apply (dirs_along_target (R ++ [name])%list [] (w_fs w') eq_refl Hdirs). }
  rewrite get_persona_list_run in Hch.
  destruct (node_of (w_fs w') ROOT) as [[|c]|] eqn:Eroot.
  - cbv zeta in Hch. simpl in Hch. injection Hch as Hch.
    destruct (listed_dirs_spec (w_fs w') Hvalid') as (Hmem & Hnd & Hsorted).
    rewrite Hch in Hmem, Hnd, Hsorted. fold R in Hmem.
    split; [|split; [exact Hnd | split; [exact Hsorted|]]].
    + rewrite Hmem. split.
      * intros Hd. apply (entries_valid R (w_fs w') name Hvalid').
        apply In_entries. congruence.
      * intros Hv. now apply Hin.
    + unfold refresh_personas. rewrite get_persona_list_run, Eroot.
      cbv zeta. simpl. now rewrite Hch.
  - now destruct (Hroot c).
  - simpl in Hch. injection Hch as Hch. rewrite <- Hch.
    split; [|split; [constructor | split; [constructor|]]].
    + split; [intros [] | intros Hv; destruct (Hin Hv); discriminate].
    + unfold refresh_personas. rewrite get_persona_list_run, Eroot.
      reflexivity.
Qed.

(** *** The root of the personas *)

(** Loading the module makes the root of the personas where it is
    missing and disturbs nothing that exists; loading it again changes
    nothing, and the listing then never raises. *)
Theorem module_init_idempotent (w w' : world) :
  module_init app_file cwd w = (Ok tt, w') ->
  node_of (w_fs w') ROOT = Some Dir
  /\ (forall q n, node_at (w_fs w) q = Some n -> node_at (w_fs w') q = Some n)
  /\ module_init app_file cwd w' = (Ok tt, logged w' [EvMakedirs ROOT])
  /\ exists l, fst (persona_list w') = Ok l.
Proof.
  intros Hinit.
  pose proof (module_init_root _ _ Hinit) as Hroot.
  unfold module_init in *.
  rewrite os_makedirs_run in * by apply PERSONAS_DIR_nonempty.
  destruct (mkdirs ROOT [] (resolve cwd ROOT) (w_fs w)) as [s1|e] eqn:Hmk;
    [|discriminate].
  injection Hinit as <-. cbn [w_fs] in *.
  split; [exact Hroot|]. split; [|split].
  - intros q n. apply (mkdirs_node_keeps _ _ _ _ Hmk).
  - rewrite (dirs_along_mkdirs ROOT (resolve cwd ROOT) [] s1
               (mkdirs_dirs_along _ _ _ _ _ Hmk)).
    reflexivity.
  - rewrite get_persona_list_run. cbn [w_fs]. rewrite Hroot.
    eexists. reflexivity.
Qed.

(** A regular file on the way of [os.makedirs]: the call raises, with
    [FileExistsError] or [NotADirectoryError], and makes nothing. *)
Lemma mkdirs_blocked (p : string) (todo : list string) :
  forall done s c,
  todo <> [] ->
  lookup (done ++ todo)%list s = Some (File c) ->
  exists e, mkdirs p done todo s = Raise e
            /\ (exn_cls e = FileExistsError
                \/ exn_cls e = NotADirectoryError).
Proof.
  induction todo as [|n rest IH]; intros done s c Hne Hfile; [congruence|].
  simpl.
  assert (Hk : (done ++ n :: rest)%list = ((done ++ [n]) ++ rest)%list)
    by now rewrite <- app_assoc.
  destruct (lookup (done ++ [n])%list s) as [[|c0]|] eqn:E.
  - destruct rest as [|m rest'].
    + rewrite E in Hfile. discriminate.
    + apply (IH _ _ c); [discriminate | now rewrite <- Hk].
  - eexists. split; [reflexivity|].
    destruct rest; [now left | now right].
  - destruct rest as [|m rest'].
    + rewrite E in Hfile. discriminate.
    + apply (IH _ _ c); [discriminate|].
      rewrite lookup_store_other; [now rewrite <- Hk|].
      apply key_neq_longer. discriminate.
Qed.

Lemma os_makedirs_blocked (p : string) (c : content) (w : world) :
  node_of (w_fs w) p = Some (File c) ->
  exists e, os_makedirs cwd p w = (Raise e, logged w [EvMakedirs p])
            /\ (exn_cls e = FileExistsError
                \/ exn_cls e = NotADirectoryError).
Proof.
  intros Hfile.
  pose proof (node_of_some_nonempty _ _ _ Hfile) as Hp.
  rewrite node_of_nonempty in Hfile by assumption.
  rewrite os_makedirs_run by assumption.
  destruct (resolve cwd p) as [|x k] eqn:Ek; [discriminate|].
  destruct (mkdirs_blocked p (x :: k) [] (w_fs w) c) as (e & -> & Hcls);
    [discriminate | exact Hfile |].
  now exists e.
Qed.

(** With a regular file in the place of the root of the personas the
    module does not load: [os.makedirs] raises and the exception is not
    handled.  The same goes for a save under a name whose directory
    would be where a regular file is: the save raises before anything is
    copied or written. *)
Theorem makedirs_blocked_by_file (c : content) (w : world) :
  (node_of (w_fs w) ROOT = Some (File c) ->
   exists e,
     module_init app_file cwd w = (Raise e, logged w [EvMakedirs ROOT])
     /\ (exn_cls e = FileExistsError \/ exn_cls e = NotADirectoryError))
  /\ (forall name audio k,
        name <> "" -> audio <> "" ->
        node_of (w_fs w) (persona_dir name) = Some (File c) ->
        exists e,
          save (Some name) (Some audio) k w =
          (Raise e, logged w [EvMakedirs (persona_dir name)])
          /\ (exn_cls e = FileExistsError
              \/ exn_cls e = NotADirectoryError)).
Proof.
  split.
  - intros Hfile. now apply (os_makedirs_blocked ROOT c).
  - intros name audio k Hname Haudio Hfile.
    destruct (os_makedirs_blocked _ c w Hfile) as (e & Hmk & Hcls).
    exists e. split; [|exact Hcls].
    rewrite save_persona_steps by assumption.
    unfold bind at 1. now rewrite Hmk.
Qed.

(** A save is not undone when it fails: once the persona's directory
    has been made it is there whatever happens next.  A save from an
    audio path that leads to no file fails with the [FileNotFoundError]
    of the copy, and leaves the directory behind. *)
Theorem save_persona_failure_leaves_directory (name audio : string)
        (k : sliders) (e : exn) (w w1 w' : world) :
  name <> "" -> audio <> "" ->
  os_makedirs cwd (persona_dir name) w = (Ok tt, w1) ->
  save (Some name) (Some audio) k w = (Raise e, w') ->
  node_of (w_fs w') (persona_dir name) = Some Dir
  /\ (node_of (w_fs w1) audio = None -> e = enoent audio).
Proof.
  intros Hname Haudio Hmk Hsave.
  assert (Hpp : persona_dir name <> "") by now apply persona_dir_nonempty.
  split.
  - destruct (save_persona_writes _ _ _ _ _ _ Hname Haudio Hsave)
      as (s1 & s2 & Hs1 & H12 & H23).
    rewrite os_makedirs_run in Hmk by assumption.
    destruct Hs1 as [(_ & e0 & E & _)|E]; rewrite E in Hmk; [discriminate|].
    rewrite node_of_nonempty by assumption.
    apply (wrote_at_dir _ _ _ _ H23), (wrote_at_dir _ _ _ _ H12).
    apply (mkdirs_node_target _ _ _ _ E).
  - intros Hnone. rewrite save_persona_steps in Hsave by assumption.
    unfold bind at 1 in Hsave. rewrite Hmk in Hsave.
    unfold bind at 1 in Hsave. rewrite shutil_copy2_unfold in Hsave.
    cbv zeta in Hsave. unfold same_file in Hsave. rewrite Hnone in Hsave.
    simpl in Hsave. now injection Hsave as <- _.
Qed.

(** *** Listing: what it does not check *)

(** The listing names every directory of the root, whether or not it
    holds a [config.json]: a directory without one is offered as a
    persona, and loading it raises the [gr.Error] of the missing
    config. *)
Theorem listed_persona_without_config (n : string) (w : world) :
  names_valid (w_fs w) ->
  node_of (w_fs w) ROOT = Some Dir ->
  lookup (resolve cwd ROOT ++ [n])%list (w_fs w) = Some Dir ->
  lookup ((resolve cwd ROOT ++ [n]) ++ ["config.json"])%list (w_fs w) = None ->
  (exists l w', persona_list w = (Ok l, w') /\ In n l)
  /\ fst (load (Some n) w) =
     Raise (mkExn GrError ("Config not found for persona: " ++ n)).
Proof.
  intros Hvalid Hroot Hdir Hcfg.
  assert (Hv : valid_name n = true).
  { apply (entries_valid (resolve cwd ROOT) (w_fs w) n Hvalid).
    apply In_entries. congruence. }
  destruct (proj1 (valid_name_spec _) Hv) as (Hn & _).
  split.
  - rewrite get_persona_list_run, Hroot. cbv zeta.
    eexists _, _. split; [reflexivity|].
    now apply (proj1 (listed_dirs_spec (w_fs w) Hvalid)).
  - destruct n as [|a n']; [congruence|].
    rewrite load_persona_unfold. cbv zeta.
    rewrite node_of_nonempty by apply config_json_nonempty.
    rewrite config_key by assumption.
    rewrite (resolve_join_name cwd ROOT _ PERSONAS_DIR_nonempty Hv).
    rewrite node_at_snoc, Hcfg. reflexivity.
Qed.

(** The listing, and with it a refresh of the dropdown, raises in one
    case only: when a regular file is in the place of the root.  The
    existence test has then passed, and the [NotADirectoryError] of
    [os.listdir] comes through as it is; the file system is untouched. *)
Theorem refresh_personas_failure (w : world) :
  ((exists e w', refresh_personas app_file cwd w = (Raise e, w'))
   <-> exists c, node_of (w_fs w) ROOT = Some (File c))
  /\ (forall e w',
        refresh_personas app_file cwd w = (Raise e, w') ->
        e = enotdir ROOT
        /\ w' = logged w [EvExists ROOT; EvListdir ROOT]
        /\ persona_list w = (Raise e, w')).
Proof.
  unfold refresh_personas. rewrite get_persona_list_run.
  destruct (node_of (w_fs w) ROOT) as [[|c]|]; cbv zeta; split.
  - split; [intros (e & w' & H); discriminate | intros [c H]; discriminate].
  - intros e w' H. discriminate.
  - split; [intros _; now exists c | intros _; now eexists _, _].
  - intros e w' [= <- <-]. now repeat split.
  - split; [intros (e & w' & H); discriminate | intros [c H]; discriminate].
  - intros e w' H. discriminate.
Qed.

(** *** Names and lines *)

Lemma splitext_ext_shape (p : string) :
  snd (splitext p) = ""
  \/ exists r, snd (splitext p) = String extsep r
               /\ mem_char extsep r = false.
Proof.
  unfold splitext.
  destruct (match rsplit_char sep p with
            | Some (l, r) => (l ++ String sep "", r)
            | None => ("", p)
            end) as [head base].
  destruct (span_char extsep base) as [dots rest].
  destruct (rsplit_char extsep rest) as [[l r]|] eqn:E; simpl.
  - right. exists r. split; [reflexivity|].
    now apply rsplit_char_some in E.
  - now left.
Qed.

Lemma rsplit_char_absent (c : ascii) (s : string) :
  mem_char c s = false -> rsplit_char c s = None.
Proof.
  induction s as [|a s IH]; simpl; [reflexivity|].
  intros H. apply orb_false_iff in H as [Ha Hs].
  now rewrite (IH Hs), Ha.
Qed.

Lemma rsplit_char_last (c : ascii) (l r : string) :
  mem_char c r = false -> rsplit_char c (l ++ String c r) = Some (l, r).
Proof.
  intros Hr. induction l as [|a l IH].
  - change ("" ++ String c r) with (String c r). simpl.
    now rewrite (rsplit_char_absent c r Hr), Ascii.eqb_refl.
  - change (String a l ++ String c r) with (String a (l ++ String c r)).
    simpl. now rewrite IH.
Qed.

Lemma join_onto (a b : string) :
  a <> "" -> starts_with_sep b = false ->
  exists l, join a b = l ++ String sep b.
Proof.
  intros Ha Hb. unfold join. rewrite Hb.
  apply String.eqb_neq in Ha. rewrite Ha. simpl orb.
  destruct (ends_with_sep a) eqn:E.
  - destruct (ends_with_sep_inv a E) as [a0 ->]. exists a0.
    now rewrite string_app_assoc.
  - now exists a.
Qed.

(** The extension a save keeps: a dot and then neither dot nor
    separator. *)
Lemma kept_ext_shape (audio : string) :
  exists suffix,
    kept_ext audio = String extsep suffix
    /\ mem_char extsep suffix = false
    /\ mem_char sep suffix = false
    /\ (snd (splitext audio) = "" -> suffix = "wav").
Proof.
  pose proof (kept_ext_no_sep audio) as Hsep. revert Hsep.
  unfold kept_ext. cbv zeta.
  destruct (splitext_ext_shape audio) as [E|(r & E & Hr)]; rewrite E.
  - intros _. exists "wav". now repeat split.
  - simpl. intros Hsep. exists r. repeat split; try assumption.
    discriminate.
Qed.

(** The stored reference file has the extension of the audio it was
    copied from. *)
Lemma kept_ext_reference (a audio : string) :
  a <> "" -> kept_ext (join a (reference (kept_ext audio))) = kept_ext audio.
Proof.
  intros Ha. destruct (kept_ext_shape audio) as (suffix & E & Hdot & Hsep & _).
  rewrite E.
  destruct (join_onto a (reference (String extsep suffix)) Ha eq_refl)
    as [l ->].
  assert (Hbase : mem_char sep (reference (String extsep suffix)) = false)
    by (unfold reference; simpl; exact Hsep).
  unfold kept_ext, splitext. rewrite (rsplit_char_last sep l _ Hbase).
  change (reference (String extsep suffix))
    with ("reference" ++ String extsep suffix).
  change (span_char extsep ("reference" ++ String extsep suffix))
    with ("", "reference" ++ String extsep suffix).
  cbv iota beta. rewrite (rsplit_char_last extsep "reference" suffix Hdot).
  reflexivity.
Qed.

(** The name a save stores the audio under is ["reference."] followed by
    a suffix that holds neither a dot nor a separator (["wav"] when the
    source has no extension): whatever the source path, it is a plain
    entry name, so the copy is addressed to an entry of the persona's own
    directory. *)
Theorem saved_audio_name (name audio : string) :
  exists suffix,
    reference (kept_ext audio) = "reference." ++ suffix
    /\ mem_char extsep suffix = false
    /\ mem_char sep suffix = false
    /\ (snd (splitext audio) = "" -> suffix = "wav")
    /\ valid_name (reference (kept_ext audio)) = true
    /\ (name <> "" ->
        resolve cwd (reference_of name audio) =
        (resolve cwd (persona_dir name) ++ [reference (kept_ext audio)])%list).
Proof.
  destruct (kept_ext_shape audio) as (suffix & E & Hdot & Hsep & Hwav).
  exists suffix.
  split; [now rewrite E|]. split; [exact Hdot|]. split; [exact Hsep|].
  split; [exact Hwav|]. split.
  - apply reference_name_valid, kept_ext_no_sep.
  - intros Hname. now apply reference_key.
Qed.

Lemma substring_prefix (m : nat) :
  forall s, exists rest,
    s = substring 0 m s ++ rest
    /\ String.length (substring 0 m s) = Nat.min m (String.length s)
    /\ (String.length s <= m -> substring 0 m s = s).
Proof.
  induction m as [|m IH]; intros s.
  - exists s. destruct s; repeat split; cbn [String.length]; intros; lia.
  - destruct s as [|a s].
    + exists "". now repeat split.
    + destruct (IH s) as (rest & E & L & Hw). exists rest.
      change (substring 0 (S m) (String a s))
        with (String a (substring 0 m s)).
      split; [|split].
      * change (String a s = String a (substring 0 m s ++ rest)).
        now rewrite <- E.
      * simpl. now rewrite L.
      * simpl. intros Hlen. rewrite Hw by lia. reflexivity.
Qed.

(** The line [generate_audio] prints first carries the beginning of the
    text, fifty characters of it at most; a shorter text is printed
    whole. *)
Theorem generate_audio_prints_prefix (text : string)
        (audio : option string) (k : sliders) (w : world) :
  text <> "" ->
  exists shown rest more,
    w_log (snd (generate (Some text) audio k w)) =
    (w_log w ++ EvPrint ("Generating for text: " ++ shown ++ "...") :: more)%list
    /\ text = shown ++ rest
    /\ String.length shown = Nat.min 50 (String.length text)
    /\ (String.length text <= 50 -> shown = text).
Proof.
  intros Ht. destruct text as [|a t]; [congruence|].
  destruct (substring_prefix 50 (String a t)) as (rest & E & L & Hw).
  exists (substring 0 50 (String a t)), rest.
  rewrite generate_audio_steps. cbv zeta.
  match goal with
  | |- context [try_except ?b ?h ?w1] =>
      pose proof (generate_body_run (String a t) audio k w1) as Hl;
        destruct (try_except b h w1) as [r w']
  end.
  destruct Hl as (_ & _ & _ & _ & more & Hl). exists more. cbn [snd].
  split; [|split; [exact E | split; [exact L | exact Hw]]].
  rewrite Hl. cbn [w_log logged]. now rewrite <- app_assoc.
Qed.

(** *** Saving what was loaded *)

(** What a load hands to the audio input is the persona's own stored
    reference file, so a save under the same name with the interface as
    the load left it asks [shutil.copy2] to copy that file onto itself:
    the save raises [SameFileError], whatever the numbers, and
    [config.json] keeps the numbers of the earlier save.  (The place of
    [reference<ext>] held no directory when the persona was first
    saved.) *)
Theorem resave_loaded_persona_fails (name audio : string) (k1 k2 : sliders)
        (r1 : save_result) (w0 w1 : world) :
  save (Some name) (Some audio) k1 w0 = (Ok r1, w1) ->
  node_of (w_fs w0) (reference_of name audio) <> Some Dir ->
  let stored := reference_of name audio in
  exists P w2 w3,
    load (Some name) w1 = (Ok (loaded_params stored P), w2)
    /\ save (Some name) (Some stored) k2 w2 =
       (Raise (mkExn SameFileError
                 ("'" ++ stored ++ "' and '" ++ stored
                      ++ "' are the same file")), w3)
    /\ w_fs w3 = w_fs w1
    /\ node_of (w_fs w3) (config_json name) =
       Some (File (Json (config P (kept_ext audio)))).
Proof.
  intros Hsave Hnd stored.
  destruct (save_persona_post _ _ _ _ _ _ Hsave)
    as (Hname & Haudio & P & _ & Hdirs & Hcfg & _).
  destruct (save_persona_inv _ _ _ _ _ _ Hsave)
    as (s1 & c & P1 & Hmk & _ & _ & _ & Htk & _ & _ & _ & Hfs & _).
  cbv zeta in *.
  assert (Hpp : persona_dir name <> "") by now apply persona_dir_nonempty.
  pose proof (reference_of_nonempty name audio) as Hsne. fold stored in Hsne.
  assert (Ht : copy_target cwd s1 audio stored = stored).
  { unfold stored.
    rewrite (copy_target_after_mkdirs name audio (w_fs w0) s1 Hname Hmk).
    unfold copy_target.
    destruct (node_of (w_fs w0) (reference_of name audio)) as [[|?]|];
      [congruence | reflexivity | reflexivity]. }
  fold stored in Htk, Hfs. rewrite Ht in Htk, Hfs.
  assert (Hstored : node_of (w_fs w1) stored = Some (File c)).
  { rewrite node_of_nonempty, Hfs by assumption.
    rewrite node_at_store_other.
    - apply node_at_store_same. intros E. apply Htk. now rewrite E.
    - unfold stored. rewrite config_key, reference_key by assumption.
      intros E. symmetry in E. revert E. apply reference_neq_config. }
  assert (Hagain : reference_of name stored = stored).
  { unfold stored. now rewrite kept_ext_reference. }
  exists P. eexists _, _.
  split; [now apply load_persona_saved|].
  rewrite save_persona_steps by assumption.
  unfold bind at 1. rewrite os_makedirs_run by assumption.
  cbn [w_fs logged].
  rewrite (dirs_along_mkdirs _ _ _ _ Hdirs).
  unfold bind at 1. rewrite shutil_copy2_unfold. cbv zeta.
  cbn [w_fs w_log w_copy_fault]. rewrite Hagain.
  assert (Htarget : copy_target cwd (w_fs w1) stored stored = stored)
    by (unfold copy_target; now rewrite Hstored).
  rewrite Htarget. unfold same_file. rewrite Hstored, key_eqb_refl.
  cbn [is_some andb]. split; [reflexivity|]. split; [reflexivity|].
  exact Hcfg.
Qed.

(** *** The defaults of a load and the sliders *)

End Properties.

(* ================================================================= *)
(** * The theorems at work on the concrete installation *)

Lemma load_persona_no_selection_witness :
  falsy (Some "") = true
  /\ Demo.load (Some "") Demo.w1 = (Ok NoUpdates, Demo.w1).
Proof.
  split; [reflexivity|].
  apply (load_persona_no_selection Demo.app_file Demo.cwd (Some "") Demo.w1).
  reflexivity.
Defined.




Lemma generate_audio_wraps_failure_witness :
  "Hello" <> ""
  /\ Demo.model_generate (w_fs Demo.w0)
       (mkGenArgs "Hello" Demo.P1 (Some "/tmp/missing.wav")) =
     Raise (enoent "/tmp/missing.wav")
  /\ exists w',
       Demo.generate (Some "Hello") (Some "/tmp/missing.wav")
                     (as_sliders Demo.P1) Demo.w0 =
       (Raise (mkExn GrError
                 ("Generation failed: " ++ exn_str (enoent "/tmp/missing.wav"))),
        w')
       /\ invocations (w_log w') =
          (invocations (w_log Demo.w0)
             ++ [mkGenArgs "Hello" Demo.P1 (Some "/tmp/missing.wav")])%list
       /\ w_fs w' = w_fs Demo.w0.
Proof.
  split; [discriminate|]. split; [reflexivity|].
  apply (generate_audio_wraps_failure
           Demo.float_of_str Demo.cwd Demo.model_generate Demo.model_sr
           Demo.wav_encode Demo.temp_name
           "Hello" (Some "/tmp/missing.wav") Demo.P1
           (enoent "/tmp/missing.wav") Demo.w0).
  - discriminate.
  - reflexivity.
Defined.

Lemma get_persona_list_spec_witness :
  names_valid (w_fs Demo.w_old)
  /\ exists l w',
       Demo.persona_list Demo.w_old = (Ok l, w')
       /\ w_fs w' = w_fs Demo.w_old
       /\ (forall n, In n l <->
             at_path Demo.cwd (w_fs Demo.w_old) (PERSONAS_DIR Demo.app_file)
             = Some Dir
             /\ lookup (resolve Demo.cwd (PERSONAS_DIR Demo.app_file) ++ [n])%list
                       (w_fs Demo.w_old) = Some Dir)
       /\ NoDup l
       /\ StronglySorted (fun a b => String.leb a b = true) l
       /\ (at_path Demo.cwd (w_fs Demo.w_old) (PERSONAS_DIR Demo.app_file) = None
           \/ entries (resolve Demo.cwd (PERSONAS_DIR Demo.app_file))
                      (w_fs Demo.w_old) = [] -> l = [])
       /\ (forall w2,
             names_valid (w_fs w2) ->
             at_path Demo.cwd (w_fs w2) (PERSONAS_DIR Demo.app_file) =
             at_path Demo.cwd (w_fs Demo.w_old) (PERSONAS_DIR Demo.app_file) ->
             (forall n,
                 lookup (resolve Demo.cwd (PERSONAS_DIR Demo.app_file) ++ [n])%list
                        (w_fs w2) = Some Dir <->
                 lookup (resolve Demo.cwd (PERSONAS_DIR Demo.app_file) ++ [n])%list
                        (w_fs Demo.w_old) = Some Dir) ->
             fst (Demo.persona_list w2) = Ok l).
Proof.
  split; [apply names_validb_spec; reflexivity|].
  apply (get_persona_list_spec Demo.app_file Demo.cwd Demo.w_old).
  - apply names_validb_spec. reflexivity.
  - intros c. discriminate.
Defined.

Lemma save_then_load_roundtrip_witness :
  exists r w' w'',
    Demo.save (Some "X") (Some "/tmp/voice.wav") (as_sliders Demo.P1) Demo.w0
    = (Ok r, w')
    /\ Demo.load (Some "X") w' =
       (Ok (loaded_params "/srv/chatterbox/personas/X/reference.wav" Demo.P1),
        w'')
    /\ at_path Demo.cwd (w_fs w') "/srv/chatterbox/personas/X/reference.wav"
       = Some (File Demo.voice)
    /\ resolve Demo.cwd "/srv/chatterbox/personas/X/reference.wav" =
       (resolve Demo.cwd "/srv/chatterbox/personas/X" ++ ["reference.wav"])%list.
Proof.
  apply (save_then_load_roundtrip
           Demo.float_of_str Demo.app_file Demo.cwd
           "X" "/tmp/voice.wav" Demo.P1 Demo.voice Demo.w0).
  - discriminate.
  - reflexivity.
  - reflexivity.
  - discriminate.
  - discriminate.
  - discriminate.
  - reflexivity.
  - intros c. discriminate.
Defined.

(** The claim C1 as worded, for every non-empty name and every existing
    audio file, fails: saving ["X"] again from its own stored
    [reference.wav] is a save from an existing audio file, and
    [shutil.copy2] refuses it. *)
Lemma save_from_own_reference_fails :
  ~ (forall (name audio : string) (P : ParameterSet) (c : content) (w : world),
       name <> "" ->
       at_path Demo.cwd (w_fs w) audio = Some (File c) ->
       exists r w' w'',
         Demo.save (Some name) (Some audio) (as_sliders P) w = (Ok r, w')
         /\ Demo.load (Some name) w' =
            (Ok (loaded_params
                   (join (join (PERSONAS_DIR Demo.app_file) name)
                         (reference (kept_ext audio))) P), w'')).
Proof.
  intros H.
  destruct (H "X" "/srv/chatterbox/personas/X/reference.wav" Demo.P2
              Demo.voice Demo.w1)
    as (r & w' & w'' & Hsave & _).
  - discriminate.
  - reflexivity.
  - vm_compute in Hsave. discriminate.
Qed.

(** What that save does instead. *)
Example save_from_own_reference_raises :
  exn_cls_of
    (fst (Demo.save (Some "X") (Some "/srv/chatterbox/personas/X/reference.wav")
                    (as_sliders Demo.P2) Demo.w1)) = Some SameFileError.
Proof. reflexivity. Qed.


Lemma save_persona_copy_failure_witness :
  let w1 := snd (os_makedirs Demo.cwd "/srv/chatterbox/personas/X"
                             Demo.w1_faulty) in
  let w2 := snd (shutil_copy2 Demo.cwd "/tmp/voice2.wav"
                              "/srv/chatterbox/personas/X/reference.wav" w1) in
  Demo.save (Some "X") (Some "/tmp/voice2.wav") (as_sliders Demo.P2)
            Demo.w1_faulty =
  (Raise (mkExn OSError "[Errno 5] Input/output error"), w2)
  /\ at_path Demo.cwd (w_fs w2) "/srv/chatterbox/personas/X/reference.wav" =
     Some (File (Raw "ID3"))
  /\ at_path Demo.cwd (w_fs w2) "/srv/chatterbox/personas/X/config.json" =
     Some (File (Json (config Demo.P1 ".wav")))
  /\ writes_opened (w_log w2) = writes_opened (w_log Demo.w1_faulty).
Proof.
  intros w1 w2.
  destruct (save_persona_copy_failure
              Demo.float_of_str Demo.app_file Demo.cwd
              "X" "/tmp/voice2.wav" (as_sliders Demo.P2) Demo.w1_faulty)
    as [Hfail _].
  - discriminate.
  - discriminate.
  - destruct (Hfail (mkExn OSError "[Errno 5] Input/output error") w1 w2)
      as (H1 & H2 & H3); [reflexivity | reflexivity |].
    split; [exact H1|]. split; [reflexivity|]. split; [|exact H3].
    exact (eq_trans H2 eq_refl).
Defined.

Lemma save_persona_writes_full_config_witness :
  exists n a P d,
    Some "X" = Some n /\ Some "/tmp/voice.wav" = Some a
    /\ py_float Demo.float_of_str (s_repetition_penalty (as_sliders Demo.P1))
       = Ok (repetitionPenalty P)
    /\ py_float Demo.float_of_str (s_min_p (as_sliders Demo.P1)) = Ok (minP P)
    /\ py_float Demo.float_of_str (s_top_p (as_sliders Demo.P1)) = Ok (topP P)
    /\ py_float Demo.float_of_str (s_exaggeration (as_sliders Demo.P1))
       = Ok (exaggeration P)
    /\ py_float Demo.float_of_str (s_cfg_weight (as_sliders Demo.P1))
       = Ok (cfgWeight P)
    /\ py_float Demo.float_of_str (s_temperature (as_sliders Demo.P1))
       = Ok (temperature P)
    /\ at_path Demo.cwd (w_fs Demo.w1)
               (join (join (PERSONAS_DIR Demo.app_file) n) "config.json")
       = Some (File (Json (PyDict d)))
    /\ PyDict d = config P (kept_ext a)
    /\ map fst d = config_keys
    /\ dict_get d "audio_filename" PyNone = PyStr (reference (kept_ext a))
    /\ (snd (splitext a) = "" -> kept_ext a = ".wav")
    /\ (snd (splitext a) <> "" -> kept_ext a = snd (splitext a))
    /\ (forall key, In key config_keys ->
          dict_has d key = true
          /\ forall dflt dflt', dict_get d key dflt = dict_get d key dflt')
    /\ Demo.load (Some n) Demo.w1 =
       (Ok (loaded_params
              (join (join (PERSONAS_DIR Demo.app_file) n)
                    (reference (kept_ext a))) P),
        logged Demo.w1
          [EvExists (join (join (PERSONAS_DIR Demo.app_file) n) "config.json");
           EvOpenRead (join (join (PERSONAS_DIR Demo.app_file) n) "config.json")]).
Proof.
  apply (save_persona_writes_full_config
           Demo.float_of_str Demo.app_file Demo.cwd
           (Some "X") (Some "/tmp/voice.wav") (as_sliders Demo.P1)
           (mkSaved ["X"] "X" "Persona saved!") Demo.w0 Demo.w1).
  reflexivity.
Defined.

(** ** The listing on concrete runs *)

Example persona_list_skips_files :
  entries ["srv"; "chatterbox"; "personas"] (w_fs Demo.w_old)
  = ["notes.txt"; "Old"]
  /\ fst (Demo.persona_list Demo.w_old) = Ok ["Old"].
Proof. split; reflexivity. Qed.

Example persona_list_fresh :
  fst (Demo.persona_list Demo.w0) = Ok [].
Proof. reflexivity. Qed.

Example persona_list_no_root :
  fst (Demo.persona_list (mkWorld [] [] None)) = Ok [].
Proof. reflexivity. Qed.

Example persona_list_A_then_B :
  fst (Demo.persona_list
         (snd (Demo.save (Some "B") (Some "/tmp/voice.wav") (as_sliders Demo.P1)
            (snd (Demo.save (Some "A") (Some "/tmp/voice.wav")
                            (as_sliders Demo.P1) Demo.w0)))))
  = Ok ["A"; "B"].
Proof. vm_compute. reflexivity. Qed.

Example persona_list_B_then_A :
  fst (Demo.persona_list
         (snd (Demo.save (Some "A") (Some "/tmp/voice.wav") (as_sliders Demo.P1)
            (snd (Demo.save (Some "B") (Some "/tmp/voice.wav")
                            (as_sliders Demo.P1) Demo.w0)))))
  = Ok ["A"; "B"].
Proof. vm_compute. reflexivity. Qed.

Example listdir_follows_creation_order :
  entries ["srv"; "chatterbox"; "personas"]
    (w_fs (snd (Demo.save (Some "A") (Some "/tmp/voice.wav") (as_sliders Demo.P1)
             (snd (Demo.save (Some "B") (Some "/tmp/voice.wav")
                             (as_sliders Demo.P1) Demo.w0)))))
  = ["B"; "A"].
Proof. vm_compute. reflexivity. Qed.

(* ================================================================= *)
(** * The further properties at work on the concrete installation *)

Lemma resave_loaded_persona_fails_witness :
  exists P w2 w3,
    Demo.load (Some "X") Demo.w1 =
    (Ok (loaded_params "/srv/chatterbox/personas/X/reference.wav" P), w2)
    /\ Demo.save (Some "X") (Some "/srv/chatterbox/personas/X/reference.wav")
                 (as_sliders Demo.P2) w2 =
       (Raise (mkExn SameFileError
                 "'/srv/chatterbox/personas/X/reference.wav' and '/srv/chatterbox/personas/X/reference.wav' are the same file"),
        w3)
    /\ w_fs w3 = w_fs Demo.w1
    /\ at_path Demo.cwd (w_fs w3) "/srv/chatterbox/personas/X/config.json" =
       Some (File (Json (config P ".wav"))).
Proof.
  apply (resave_loaded_persona_fails
           Demo.float_of_str Demo.app_file Demo.cwd
           "X" "/tmp/voice.wav" (as_sliders Demo.P1) (as_sliders Demo.P2)
           (mkSaved ["X"] "X" "Persona saved!") Demo.w0 Demo.w1).
  - reflexivity.
  - discriminate.
Defined.

Lemma save_persona_requires_inputs_witness :
  Demo.save None (Some "/tmp/voice.wav") (as_sliders Demo.P1) Demo.w0 =
  (Raise (mkExn GrError "Please enter a name for the persona."), Demo.w0)
  /\ Demo.save (Some "X") (Some "") (as_sliders Demo.P1) Demo.w0 =
     (Raise (mkExn GrError "Audio prompt is required to save a persona."),
      Demo.w0).
Proof.
  split.
  - apply (save_persona_requires_inputs
             Demo.float_of_str Demo.app_file Demo.cwd
             None (Some "/tmp/voice.wav") (as_sliders Demo.P1) Demo.w0).
    reflexivity.
  - apply (save_persona_requires_inputs
             Demo.float_of_str Demo.app_file Demo.cwd
             (Some "X") (Some "") (as_sliders Demo.P1) Demo.w0);
      reflexivity.
Defined.

Lemma save_persona_bad_number_witness :
  let w1 := snd (os_makedirs Demo.cwd "/srv/chatterbox/personas/Y" Demo.w0) in
  let w2 := snd (shutil_copy2 Demo.cwd "/tmp/voice.wav"
                              "/srv/chatterbox/personas/Y/reference.wav" w1) in
  Demo.save (Some "Y") (Some "/tmp/voice.wav") Demo.cleared_sliders Demo.w0 =
  (Raise (mkExn TypeError
            "float() argument must be a string or a real number, not 'NoneType'"),
   w2)
  /\ at_path Demo.cwd (w_fs w2) "/srv/chatterbox/personas/Y" = Some Dir
  /\ at_path Demo.cwd (w_fs w2) "/srv/chatterbox/personas/Y/reference.wav"
     = Some (File Demo.voice)
  /\ at_path Demo.cwd (w_fs w2) "/srv/chatterbox/personas/Y/config.json" = None
  /\ fst (Demo.load (Some "Y") w2) =
     Raise (mkExn GrError "Config not found for persona: Y").
Proof.
  intros w1 w2.
  destruct (save_persona_bad_number
              Demo.float_of_str Demo.app_file Demo.cwd
              "Y" "/tmp/voice.wav" "/srv/chatterbox/personas/Y/reference.wav"
              Demo.cleared_sliders
              (mkExn TypeError
                 "float() argument must be a string or a real number, not 'NoneType'")
              Demo.w0 w1 w2)
    as (H1 & H2 & _ & H4 & _ & H6);
    [discriminate | discriminate | reflexivity | reflexivity | reflexivity |].
  split; [exact H1|]. split; [exact H2|]. split; [reflexivity|].
  split; [exact (eq_trans H4 eq_refl) | exact (H6 eq_refl)].
Defined.

Lemma save_persona_keeps_other_files_witness :
  let w' := snd (Demo.save (Some "Y") (Some "/tmp/voice2.mp3")
                           (as_sliders Demo.P2) Demo.w1) in
  node_at (w_fs w') ["srv"; "chatterbox"; "personas"; "X"] = Some Dir
  /\ node_at (w_fs w') ["srv"; "chatterbox"; "personas"; "X"; "reference.wav"]
     = Some (File Demo.voice)
  /\ node_at (w_fs w') ["tmp"; "voice2.mp3"] = Some (File Demo.voice2).
Proof.
  intros w'.
  destruct (save_persona_keeps_other_files
              Demo.float_of_str Demo.app_file Demo.cwd
              "Y" "/tmp/voice2.mp3" (as_sliders Demo.P2)
              (fst (Demo.save (Some "Y") (Some "/tmp/voice2.mp3")
                              (as_sliders Demo.P2) Demo.w1))
              Demo.w1 w')
    as (Hdir & _ & Hfile);
    [discriminate | discriminate | apply surjective_pairing |].
  split; [apply Hdir; reflexivity|].
  split; apply Hfile;
    [ reflexivity | vm_compute; discriminate | vm_compute; discriminate
    | reflexivity | vm_compute; discriminate | vm_compute; discriminate ].
Defined.

Lemma save_persona_leaves_others_witness :
  let w' := snd (Demo.save (Some "Y") (Some "/tmp/voice2.mp3")
                           (as_sliders Demo.P2) Demo.w1) in
  valid_name "Y" = true /\ valid_name "X" = true
  /\ fst (Demo.load (Some "X") w') =
     Ok (loaded_params "/srv/chatterbox/personas/X/reference.wav" Demo.P1).
Proof.
  intros w'. split; [reflexivity|]. split; [reflexivity|].
  destruct (save_persona_leaves_others
              Demo.float_of_str Demo.app_file Demo.cwd
              "Y" "X" "/tmp/voice2.mp3" (as_sliders Demo.P2)
              (fst (Demo.save (Some "Y") (Some "/tmp/voice2.mp3")
                              (as_sliders Demo.P2) Demo.w1))
              Demo.w1 w')
    as [_ H];
    [reflexivity | reflexivity | discriminate | discriminate
     | apply surjective_pairing |].
  exact (eq_trans H eq_refl).
Defined.

Lemma save_persona_leaves_old_reference_witness :
  let w' := snd (Demo.save (Some "X") (Some "/tmp/voice2.mp3")
                           (as_sliders Demo.P2) Demo.w1) in
  at_path Demo.cwd (w_fs w') "/srv/chatterbox/personas/X/reference.wav"
  = Some (File Demo.voice)
  /\ fst (Demo.load (Some "X") w') =
     Ok (loaded_params "/srv/chatterbox/personas/X/reference.mp3" Demo.P2).
Proof.
  intros w'. split; [|reflexivity].
  apply (save_persona_leaves_old_reference
           Demo.float_of_str Demo.app_file Demo.cwd
           "X" "/tmp/voice2.mp3" ".wav" Demo.voice (as_sliders Demo.P2)
           (fst (Demo.save (Some "X") (Some "/tmp/voice2.mp3")
                           (as_sliders Demo.P2) Demo.w1))
           Demo.w1 w');
    [discriminate | discriminate | reflexivity | discriminate | reflexivity
     | apply surjective_pairing].
Defined.

Lemma save_persona_stores_copy_witness :
  exists c,
    at_path Demo.cwd (w_fs Demo.w0) "/tmp/voice.wav" = Some (File c)
    /\ at_path Demo.cwd (w_fs Demo.w1)
               "/srv/chatterbox/personas/X/reference.wav" = Some (File c)
    /\ at_path Demo.cwd (w_fs Demo.w1) "/tmp/voice.wav" = Some (File c).
Proof.
  destruct (save_persona_stores_copy
              Demo.float_of_str Demo.app_file Demo.cwd
              "X" "/tmp/voice.wav" (as_sliders Demo.P1)
              (mkSaved ["X"] "X" "Persona saved!") Demo.w0 Demo.w1 eq_refl)
    as (c & H1 & H2 & _ & H4).
  exists c. split; [exact H1|]. split; [exact H2|].
  apply H4. vm_compute. discriminate.
Defined.

Lemma save_persona_absolute_name_witness :
  let w' := snd (Demo.save (Some "/tmp/elsewhere") (Some "/tmp/voice.wav")
                           (as_sliders Demo.P1) Demo.w0) in
  starts_with_sep "/tmp/elsewhere" = true
  /\ join (PERSONAS_DIR Demo.app_file) "/tmp/elsewhere" = "/tmp/elsewhere"
  /\ at_path Demo.cwd (w_fs w') "/tmp/elsewhere" = Some Dir
  /\ exists P,
       at_path Demo.cwd (w_fs w') (join "/tmp/elsewhere" "config.json") =
       Some (File (Json (config P (kept_ext "/tmp/voice.wav")))).
Proof.
  intros w'. split; [reflexivity|].
  apply (save_persona_absolute_name
           Demo.float_of_str Demo.app_file Demo.cwd
           "/tmp/elsewhere" "/tmp/voice.wav" (as_sliders Demo.P1)
           (mkSaved [] "/tmp/elsewhere" "Persona saved!") Demo.w0 w');
    reflexivity.
Defined.

Lemma save_persona_failure_leaves_directory_witness :
  let w' := snd (Demo.save (Some "Z") (Some "/tmp/missing.wav")
                           (as_sliders Demo.P1) Demo.w0) in
  Demo.save (Some "Z") (Some "/tmp/missing.wav") (as_sliders Demo.P1) Demo.w0
  = (Raise (enoent "/tmp/missing.wav"), w')
  /\ at_path Demo.cwd (w_fs w') "/srv/chatterbox/personas/Z" = Some Dir
  /\ fst (Demo.persona_list w') = Ok ["Z"].
Proof.
  intros w'.
  destruct (save_persona_failure_leaves_directory
              Demo.float_of_str Demo.app_file Demo.cwd
              "Z" "/tmp/missing.wav" (as_sliders Demo.P1)
              (enoent "/tmp/missing.wav") Demo.w0
              (snd (os_makedirs Demo.cwd "/srv/chatterbox/personas/Z" Demo.w0))
              w')
    as [H _];
    [discriminate | discriminate | reflexivity | reflexivity |].
  split; [reflexivity|]. split; [exact H | reflexivity].
Defined.

Lemma save_persona_twice_witness :
  exists w2,
    Demo.save (Some "X") (Some "/tmp/voice.wav") (as_sliders Demo.P1) Demo.w1
    = (Ok (mkSaved ["X"] "X" "Persona saved!"), w2)
    /\ w_fs w2 = w_fs Demo.w1.
Proof.
  apply (save_persona_twice
           Demo.float_of_str Demo.app_file Demo.cwd
           "X" "/tmp/voice.wav" (as_sliders Demo.P1)
           (mkSaved ["X"] "X" "Persona saved!") Demo.w0 Demo.w1).
  - reflexivity.
  - vm_compute. discriminate.
Defined.

Lemma save_persona_choices_witness :
  let r := mkSaved ["duo"] "duo/alto" "Persona saved!" in
  let w' := snd (Demo.save (Some "duo/alto") (Some "/tmp/voice.wav")
                           (as_sliders Demo.P1) Demo.w0) in
  Demo.save (Some "duo/alto") (Some "/tmp/voice.wav") (as_sliders Demo.P1)
            Demo.w0 = (Ok r, w')
  /\ sv_value r = "duo/alto"
  /\ sv_message r = "Persona saved!"
  /\ (In "duo/alto" (sv_choices r) <-> valid_name "duo/alto" = true)
  /\ NoDup (sv_choices r)
  /\ StronglySorted (fun a b => String.leb a b = true) (sv_choices r)
  /\ fst (refresh_personas Demo.app_file Demo.cwd w') = Ok (sv_choices r).
Proof.
  intros r w'. split; [reflexivity|].
  apply (save_persona_choices
           Demo.float_of_str Demo.app_file Demo.cwd
           Demo.model_generate Demo.model_sr Demo.wav_encode Demo.temp_name
           (Forall_cons "srv" (eq_refl : valid_name "srv" = true)
              (Forall_cons "chatterbox"
                 (eq_refl : valid_name "chatterbox" = true)
                 (Forall_nil _)))
           "duo/alto" "/tmp/voice.wav" (as_sliders Demo.P1) r Demo.w0 w').
  - apply names_validb_spec. reflexivity.
  - reflexivity.
Defined.

Lemma generate_audio_bad_number_witness :
  Demo.generate (Some "Hello") None Demo.cleared_sliders Demo.w0 =
  (Raise (mkExn GrError
            ("Generation failed: "
               ++ "float() argument must be a string or a real number, not 'NoneType'")),
   logged Demo.w0 [EvPrint "Generating for text: Hello..."]).
Proof.
  apply (generate_audio_bad_number
           Demo.float_of_str Demo.cwd Demo.model_generate Demo.model_sr
           Demo.wav_encode Demo.temp_name
           "Hello" None Demo.cleared_sliders
           (mkExn TypeError
              "float() argument must be a string or a real number, not 'NoneType'")
           Demo.w0).
  - discriminate.
  - reflexivity.
Defined.

Lemma generate_audio_writes_wav_witness :
  exists w',
    Demo.generate (Some "Hello") (Some "/tmp/voice.wav") (as_sliders Demo.P1)
                  Demo.w0 = (Ok "/tmp/tmp8x3k2q.wav", w')
    /\ at_path Demo.cwd (w_fs w') "/tmp/tmp8x3k2q.wav" =
       Some (File (Raw (Demo.wav_encode [0.25%float; 0.5%float] Demo.model_sr)))
    /\ w_log w' =
       (w_log Demo.w0
          ++ [EvPrint ("Generating for text: " ++ substring 0 50 "Hello" ++ "...");
              EvGenerate (mkGenArgs "Hello" Demo.P1 (Some "/tmp/voice.wav"));
              EvTempFile "/tmp/tmp8x3k2q.wav";
              EvTaSave "/tmp/tmp8x3k2q.wav"])%list
    /\ w_copy_fault w' = w_copy_fault Demo.w0.
Proof.
  apply (generate_audio_writes_wav
           Demo.float_of_str Demo.cwd Demo.model_generate
           Demo.model_sr Demo.wav_encode Demo.temp_name
           "Hello" (Some "/tmp/voice.wav") Demo.P1
           (mkTensor true [0.25%float; 0.5%float]) Demo.w0).
  - discriminate.
  - reflexivity.
  - discriminate.
  - reflexivity.
  - reflexivity.
Defined.

Lemma generate_audio_raises_gr_error_witness :
  let e := mkExn GrError ("Generation failed: "
                            ++ exn_str (enoent "/tmp/missing.wav")) in
  fst (Demo.generate (Some "Hello") (Some "/tmp/missing.wav")
                     (as_sliders Demo.P1) Demo.w0) = Raise e
  /\ exn_cls e = GrError.
Proof.
  intros e. split; [reflexivity|].
  apply (generate_audio_raises_gr_error
           Demo.float_of_str Demo.cwd Demo.model_generate Demo.model_sr
           Demo.wav_encode Demo.temp_name
           (Some "Hello") (Some "/tmp/missing.wav") (as_sliders Demo.P1)
           e Demo.w0
           (snd (Demo.generate (Some "Hello") (Some "/tmp/missing.wav")
                               (as_sliders Demo.P1) Demo.w0))).
  reflexivity.
Defined.

Lemma generate_audio_touches_temp_only_witness :
  let w' := snd (Demo.generate (Some "Hello") (Some "/tmp/voice.wav")
                               (as_sliders Demo.P1) Demo.w1) in
  node_at (w_fs w') ["srv"; "chatterbox"; "personas"; "X"; "config.json"]
  = Some (File (Json (config Demo.P1 ".wav")))
  /\ node_at (w_fs w') ["tmp"; "tmp8x3k2q.wav"] = Some (File (Raw "RIFF"))
  /\ w_copy_fault w' = w_copy_fault Demo.w1.
Proof.
  intros w'.
  destruct (generate_audio_touches_temp_only
              Demo.float_of_str Demo.cwd Demo.model_generate Demo.model_sr
              Demo.wav_encode Demo.temp_name
              (Some "Hello") (Some "/tmp/voice.wav") (as_sliders Demo.P1)
              (fst (Demo.generate (Some "Hello") (Some "/tmp/voice.wav")
                                  (as_sliders Demo.P1) Demo.w1))
              Demo.w1 w')
    as (Hfs & _ & Hfault); [apply surjective_pairing|].
  split; [|split; [reflexivity | exact Hfault]].
  refine (eq_trans (Hfs _ _) eq_refl). vm_compute. discriminate.
Defined.

Lemma generate_audio_prints_prefix_witness :
  exists shown rest more,
    w_log (snd (Demo.generate (Some Demo.long_text) None (as_sliders Demo.P1)
                              Demo.w0)) =
    (w_log Demo.w0
       ++ EvPrint ("Generating for text: " ++ shown ++ "...") :: more)%list
    /\ Demo.long_text = shown ++ rest
    /\ String.length shown = Nat.min 50 (String.length Demo.long_text)
    /\ (String.length Demo.long_text <= 50 -> shown = Demo.long_text).
Proof.
  apply (generate_audio_prints_prefix
           Demo.float_of_str Demo.cwd Demo.model_generate Demo.model_sr
           Demo.wav_encode Demo.temp_name
           Demo.long_text None (as_sliders Demo.P1) Demo.w0).
  discriminate.
Defined.




Lemma module_init_idempotent_witness :
  let w' := snd (module_init Demo.app_file Demo.cwd (mkWorld [] [] None)) in
  w_fs w' = [ (["srv"], Dir);
              (["srv"; "chatterbox"], Dir);
              (["srv"; "chatterbox"; "personas"], Dir) ]
  /\ at_path Demo.cwd (w_fs w') (PERSONAS_DIR Demo.app_file) = Some Dir
  /\ module_init Demo.app_file Demo.cwd w' =
     (Ok tt, logged w' [EvMakedirs (PERSONAS_DIR Demo.app_file)])
  /\ exists l, fst (Demo.persona_list w') = Ok l.
Proof.
  intros w'. split; [reflexivity|].
  destruct (module_init_idempotent Demo.app_file Demo.cwd
                                   (mkWorld [] [] None) w')
    as (H1 & _ & H3 & H4); [reflexivity|].
  split; [exact H1|]. split; [exact H3 | exact H4].
Defined.

Lemma makedirs_blocked_by_file_witness :
  (exists e,
      module_init Demo.app_file Demo.cwd Demo.w_blocked =
      (Raise e, logged Demo.w_blocked [EvMakedirs (PERSONAS_DIR Demo.app_file)])
      /\ (exn_cls e = FileExistsError \/ exn_cls e = NotADirectoryError))
  /\ (exists e,
        Demo.save (Some "notes.txt") (Some "/tmp/voice.wav")
                  (as_sliders Demo.P1) Demo.w_old =
        (Raise e,
         logged Demo.w_old
                [EvMakedirs (join (PERSONAS_DIR Demo.app_file) "notes.txt")])
        /\ (exn_cls e = FileExistsError \/ exn_cls e = NotADirectoryError)).
Proof.
  split.
  - apply (makedirs_blocked_by_file
             Demo.float_of_str Demo.app_file Demo.cwd
             (Raw "not a directory") Demo.w_blocked).
    reflexivity.
  - apply (proj2 (makedirs_blocked_by_file
                    Demo.float_of_str Demo.app_file Demo.cwd
                    (Raw "remember the milk") Demo.w_old)
                 "notes.txt" "/tmp/voice.wav" (as_sliders Demo.P1)).
    + discriminate.
    + discriminate.
    + reflexivity.
Defined.

Lemma listed_persona_without_config_witness :
  (exists l w', Demo.persona_list Demo.w_odd = (Ok l, w') /\ In "Bare" l)
  /\ fst (Demo.load (Some "Bare") Demo.w_odd) =
     Raise (mkExn GrError ("Config not found for persona: " ++ "Bare")).
Proof.
  apply (listed_persona_without_config Demo.app_file Demo.cwd "Bare" Demo.w_odd).
  - apply names_validb_spec. reflexivity.
  - reflexivity.
  - reflexivity.
  - reflexivity.
Defined.

Lemma refresh_personas_failure_witness :
  exists e w',
    refresh_personas Demo.app_file Demo.cwd Demo.w_blocked = (Raise e, w')
    /\ e = enotdir (PERSONAS_DIR Demo.app_file)
    /\ w' = logged Demo.w_blocked [EvExists (PERSONAS_DIR Demo.app_file);
                                   EvListdir (PERSONAS_DIR Demo.app_file)]
    /\ Demo.persona_list Demo.w_blocked = (Raise e, w').
Proof.
  destruct (refresh_personas_failure Demo.app_file Demo.cwd Demo.w_blocked)
    as [[_ Hfile] Hexn].
  destruct (Hfile (ex_intro _ (Raw "not a directory") eq_refl))
    as (e & w' & H).
  exists e, w'. split; [exact H | exact (Hexn e w' H)].
Defined.

(** ** The further properties on concrete runs *)

Example file_names_kept :
  map (fun a => reference (kept_ext a))
      ["/tmp/voice.wav"; "/tmp/voice2.mp3"; "/tmp/take.1/voice";
       "/tmp/.hidden"; "clip.tar.gz"; "/tmp/voice."]
  = ["reference.wav"; "reference.mp3"; "reference.wav";
     "reference.wav"; "reference.gz"; "reference."].
Proof. reflexivity. Qed.

Example printed_line :
  hd_error (w_log (snd (Demo.generate (Some Demo.long_text) None
                                      (as_sliders Demo.P1) Demo.w0)))
  = Some (EvPrint
            "Generating for text: The quick brown fox jumps over the lazy dog, and t...").
Proof. reflexivity. Qed.

Example odd_name_not_among_choices :
  fst (Demo.save (Some "duo/alto") (Some "/tmp/voice.wav")
                 (as_sliders Demo.P1) Demo.w0)
  = Ok (mkSaved ["duo"] "duo/alto" "Persona saved!").
Proof. reflexivity. Qed.
